(** * Django strategies of Hypothesis: [from_model] and [from_form]

    A shallow embedding of
    [hypothesis-python/src/hypothesis/extra/django/_impl.py]
    and the properties of its field bookkeeping, keyword splitting and
    exception-to-rejection translation.

    Python dictionaries are association lists in insertion order with
    distinct keys; code that may raise runs in a state-and-error monad; a
    strategy is the computation that draws one example from it.  The two
    public functions are decorated with [st.defines_strategy]: a call
    returns a lazy strategy, and the function itself runs when that
    strategy is first used. *)

From Stdlib Require Import String List Bool ZArith Lia Permutation Sorted.
Import ListNotations.
Open Scope string_scope.
Open Scope list_scope.

Set Implicit Arguments.
Set Warnings "-register-all".

(** ** Exceptions *)

(** The exception classes the module raises, catches or lets through.
    [UnsatisfiedAssumption] is what [hypothesis.reject()] raises. *)
Inductive exn : Type :=
| IntegrityError          (* django.db.IntegrityError *)
| ValidationError         (* django.core.exceptions.ValidationError *)
| InvalidArgument         (* hypothesis.errors.InvalidArgument *)
| UnsatisfiedAssumption   (* raised by hypothesis.reject() *)
| TypeError
| KeyError
| FieldDoesNotExist       (* raised by model._meta.get_field *)
| OtherError (code : nat).

Definition is_IntegrityError (e : exn) : bool :=
  match e with IntegrityError => true | _ => false end.

Definition is_ValidationError (e : exn) : bool :=
  match e with ValidationError => true | _ => false end.

Inductive result (A : Type) : Type :=
| Ok (a : A)
| Raise (e : exn).

Arguments Ok {A} a.
Arguments Raise {A} e.

(** ** Python values *)

(** Objects that are neither classes nor strategies: what a strategy draws
    and what a form constructor receives.  [PyInfer] is the sentinel
    [hypothesis.infer]. *)
Inductive pyval : Type :=
| PyNone
| PyInfer
| PyInt (z : Z)
| PyStr (s : string)
| PyObj (id : nat)
| PyDict (items : list (string * pyval)).

(** ** Dictionaries *)

Module Dict.

Definition t (V : Type) : Type := list (string * V).

Definition empty {V : Type} : t V := [].

Fixpoint get {V : Type} (k : string) (d : t V) : option V :=
  match d with
  | [] => None
  | (k', v) :: rest => if String.eqb k k' then Some v else get k rest
  end.

(** [k in d] *)
Definition mem {V : Type} (k : string) (d : t V) : bool :=
  match get k d with Some _ => true | None => false end.

(** [d[k] = v]: an existing key keeps its position, a new key goes last. *)
Fixpoint set {V : Type} (k : string) (v : V) (d : t V) : t V :=
  match d with
  | [] => [(k, v)]
  | (k', v') :: rest =>
      if String.eqb k k' then (k, v) :: rest else (k', v') :: set k v rest
  end.

Fixpoint remove {V : Type} (k : string) (d : t V) : t V :=
  match d with
  | [] => []
  | (k', v) :: rest =>
      if String.eqb k k' then rest else (k', v) :: remove k rest
  end.

(** [d.pop(k)]: the value and the dictionary without the key. *)
Definition pop {V : Type} (k : string) (d : t V) : option (V * t V) :=
  match get k d with
  | Some v => Some (v, remove k d)
  | None => None
  end.

Definition keys {V : Type} (d : t V) : list string := map fst d.

(** [sorted(d.items())]: keys are distinct, so the order of the pairs is
    the order of their keys. *)
Fixpoint insert_item {V : Type} (x : string * V) (l : list (string * V))
  : list (string * V) :=
  match l with
  | [] => [x]
  | y :: rest =>
      if String.leb (fst x) (fst y) then x :: y :: rest
      else y :: insert_item x rest
  end.

Definition sorted_items {V : Type} (d : t V) : list (string * V) :=
  fold_right insert_item [] d.

End Dict.

(** ** Computations that may raise and that thread a state *)

Definition comp (S A : Type) : Type := S -> result A * S.

Definition ret {S A : Type} (a : A) : comp S A := fun s => (Ok a, s).

Definition raise {S A : Type} (e : exn) : comp S A := fun s => (Raise e, s).

Definition bind {S A B : Type} (c : comp S A) (k : A -> comp S B) : comp S B :=
  fun s =>
    match c s with
    | (Ok a, s') => k a s'
    | (Raise e, s') => (Raise e, s')
    end.

Declare Scope comp_scope.
Delimit Scope comp_scope with comp.
Notation "x <- c ;; k" := (bind c (fun x => k))
  (at level 100, c at next level, right associativity) : comp_scope.
Notation "c ;;; k" := (bind c (fun _ => k))
  (at level 100, right associativity) : comp_scope.
Open Scope comp_scope.

(** [try: body / except E: handler], with [caught] the test "is an
    instance of E". *)
Definition try_except {S A : Type}
    (body : comp S A) (caught : exn -> bool) (handler : comp S A) : comp S A :=
  fun s =>
    match body s with
    | (Raise e, s') => if caught e then handler s' else (Raise e, s')
    | r => r
    end.

(** A Python [for] loop over a snapshot [xs] that updates an accumulator. *)
Fixpoint foreach {S X A : Type}
    (xs : list X) (body : X -> A -> comp S A) (acc : A) : comp S A :=
  match xs with
  | [] => ret acc
  | x :: rest => acc' <- body x acc ;; foreach rest body acc'
  end.

(** ** The engine's reading of a draw *)

(** Modelled from the spec: what the engine does with the outcome of one
    draw: a value is an example, a rejection is discarded and resampled,
    any other exception propagates as a failure. *)
Inductive verdict (A : Type) : Type :=
| Drawn (a : A)
| Resample
| Failure (e : exn).

Arguments Drawn {A} a.
Arguments Resample {A}.
Arguments Failure {A} e.

Definition engine_verdict {A : Type} (r : result A) : verdict A :=
  match r with
  | Ok a => Drawn a
  | Raise UnsatisfiedAssumption => Resample
  | Raise e => Failure e
  end.

(** ** The frameworks around the module *)

Section Django.

(** Everything outside the module that a draw can read or change: the
    database, the source of randomness. *)
Variable W : Type.

(** A strategy is what drawing from it does. *)
Definition strategy (A : Type) : Type := comp W A.

(** A keyword argument of [from_model] or [from_form]: an instance of
    [SearchStrategy], or any other object ([infer] among them). *)
Inductive pyarg : Type :=
| Strategy (s : strategy pyval)
| Value (v : pyval).

(** [isinstance(v, st.SearchStrategy)] *)
Definition isinstance_SearchStrategy (a : pyarg) : bool :=
  match a with Strategy _ => true | Value _ => false end.

(** [value is infer] *)
Definition is_infer (a : pyarg) : bool :=
  match a with Value PyInfer => true | _ => false end.

(** A field of an ORM model; [default = None] stands for
    [dm.fields.NOT_PROVIDED]. *)
Record model_field : Type := {
  mf_name : string;
  mf_type : string;
  auto_created : bool;
  default : option pyval;
  primary_key : bool
}.

Definition is_NOT_PROVIDED (d : option pyval) : bool :=
  match d with None => true | Some _ => false end.

(** A field of a form instance. *)
Record form_field : Type := {
  ff_type : string;
  disabled : bool
}.

Inductive any_field : Type :=
| ModelField (f : model_field)
| FormField (f : form_field).

(** A subclass of [dm.Model]: [model._meta.concrete_fields],
    [model._meta.get_field] ([None] for [FieldDoesNotExist]) and the two
    manager methods, which return the pair (object, created). *)
Record model_class : Type := {
  concrete_fields : list model_field;
  get_field : string -> option model_field;
  get_or_create : Dict.t pyval -> comp W (pyval * bool);
  update_or_create : Dict.t pyval -> comp W (pyval * bool)
}.

Record form_instance : Type := {
  form_id : nat;
  fields : Dict.t form_field
}.

(** A subclass of [df.BaseForm]: its constructor, called with keyword
    arguments. *)
Record form_class : Type := {
  form_init : Dict.t pyval -> comp W form_instance
}.

(** A class object: its [__mro__] (the class and its bases, by name), and
    what it is when it derives from [dm.Model] and from [df.BaseForm]. *)
Record pyclass : Type := {
  cls_mro : list string;
  cls_model : option model_class;
  cls_form : option form_class
}.

(** What a caller can pass as [model] or [form]: a class, or an object
    that is not a class (an instance, a number). *)
Inductive pyobject : Type :=
| ClassObj (c : pyclass)
| NonClassObj (v : pyval).

(** ** What the module leaves behind while it builds a strategy *)

(** The calls the module makes to [from_field] and to [print], in order.
    The trace is a record kept beside the program, not a variable of it:
    it lets a statement say for which fields a strategy was inferred. *)
Inductive event : Type :=
| EvFromField (name : string) (f : any_field)   (* from_field(f) was called *)
| EvPrint (classes : list string).              (* print(t), t a tuple of classes *)

Record state : Type := {
  world : W;
  trace : list event
}.

Definition log (e : event) : comp state unit :=
  fun st => (Ok tt, {| world := world st; trace := trace st ++ [e] |}).

Definition lift_world {A : Type} (c : comp W A) : comp state A :=
  fun st =>
    let (r, w) := c (world st) in (r, {| world := w; trace := trace st |}).

(** [hypothesis.extra.django._fields.from_field]: the strategy inferred for
    a field, or the exception it raises when it can infer none. *)
Variable from_field : any_field -> result (strategy pyval).

(** [django.forms.Form] *)
Variable df_Form : form_class.

Definition call_from_field (name : string) (f : any_field)
  : comp state (strategy pyval) :=
  log (EvFromField name f) ;;;
  match from_field f with
  | Ok s => ret s
  | Raise e => raise e
  end.

Definition print (classes : list string) : comp state unit :=
  log (EvPrint classes).

(** ** The strategy combinators the module calls *)

(** Modelled from the spec: [hypothesis.reject()] asks for the example to
    be discarded and another one drawn; it does so by raising
    [UnsatisfiedAssumption] and never returns. *)
Definition reject {A : Type} : comp W A := raise UnsatisfiedAssumption.

(** Modelled from the spec: [st.builds] and [st.fixed_dictionaries] accept
    only strategies as keyword values ([InvalidArgument] otherwise), draw
    one value from each and pass them on under the same keys. *)
Fixpoint validate_kwargs (kwargs : Dict.t pyarg)
  : result (list (string * strategy pyval)) :=
  match kwargs with
  | [] => Ok []
  | (k, Strategy s) :: rest =>
      match validate_kwargs rest with
      | Ok l => Ok ((k, s) :: l)
      | Raise e => Raise e
      end
  | (_, Value _) :: _ => Raise InvalidArgument
  end.

Fixpoint draw_all (l : list (string * strategy pyval)) : comp W (Dict.t pyval) :=
  match l with
  | [] => ret []
  | (k, s) :: rest =>
      v <- s ;; vs <- draw_all rest ;; ret ((k, v) :: vs)
  end.

Definition draw_kwargs (kwargs : Dict.t pyarg) : comp W (Dict.t pyval) :=
  match validate_kwargs kwargs with
  | Ok l => draw_all l
  | Raise e => raise e
  end.

(** [st.builds(target, **kwargs)]: the keyword values are drawn, then
    [target] is called with them. *)
Definition builds {B : Type}
    (target : Dict.t pyval -> comp W B) (kwargs : Dict.t pyarg) : strategy B :=
  vals <- draw_kwargs kwargs ;; target vals.

(** [st.fixed_dictionaries(mapping)]: the dictionary of the values drawn. *)
Definition fixed_dictionaries (mapping : Dict.t pyarg) : strategy pyval :=
  vals <- draw_kwargs mapping ;; ret (PyDict vals).

(** Modelled from the spec: the two wrappers are strategies.
    [@st.composite] makes a function of [draw] and arguments into a
    function of the arguments that returns a strategy; drawing from that
    strategy runs the function with a [draw] that draws from the strategy
    it is given. *)
Definition draw_fn : Type := forall A : Type, strategy A -> comp W A.

Definition composite {X B : Type}
    (f : draw_fn -> X -> comp W B) (x : X) : strategy B :=
  f (fun _ s => s) x.

(** ** The module *)

(** [d[k]] *)
Definition getitem {S V : Type} (d : Dict.t V) (k : string) : comp S V :=
  match Dict.get k d with
  | Some v => ret v
  | None => raise KeyError
  end.

(** Line 96: [{f.name: f for f in model._meta.concrete_fields}] *)
Definition fields_by_name_of (fs : list model_field) : Dict.t model_field :=
  fold_left (fun d f => Dict.set (mf_name f) f d) fs Dict.empty.

(** Lines 97-99 of [from_model] and 201-203 of [from_form]: every keyword
    whose value is [infer] gets the strategy inferred for the field of
    that name.  [wrap] says of which kind the fields are. *)
Definition resolve_infer {F : Type} (wrap : F -> any_field)
    (fields_by_name : Dict.t F) (field_strategies : Dict.t pyarg)
  : comp state (Dict.t pyarg) :=
  foreach (Dict.sorted_items field_strategies)
    (fun '(name, value) field_strategies =>
       if is_infer value then
         f <- getitem fields_by_name name ;;
         s <- call_from_field name (wrap f) ;;
         ret (Dict.set name (Strategy s) field_strategies)
       else ret field_strategies)
    field_strategies.

(** Lines 100-106 of [from_model]. *)
Definition infer_model_fields
    (fields_by_name : Dict.t model_field) (field_strategies : Dict.t pyarg)
  : comp state (Dict.t pyarg) :=
  foreach (Dict.sorted_items fields_by_name)
    (fun '(name, field) field_strategies =>
       if negb (Dict.mem name field_strategies)
          && negb (auto_created field)
          && is_NOT_PROVIDED (default field)
       then
         s <- call_from_field name (ModelField field) ;;
         ret (Dict.set name (Strategy s) field_strategies)
       else ret field_strategies)
    field_strategies.

(** Lines 108-109 of [from_model]: the first key of [field_strategies], in
    iteration order, whose field is a primary key. *)
Fixpoint find_primary_key {S : Type} (model : model_class) (names : list string)
  : comp S (option string) :=
  match names with
  | [] => ret None
  | field :: rest =>
      match get_field model field with
      | None => raise FieldDoesNotExist
      | Some f =>
          if primary_key f then ret (Some field)
          else find_primary_key model rest
      end
  end.

(** Lines 123-129. *)
Definition _models_impl {A B : Type} (draw : draw_fn) (strat : strategy (A * B))
  : comp W A :=
  try_except
    (v <- draw _ strat ;; ret (fst v))
    is_IntegrityError
    reject.

(** Lines 64-120: the function that line 64 defines, which the decorator
    of line 63 wraps ([defines_strategy], below).  [field_strategies] is
    what [**field_strategies] collects, the keywords of the call.
    [issubclass] raises [TypeError] when its first argument is not a
    class. *)
Definition from_model (model : pyobject) (field_strategies : Dict.t pyarg)
  : comp state (strategy pyval) :=
  match model with
  | NonClassObj _ => raise TypeError          (* issubclass() arg 1 must be a class *)
  | ClassObj c =>
      match cls_model c with
      | None => raise InvalidArgument
      | Some m =>
          let fields_by_name := fields_by_name_of (concrete_fields m) in
          field_strategies <-
            resolve_infer ModelField fields_by_name field_strategies ;;
          field_strategies <-
            infer_model_fields fields_by_name field_strategies ;;
          pk <- find_primary_key m (Dict.keys field_strategies) ;;
          match pk with
          | Some field =>
              match Dict.pop field field_strategies with
              | None => raise KeyError
              | Some (v, field_strategies) =>
                  let kwargs :=
                    Dict.set "defaults"
                      (Strategy (fixed_dictionaries field_strategies))
                      [(field, v)] in
                  ret (composite (@_models_impl pyval bool)
                         (builds (update_or_create m) kwargs))
              end
          | None =>
              ret (composite (@_models_impl pyval bool)
                     (builds (get_or_create m) field_strategies))
          end
      end
  end.

(** Lines 132-152: a class derived from [_FormWrap] is its two class
    attributes. *)
Record FormWrap_class : Type := {
  wraps : form_class;
  form_kwargs : Dict.t pyval
}.

Definition _FormWrap : FormWrap_class :=
  {| wraps := df_Form; form_kwargs := Dict.empty |}.

(** Lines 149-152.  [__new__(self, **kwargs)] is called with the class as
    [self] and the drawn values as keywords: a keyword named [self] is a
    second value for the first parameter, a [TypeError] of the call.  In
    [self.wraps(data=kwargs, **self.form_kwargs)] a second value for the
    keyword [data] is a [TypeError] of that call. *)
Definition _FormWrap__new__ (self : FormWrap_class) (kwargs : Dict.t pyval)
  : comp W form_instance :=
  if Dict.mem "self" kwargs then raise TypeError
  else if Dict.mem "data" (form_kwargs self) then raise TypeError
  else form_init (wraps self) (("data", PyDict kwargs) :: form_kwargs self).

(** Lines 190-197 of [from_form]. *)
Definition split_kwargs (field_strategies_and_form_kwargs : Dict.t pyarg)
  : Dict.t pyarg * Dict.t pyval :=
  fold_left
    (fun '(field_strategies, form_kwargs) '(k, v) =>
       match v with
       | Strategy _ => (Dict.set k v field_strategies, form_kwargs)
       | Value x => (field_strategies, Dict.set k x form_kwargs)
       end)
    field_strategies_and_form_kwargs
    (Dict.empty, Dict.empty).

(** Lines 204-209 of [from_form]. *)
Definition infer_form_fields
    (fields_by_name : Dict.t form_field) (field_strategies : Dict.t pyarg)
  : comp state (Dict.t pyarg) :=
  foreach (Dict.sorted_items fields_by_name)
    (fun '(name, field) field_strategies =>
       if negb (Dict.mem name field_strategies) && negb (disabled field)
       then
         s <- call_from_field name (FormField field) ;;
         ret (Dict.set name (Strategy s) field_strategies)
       else ret field_strategies)
    field_strategies.

(** Lines 228-234. *)
Definition _forms_impl {A : Type} (draw : draw_fn) (strat : strategy A)
  : comp W A :=
  try_except (draw _ strat) is_ValidationError reject.

(** Lines 156-225: the function that line 156 defines, which the decorator
    of line 155 wraps. *)
Definition from_form (form : pyobject)
    (field_strategies_and_form_kwargs : Dict.t pyarg)
  : comp state (strategy form_instance) :=
  match form with
  | NonClassObj _ => raise TypeError          (* issubclass() arg 1 must be a class *)
  | ClassObj c =>
      match cls_form c with
      | None =>
          print (cls_mro c) ;;;                (* print(form.__mro__) *)
          raise InvalidArgument
      | Some f =>
          let '(field_strategies, form_kwargs) :=
            split_kwargs field_strategies_and_form_kwargs in
          blank_form <- lift_world (form_init f form_kwargs) ;;
          let fields_by_name := fields blank_form in
          field_strategies <-
            resolve_infer FormField fields_by_name field_strategies ;;
          field_strategies <-
            infer_form_fields fields_by_name field_strategies ;;
          let _form := {| wraps := f; form_kwargs := form_kwargs |} in
          ret (composite (@_forms_impl form_instance)
                 (builds (_FormWrap__new__ _form) field_strategies))
      end
  end.

(** ** The decorator of lines 63 and 155 *)

(** Modelled from the spec: [st.defines_strategy] is the library's
    decorator and not part of the module.  The function it puts in the
    place of [from_model] and of [from_form] runs nothing of them: a call
    returns a lazy strategy, which keeps the decorated function and the
    arguments of the call.  [lazy_unwraps] says whether some argument of
    the call is itself a lazy strategy, which the library unwraps to the
    strategy it stands for; a keyword strategy is here what drawing from
    it does, which is the same before and after. *)
Record LazyStrategy (A : Type) : Type := {
  lazy_function : pyobject -> Dict.t pyarg -> comp state (strategy A);
  lazy_args : pyobject;
  lazy_kwargs : Dict.t pyarg;
  lazy_unwraps : bool
}.

Definition defines_strategy {A : Type}
    (strategy_definition : pyobject -> Dict.t pyarg -> comp state (strategy A))
    (unwraps : bool) (arg : pyobject) (kwargs : Dict.t pyarg)
  : comp state (LazyStrategy A) :=
  ret {| lazy_function := strategy_definition;
         lazy_args := arg;
         lazy_kwargs := kwargs;
         lazy_unwraps := unwraps |}.

(** Modelled from the spec: the first use of a lazy strategy (its
    validation before a test runs, or a draw) calls the decorated function
    on the arguments of the call; when an argument was unwrapped, the
    function is called once more, on the unwrapped arguments, and the
    second result is the one kept.  What the function raises, the use
    raises.  Later uses find the strategy kept and call nothing. *)
Definition wrapped_strategy {A : Type} (l : LazyStrategy A)
  : comp state (strategy A) :=
  base <- lazy_function l (lazy_args l) (lazy_kwargs l) ;;
  if lazy_unwraps l then lazy_function l (lazy_args l) (lazy_kwargs l)
  else ret base.

(** A draw from a lazy strategy not used before: the strategy is built,
    then drawn from. *)
Definition do_draw {A : Type} (l : LazyStrategy A) : comp state A :=
  s <- wrapped_strategy l ;; lift_world s.

End Django.

Arguments Value {W} v.
Arguments NonClassObj {W} v.

(** ** The keyword split of [from_form], as its comment describes it *)

(** The keyword arguments that are strategies, in the order given. *)
Definition strategies_of {W : Type} (kwargs : Dict.t (pyarg W)) : Dict.t (pyarg W) :=
  filter (fun '(_, a) => isinstance_SearchStrategy a) kwargs.

(** The other keyword arguments, in the order given. *)
Definition values_of {W : Type} (kwargs : Dict.t (pyarg W)) : Dict.t pyval :=
  flat_map
    (fun '(k, a) => match a with Value v => [(k, v)] | Strategy _ => [] end)
    kwargs.

(** ** Vocabulary of the statements *)

(** [c] returns [r] and leaves the events [evs] behind, from whatever
    state it starts, and touches nothing of the world. *)
Definition traced {W A : Type}
    (c : comp (state W) A) (r : result A) (evs : list event) : Prop :=
  forall st, c st = (r, {| world := world st; trace := trace st ++ evs |}).

(** Lines 96-106 of [from_model]: the field strategies once [infer] is
    resolved and the missing fields are inferred. *)
Definition resolved_fields {W : Type}
    (from_field : any_field -> result (strategy W pyval))
    (m : model_class W) (kw : Dict.t (pyarg W))
  : comp (state W) (Dict.t (pyarg W)) :=
  let fields_by_name := fields_by_name_of (concrete_fields m) in
  field_strategies <- resolve_infer from_field ModelField fields_by_name kw ;;
  infer_model_fields from_field fields_by_name field_strategies.

(** Lines 108-120 of [from_model]: the strategy built from the resolved
    field strategies. *)
Definition dispatch_on_primary_key {W : Type}
    (m : model_class W) (field_strategies : Dict.t (pyarg W))
  : comp (state W) (strategy W pyval) :=
  pk <- find_primary_key m (Dict.keys field_strategies) ;;
  match pk with
  | Some field =>
      match Dict.pop field field_strategies with
      | None => raise KeyError
      | Some (v, field_strategies) =>
          let kwargs :=
            Dict.set "defaults"
              (Strategy (fixed_dictionaries field_strategies))
              [(field, v)] in
          ret (composite (@_models_impl W pyval bool)
                 (builds (update_or_create m) kwargs))
      end
  | None =>
      ret (composite (@_models_impl W pyval bool)
             (builds (get_or_create m) field_strategies))
  end.


(** The test of lines 102-104 on a field of a model, given the keywords. *)
Definition no_keyword_no_auto_no_default {W : Type}
    (kw : Dict.t (pyarg W)) (f : model_field) : Prop :=
  Dict.mem (mf_name f) kw = false /\
  auto_created f = false /\
  default f = None.

(** The field named [name] is not a primary key of [m]. *)
Definition not_primary_key {W : Type} (m : model_class W) (name : string) : Prop :=
  exists f, get_field m name = Some f /\ primary_key f = false.

(** The field named [name] is a primary key of [m]. *)
Definition is_primary_key {W : Type} (m : model_class W) (name : string) : Prop :=
  exists f, get_field m name = Some f /\ primary_key f = true.

(** The lazy strategy that a call of the decorated [from_model] returns,
    and the one that a call of the decorated [from_form] returns. *)
Definition lazy_from_model {W : Type}
    (from_field : any_field -> result (strategy W pyval))
    (unwraps : bool) (model : pyobject W) (kw : Dict.t (pyarg W))
  : LazyStrategy W pyval :=
  {| lazy_function := from_model from_field;
     lazy_args := model;
     lazy_kwargs := kw;
     lazy_unwraps := unwraps |}.

Definition lazy_from_form {W : Type}
    (from_field : any_field -> result (strategy W pyval))
    (unwraps : bool) (form : pyobject W) (kw : Dict.t (pyarg W))
  : LazyStrategy W form_instance :=
  {| lazy_function := from_form from_field;
     lazy_args := form;
     lazy_kwargs := kw;
     lazy_unwraps := unwraps |}.



(** ** Closed forms of what the loops compute *)

(** The strategy that [from_field] returns for a field; where
    [from_field] raises, the statements that use this do not apply. *)
Definition strategy_for {W : Type}
    (from_field : any_field -> result (strategy W pyval)) (f : any_field)
  : strategy W pyval :=
  match from_field f with
  | Ok s => s
  | Raise e => raise e
  end.

(** A keyword after lines 97-99: [infer] gives way to the strategy of the
    field of that name, any other value stays. *)
Definition resolve_keyword {W F : Type}
    (from_field : any_field -> result (strategy W pyval))
    (wrap : F -> any_field) (fields_by_name : Dict.t F)
    (item : string * pyarg W) : string * pyarg W :=
  if is_infer (snd item) then
    match Dict.get (fst item) fields_by_name with
    | Some f => (fst item, Strategy (strategy_for from_field (wrap f)))
    | None => item
    end
  else item.

(** The call to [from_field] that a keyword causes in lines 97-99. *)
Definition keyword_events {W F : Type}
    (wrap : F -> any_field) (fields_by_name : Dict.t F)
    (item : string * pyarg W) : list event :=
  if is_infer (snd item) then
    match Dict.get (fst item) fields_by_name with
    | Some f => [EvFromField (fst item) (wrap f)]
    | None => []
    end
  else [].

(** The entry and the event that lines 106 and 209 add for a field. *)
Definition inferred_entry {W F : Type}
    (from_field : any_field -> result (strategy W pyval))
    (wrap : F -> any_field) (item : string * F) : string * pyarg W :=
  (fst item, Strategy (strategy_for from_field (wrap (snd item)))).

Definition inferred_event {F : Type}
    (wrap : F -> any_field) (item : string * F) : event :=
  EvFromField (fst item) (wrap (snd item)).

(** The fields that pass the test of lines 101-105, in the order of the
    loop, given the keywords [kw]. *)
Definition missing_model_fields {W : Type}
    (kw : Dict.t (pyarg W)) (m : model_class W) : list (string * model_field) :=
  filter
    (fun item =>
       negb (Dict.mem (fst item) kw)
       && (negb (auto_created (snd item))
           && is_NOT_PROVIDED (default (snd item))))
    (Dict.sorted_items (fields_by_name_of (concrete_fields m))).

(** The field strategies of [from_model] after line 106: the keywords in
    the order given, then the missing fields. *)
Definition expected_model_strategies {W : Type}
    (from_field : any_field -> result (strategy W pyval))
    (m : model_class W) (kw : Dict.t (pyarg W)) : Dict.t (pyarg W) :=
  map (resolve_keyword from_field ModelField
         (fields_by_name_of (concrete_fields m))) kw
  ++ map (inferred_entry from_field ModelField) (missing_model_fields kw m).

(** The calls to [from_field] that [from_model] makes, in order. *)
Definition expected_model_events {W : Type}
    (m : model_class W) (kw : Dict.t (pyarg W)) : list event :=
  flat_map (keyword_events ModelField (fields_by_name_of (concrete_fields m)))
    (Dict.sorted_items kw)
  ++ map (inferred_event ModelField) (missing_model_fields kw m).

(** The fields that pass the test of lines 205-208, in the order of the
    loop, given the keywords [kw] of [from_form]. *)
Definition missing_form_fields {W : Type}
    (kw : Dict.t (pyarg W)) (blank_form : form_instance)
  : list (string * form_field) :=
  filter
    (fun item =>
       negb (Dict.mem (fst item) (strategies_of kw))
       && negb (disabled (snd item)))
    (Dict.sorted_items (fields blank_form)).

(** The field strategies of [from_form] after line 209. *)
Definition expected_form_strategies {W : Type}
    (from_field : any_field -> result (strategy W pyval))
    (kw : Dict.t (pyarg W)) (blank_form : form_instance) : Dict.t (pyarg W) :=
  strategies_of kw
  ++ map (inferred_entry from_field FormField)
       (missing_form_fields kw blank_form).


(** ** A shop: one model, one form *)

Module Example.

(** The world is a counter that hands out fresh values. *)
Definition World : Type := nat.

Definition fresh_int : strategy World pyval :=
  fun w => (Ok (PyInt (Z.of_nat w)), S w).

Definition from_field (f : any_field) : result (strategy World pyval) :=
  match f with
  | ModelField mf =>
      if String.eqb (mf_type mf) "ForeignKey" then Raise InvalidArgument
      else Ok fresh_int
  | FormField _ => Ok fresh_int
  end.

Definition id_field : model_field :=
  {| mf_name := "id"; mf_type := "AutoField"; auto_created := true;
     default := None; primary_key := true |}.

Definition name_field : model_field :=
  {| mf_name := "name"; mf_type := "CharField"; auto_created := false;
     default := None; primary_key := false |}.

Definition active_field : model_field :=
  {| mf_name := "active"; mf_type := "BooleanField"; auto_created := false;
     default := Some (PyInt 1); primary_key := false |}.

Definition shop_fields : list model_field :=
  [id_field; name_field; active_field].

Definition lookup_field (fs : list model_field) (name : string)
  : option model_field :=
  find (fun f => String.eqb (mf_name f) name) fs.

(** The manager: a name already taken breaks uniqueness, a name that is
    not text fails the field's conversion, anything else is a row. *)
Definition shop_row (kwargs : Dict.t pyval) : comp World (pyval * bool) :=
  fun w =>
    match Dict.get "name" kwargs with
    | Some (PyStr "taken") => (Raise IntegrityError, w)
    | Some (PyDict _) => (Raise ValidationError, w)
    | _ => (Ok (PyObj w, true), S w)
    end.

Definition Shop : model_class World :=
  {| concrete_fields := shop_fields;
     get_field := lookup_field shop_fields;
     get_or_create := shop_row;
     update_or_create := shop_row |}.

Definition ShopClass : pyclass World :=
  {| cls_mro := ["Shop"; "Model"; "object"];
     cls_model := Some Shop; cls_form := None |}.

Definition shop_form_fields : Dict.t form_field :=
  [("name", {| ff_type := "CharField"; disabled := false |});
   ("code", {| ff_type := "CharField"; disabled := true |})].

(** The form: its constructor refuses data whose name is not text. *)
Definition shop_form_init (kwargs : Dict.t pyval) : comp World form_instance :=
  fun w =>
    match Dict.get "data" kwargs with
    | Some (PyDict d) =>
        match Dict.get "name" d with
        | Some (PyDict _) => (Raise ValidationError, w)
        | _ => (Ok {| form_id := w; fields := shop_form_fields |}, S w)
        end
    | _ => (Ok {| form_id := w; fields := shop_form_fields |}, S w)
    end.

Definition ShopForm : form_class World := {| form_init := shop_form_init |}.

Definition ShopFormClass : pyclass World :=
  {| cls_mro := ["ShopForm"; "Form"; "BaseForm"; "object"];
     cls_model := None; cls_form := Some ShopForm |}.

(** A class that is neither a model nor a form. *)
Definition Plain : pyclass World :=
  {| cls_mro := ["Plain"; "object"]; cls_model := None; cls_form := None |}.

Definition just (v : pyval) : strategy World pyval := ret v.

Definition st0 : state World := {| world := 0; trace := [] |}.

(** Keywords used below. *)
Definition kw_id : Dict.t (pyarg World) :=
  [("id", Strategy (just (PyInt 7)))].

Definition kw_infer : Dict.t (pyarg World) :=
  [("active", Value PyInfer)].

Definition kw_taken : Dict.t (pyarg World) :=
  [("name", Strategy (just (PyStr "taken")))].

Definition kw_malformed : Dict.t (pyarg World) :=
  [("name", Strategy (just (PyDict [])))].

Definition kw_form : Dict.t (pyarg World) :=
  [("code", Strategy (just (PyInt 7)));
   ("prefix", Value (PyStr "x"));
   ("auto_id", Value PyInfer)].


(** What [from_model(Shop)] and [from_form(ShopForm, **kw_form)] return. *)
Definition shop_strategy : strategy World pyval :=
  composite (@_models_impl World pyval bool)
    (builds (get_or_create Shop) [("name", Strategy fresh_int)]).

Definition shop_form_strategy : strategy World form_instance :=
  composite (@_forms_impl World form_instance)
    (builds
       (_FormWrap__new__
          {| wraps := ShopForm;
             form_kwargs := [("prefix", PyStr "x"); ("auto_id", PyInfer)] |})
       [("code", Strategy (just (PyInt 7))); ("name", Strategy fresh_int)]).







(** More keywords: [infer] for a field the shop does not have, a keyword
    that names no field, and [data] passed to [from_form]. *)
Definition kw_infer_unknown : Dict.t (pyarg World) :=
  [("owner", Value PyInfer)].

Definition kw_colour : Dict.t (pyarg World) :=
  [("colour", Strategy (just (PyStr "red")))].

Definition kw_data : Dict.t (pyarg World) :=
  [("data", Value (PyDict []))].

Definition kw_data_malformed : Dict.t (pyarg World) :=
  [("data", Value (PyDict [("name", PyDict [])]))].

(** What [from_form(ShopForm, data={})] returns. *)
Definition data_form_strategy : strategy World form_instance :=
  composite (@_forms_impl World form_instance)
    (builds
       (_FormWrap__new__
          {| wraps := ShopForm; form_kwargs := [("data", PyDict [])] |})
       [("name", Strategy fresh_int)]).


(** A form that cannot be built without a keyword of its own: its
    constructor validates [owner] and raises when it is missing. *)
Definition strict_form_init (kwargs : Dict.t pyval) : comp World form_instance :=
  fun w =>
    match Dict.get "owner" kwargs with
    | Some (PyInt _) => (Ok {| form_id := w; fields := shop_form_fields |}, S w)
    | _ => (Raise ValidationError, w)
    end.

Definition StrictForm : form_class World := {| form_init := strict_form_init |}.

Definition StrictFormClass : pyclass World :=
  {| cls_mro := ["StrictForm"; "Form"; "BaseForm"; "object"];
     cls_model := None; cls_form := Some StrictForm |}.

(** A form whose fields depend on what its constructor finds: the first
    instance has a field [a], the later ones have none. *)
Definition dyn_form_init (kwargs : Dict.t pyval) : comp World form_instance :=
  fun w =>
    (Ok {| form_id := w;
           fields := if Nat.eqb w 0
                     then [("a", {| ff_type := "CharField"; disabled := false |})]
                     else [] |},
     S w).

Definition DynForm : form_class World := {| form_init := dyn_form_init |}.

Definition DynFormClass : pyclass World :=
  {| cls_mro := ["DynForm"; "Form"; "BaseForm"; "object"];
     cls_model := None; cls_form := Some DynForm |}.

(** What the first use of [from_form(DynForm)] builds, and what a later
    use builds. *)
Definition dyn_first_strategy : strategy World form_instance :=
  composite (@_forms_impl World form_instance)
    (builds (_FormWrap__new__ {| wraps := DynForm; form_kwargs := [] |})
       [("a", Strategy fresh_int)]).

Definition dyn_later_strategy : strategy World form_instance :=
  composite (@_forms_impl World form_instance)
    (builds (_FormWrap__new__ {| wraps := DynForm; form_kwargs := [] |}) []).

(** A form with a field named [self]. *)
Definition self_form_fields : Dict.t form_field :=
  [("self", {| ff_type := "CharField"; disabled := false |})].

Definition self_form_init (kwargs : Dict.t pyval) : comp World form_instance :=
  fun w => (Ok {| form_id := w; fields := self_form_fields |}, S w).

Definition SelfForm : form_class World := {| form_init := self_form_init |}.

Definition SelfFormClass : pyclass World :=
  {| cls_mro := ["SelfForm"; "Form"; "BaseForm"; "object"];
     cls_model := None; cls_form := Some SelfForm |}.

(** The shop with its fields listed the other way round. *)
Definition ShopReordered : model_class World :=
  {| concrete_fields := rev shop_fields;
     get_field := lookup_field shop_fields;
     get_or_create := shop_row;
     update_or_create := shop_row |}.

Definition ShopReorderedClass : pyclass World :=
  {| cls_mro := ["Shop"; "Model"; "object"];
     cls_model := Some ShopReordered; cls_form := None |}.


End Example.

(** * Properties *)

(** ** Dictionaries *)

Section DictFacts.

Context {V : Type}.
Implicit Types (d : Dict.t V) (k : string) (v : V).

Lemma dict_get_set_same k v d : Dict.get k (Dict.set k v d) = Some v.
Proof.
  induction d as [|[k' v'] d IH]; simpl.
  - now rewrite String.eqb_refl.
  - destruct (String.eqb k k') eqn:E; simpl.
    + now rewrite String.eqb_refl.
    + now rewrite E.
Qed.

Lemma dict_get_set_other k k' v d :
  k <> k' -> Dict.get k' (Dict.set k v d) = Dict.get k' d.
Proof.
  intros Hne. apply not_eq_sym in Hne. apply String.eqb_neq in Hne.
  induction d as [|[k0 v0] d IH]; simpl.
  - now rewrite Hne.
  - destruct (String.eqb k k0) eqn:E; simpl.
    + apply String.eqb_eq in E. subst k0. now rewrite Hne.
    + now rewrite IH.
Qed.

Lemma dict_mem_set k k' v d :
  Dict.mem k' (Dict.set k v d) = String.eqb k' k || Dict.mem k' d.
Proof.
  unfold Dict.mem. destruct (String.eqb k' k) eqn:E; simpl.
  - apply String.eqb_eq in E. subst k'. now rewrite dict_get_set_same.
  - apply String.eqb_neq in E. rewrite dict_get_set_other; auto.
Qed.

Lemma dict_get_In k v d : Dict.get k d = Some v -> In (k, v) d.
Proof.
  induction d as [|[k' v'] d IH]; simpl; [discriminate|].
  destruct (String.eqb k k') eqn:E.
  - apply String.eqb_eq in E. intros [= ->]. left. now subst.
  - auto.
Qed.

Lemma dict_get_None k d : Dict.get k d = None <-> ~ In k (Dict.keys d).
Proof.
  induction d as [|[k' v'] d IH]; simpl.
  - tauto.
  - destruct (String.eqb k k') eqn:E.
    + apply String.eqb_eq in E. subst. split; [discriminate | tauto].
    + apply String.eqb_neq in E. rewrite IH. intuition congruence.
Qed.

Lemma dict_In_get k v d :
  NoDup (Dict.keys d) -> In (k, v) d -> Dict.get k d = Some v.
Proof.
  induction d as [|[k' v'] d IH]; simpl; [tauto|].
  intros Hnd [Heq|Hin]; inversion Hnd as [|? ? Hni Hnd']; subst.
  - injection Heq as -> ->. now rewrite String.eqb_refl.
  - destruct (String.eqb k k') eqn:E; [|auto].
    apply String.eqb_eq in E. subst k'. exfalso. apply Hni.
    change k with (fst (k, v)). now apply in_map.
Qed.

Lemma dict_mem_true k d : Dict.mem k d = true <-> In k (Dict.keys d).
Proof.
  unfold Dict.mem. destruct (Dict.get k d) eqn:E.
  - split; [intros _|reflexivity].
    apply dict_get_In in E. change k with (fst (k, v)). now apply in_map.
  - split; [discriminate|]. intros H. now apply dict_get_None in E.
Qed.

Lemma dict_set_new k v d : Dict.get k d = None -> Dict.set k v d = d ++ [(k, v)].
Proof.
  induction d as [|[k' v'] d IH]; simpl; [reflexivity|].
  destruct (String.eqb k k'); [discriminate|]. intros H. now rewrite IH.
Qed.

Lemma dict_keys_set_old k v d :
  Dict.mem k d = true -> Dict.keys (Dict.set k v d) = Dict.keys d.
Proof.
  unfold Dict.mem.
  induction d as [|[k' v'] d IH]; simpl; [discriminate|].
  destruct (String.eqb k k') eqn:E; simpl.
  - apply String.eqb_eq in E. now subst.
  - intros H. now rewrite IH.
Qed.

Lemma dict_insert_item_perm (x : string * V) l :
  Permutation (Dict.insert_item x l) (x :: l).
Proof.
  induction l as [|y l IH]; simpl; [reflexivity|].
  destruct (String.leb (fst x) (fst y)); [reflexivity|].
  rewrite IH. apply perm_swap.
Qed.

Lemma dict_sorted_items_perm d : Permutation (Dict.sorted_items d) d.
Proof.
  induction d as [|x d IH]; simpl; [reflexivity|].
  rewrite dict_insert_item_perm. now constructor.
Qed.

Lemma dict_sorted_items_In x d : In x (Dict.sorted_items d) <-> In x d.
Proof.
  split; apply Permutation_in;
    [|symmetry]; apply dict_sorted_items_perm.
Qed.

Lemma dict_sorted_items_NoDup d :
  NoDup (Dict.keys d) -> NoDup (map fst (Dict.sorted_items d)).
Proof.
  intros H. eapply Permutation_NoDup; [|exact H].
  unfold Dict.keys. apply Permutation_map. symmetry.
  apply dict_sorted_items_perm.
Qed.

End DictFacts.

(** ** Computations *)

Section CompFacts.

Context {S A B : Type}.

Lemma bind_Ok (c : comp S A) (k : A -> comp S B) s a s1 :
  c s = (Ok a, s1) -> bind c k s = k a s1.
Proof. unfold bind. now intros ->. Qed.

Lemma bind_Raise (c : comp S A) (k : A -> comp S B) s e s1 :
  c s = (Raise e, s1) -> bind c k s = (Raise e, s1).
Proof. unfold bind. now intros ->. Qed.

Lemma bind_Ok_inv (c : comp S A) (k : A -> comp S B) s b s' :
  bind c k s = (Ok b, s') ->
  exists a s1, c s = (Ok a, s1) /\ k a s1 = (Ok b, s').
Proof.
  unfold bind. destruct (c s) as [[a|e] s1]; [eauto | discriminate].
Qed.

End CompFacts.

(** ** The two wrappers and the shape of what the module returns *)

Section Properties.

Variable W : Type.
Variable from_field : any_field -> result (strategy W pyval).

(** What a draw from [_models_impl(strat)] does, by the outcome of the draw
    from [strat]. *)
Lemma models_impl_draw {A B : Type} (strat : strategy W (A * B)) (w : W) :
  composite (@_models_impl W A B) strat w =
  match strat w with
  | (Ok v, w') => (Ok (fst v), w')
  | (Raise IntegrityError, w') => (Raise UnsatisfiedAssumption, w')
  | (Raise e, w') => (Raise e, w')
  end.
Proof.
  unfold composite, _models_impl, try_except, bind, ret, reject, raise.
  destruct (strat w) as [[v|[]] w']; reflexivity.
Qed.

(** What a draw from [_forms_impl(strat)] does. *)
Lemma forms_impl_draw {A : Type} (strat : strategy W A) (w : W) :
  composite (@_forms_impl W A) strat w =
  match strat w with
  | (Raise ValidationError, w') => (Raise UnsatisfiedAssumption, w')
  | r => r
  end.
Proof.
  unfold composite, _forms_impl, try_except, reject, raise.
  destruct (strat w) as [[v|[]] w']; reflexivity.
Qed.

(** A draw from [st.builds(target, **kwargs)] that gives a value drew the
    keyword values and called [target] on them. *)
Lemma builds_Ok {B : Type} (target : Dict.t pyval -> comp W B) kwargs w b w' :
  builds target kwargs w = (Ok b, w') <->
  exists vals w1,
    draw_kwargs kwargs w = (Ok vals, w1) /\ target vals w1 = (Ok b, w').
Proof.
  unfold builds. split.
  - apply bind_Ok_inv.
  - intros (vals & w1 & Hd & Ht). now rewrite (bind_Ok _ _ _ Hd).
Qed.

(** Whatever [from_model] returns is [_models_impl] around a [builds] of
    one of the two manager methods of the model. *)
Lemma from_model_shape model kw st s st' :
  from_model from_field model kw st = (Ok s, st') ->
  exists c m target kwargs,
    model = ClassObj c /\ cls_model c = Some m /\
    (target = get_or_create m \/ target = update_or_create m) /\
    s = composite (@_models_impl W pyval bool) (builds target kwargs).
Proof.
  unfold from_model. destruct model as [c|v]; [|discriminate].
  destruct (cls_model c) as [m|] eqn:Hm; [|discriminate].
  intros H.
  apply bind_Ok_inv in H as (fs1 & st1 & _ & H).
  apply bind_Ok_inv in H as (fs2 & st2 & _ & H).
  apply bind_Ok_inv in H as (pk & st3 & _ & H).
  destruct pk as [field|].
  - destruct (Dict.pop field fs2) as [[v rest]|]; [|discriminate].
    injection H as <- <-.
    exists c, m, (update_or_create m). eexists. repeat split; auto.
  - injection H as <- <-.
    exists c, m, (get_or_create m). eexists. repeat split; auto.
Qed.

(** Whatever [from_form] returns is [_forms_impl] around a [builds] of a
    class derived from [_FormWrap] that wraps the form and holds the
    keyword arguments that are not strategies. *)
Lemma from_form_shape form kw st s st' :
  from_form from_field form kw st = (Ok s, st') ->
  exists c f fs,
    form = ClassObj c /\ cls_form c = Some f /\
    s = composite (@_forms_impl W form_instance)
          (builds (_FormWrap__new__
                     {| wraps := f; form_kwargs := snd (split_kwargs kw) |}) fs).
Proof.
  unfold from_form. destruct form as [c|v]; [|discriminate].
  destruct (cls_form c) as [f|] eqn:Hf.
  - destruct (split_kwargs kw) as [fs0 fk]. intros H.
    apply bind_Ok_inv in H as (blank & st1 & _ & H).
    apply bind_Ok_inv in H as (fs1 & st2 & _ & H).
    apply bind_Ok_inv in H as (fs2 & st3 & _ & H).
    injection H as <- <-. exists c, f, fs2. auto.
  - intros H. apply bind_Ok_inv in H as (? & ? & _ & H). discriminate.
Qed.

(** ** Which exceptions a computation can raise *)














(** ** Lazy strategies *)

Lemma wrapped_strategy_run {A : Type} (l : LazyStrategy W A) st :
  wrapped_strategy l st =
  match lazy_function l (lazy_args l) (lazy_kwargs l) st with
  | (Ok base, st1) =>
      if lazy_unwraps l
      then lazy_function l (lazy_args l) (lazy_kwargs l) st1
      else (Ok base, st1)
  | (Raise e, st1) => (Raise e, st1)
  end.
Proof.
  unfold wrapped_strategy, bind.
  destruct (lazy_function l (lazy_args l) (lazy_kwargs l) st) as [[base|e] st1];
    [destruct (lazy_unwraps l)|]; reflexivity.
Qed.

(** The first use of a lazy strategy raises what the function raises. *)
Lemma wrapped_strategy_Raise {A : Type} (l : LazyStrategy W A) st e st1 :
  lazy_function l (lazy_args l) (lazy_kwargs l) st = (Raise e, st1) ->
  wrapped_strategy l st = (Raise e, st1).
Proof. intros H. now rewrite wrapped_strategy_run, H. Qed.

(** The strategy kept is one that the function returned. *)
Lemma wrapped_strategy_Ok_inv {A : Type} (l : LazyStrategy W A) st s st1 :
  wrapped_strategy l st = (Ok s, st1) ->
  exists st0, lazy_function l (lazy_args l) (lazy_kwargs l) st0 = (Ok s, st1).
Proof.
  rewrite wrapped_strategy_run.
  destruct (lazy_function l (lazy_args l) (lazy_kwargs l) st)
    as [[base|e] st2] eqn:E; [|discriminate].
  destruct (lazy_unwraps l).
  - intros H. now exists st2.
  - intros H. injection H as <- <-. now exists st.
Qed.


Lemma do_draw_Raise {A : Type} (l : LazyStrategy W A) st e st1 :
  wrapped_strategy l st = (Raise e, st1) -> do_draw l st = (Raise e, st1).
Proof. intros H. unfold do_draw, bind. now rewrite H. Qed.

Lemma do_draw_Ok {A : Type} (l : LazyStrategy W A) st s st1 r w :
  wrapped_strategy l st = (Ok s, st1) ->
  s (world st1) = (r, w) ->
  do_draw l st = (r, {| world := w; trace := trace st1 |}).
Proof.
  intros H Hs. unfold do_draw, bind, lift_world. now rewrite H, Hs.
Qed.


(** Line 199 is outside any [try]: what the constructor of the form raises
    there, [from_form] raises. *)
Lemma from_form_blank_form_raises (c : pyclass W) f kw st e w1 :
  cls_form c = Some f ->
  form_init f (snd (split_kwargs kw)) (world st) = (Raise e, w1) ->
  from_form from_field (ClassObj c) kw st
  = (Raise e, {| world := w1; trace := trace st |}).
Proof.
  intros Hf Hi. unfold from_form. rewrite Hf.
  destruct (split_kwargs kw) as [fs0 fk]. simpl in Hi.
  unfold bind at 1. unfold lift_world. now rewrite Hi.
Qed.





(** C1 (as amended).  A draw through [_models_impl] in which the wrapped
    draw raises [IntegrityError] ends in the rejection that [reject()]
    raises, which the engine answers by discarding the example and drawing
    another; the same holds of [_forms_impl] and [ValidationError].  The
    strategy that the first use of [from_model(...)] builds is
    [_models_impl] around the construction of the row, the one of
    [from_form(...)] is [_forms_impl] around the construction of the form
    from the drawn values, so that both reject in this way, at the first
    draw and at every later one.  The blank form of line 199 is built
    outside the wrapper, when the strategy is first used: a
    [ValidationError] of the constructor there reaches the caller, and the
    engine reads it as a failure. *)
Theorem integrity_and_validation_errors_are_rejected :
  (forall (A B : Type) (strat : strategy W (A * B)) w w',
      strat w = (Raise IntegrityError, w') ->
      composite (@_models_impl W A B) strat w
      = (Raise UnsatisfiedAssumption, w') /\
      engine_verdict (fst (composite (@_models_impl W A B) strat w))
      = Resample)
  /\
  (forall (A : Type) (strat : strategy W A) w w',
      strat w = (Raise ValidationError, w') ->
      composite (@_forms_impl W A) strat w
      = (Raise UnsatisfiedAssumption, w') /\
      engine_verdict (fst (composite (@_forms_impl W A) strat w))
      = Resample)
  /\
  (forall unwraps model kw st s st1,
      wrapped_strategy (lazy_from_model from_field unwraps model kw) st
      = (Ok s, st1) ->
      exists c m target kwargs,
        model = ClassObj c /\ cls_model c = Some m /\
        (target = get_or_create m \/ target = update_or_create m) /\
        s = composite (@_models_impl W pyval bool) (builds target kwargs) /\
        (forall w w',
            builds target kwargs w = (Raise IntegrityError, w') ->
            s w = (Raise UnsatisfiedAssumption, w') /\
            engine_verdict (fst (s w)) = Resample) /\
        (forall w',
            builds target kwargs (world st1) = (Raise IntegrityError, w') ->
            do_draw (lazy_from_model from_field unwraps model kw) st
            = (Raise UnsatisfiedAssumption,
               {| world := w'; trace := trace st1 |}) /\
            engine_verdict
              (fst (do_draw (lazy_from_model from_field unwraps model kw) st))
            = Resample))
  /\
  (forall unwraps form kw st s st1,
      wrapped_strategy (lazy_from_form from_field unwraps form kw) st
      = (Ok s, st1) ->
      exists c f fs,
        let construct :=
          builds (_FormWrap__new__
                    {| wraps := f; form_kwargs := snd (split_kwargs kw) |}) fs in
        form = ClassObj c /\ cls_form c = Some f /\
        s = composite (@_forms_impl W form_instance) construct /\
        (forall w w',
            construct w = (Raise ValidationError, w') ->
            s w = (Raise UnsatisfiedAssumption, w') /\
            engine_verdict (fst (s w)) = Resample) /\
        (forall w',
            construct (world st1) = (Raise ValidationError, w') ->
            do_draw (lazy_from_form from_field unwraps form kw) st
            = (Raise UnsatisfiedAssumption,
               {| world := w'; trace := trace st1 |}) /\
            engine_verdict
              (fst (do_draw (lazy_from_form from_field unwraps form kw) st))
            = Resample))
  /\
  (forall unwraps (c : pyclass W) f kw st w1,
      cls_form c = Some f ->
      form_init f (snd (split_kwargs kw)) (world st)
      = (Raise ValidationError, w1) ->
      wrapped_strategy (lazy_from_form from_field unwraps (ClassObj c) kw) st
      = (Raise ValidationError, {| world := w1; trace := trace st |}) /\
      do_draw (lazy_from_form from_field unwraps (ClassObj c) kw) st
      = (Raise ValidationError, {| world := w1; trace := trace st |}) /\
      engine_verdict
        (fst (do_draw (lazy_from_form from_field unwraps (ClassObj c) kw) st))
      = Failure ValidationError).
Proof.
  split; [|split; [|split; [|split]]].
  - intros A B strat w w' H. rewrite models_impl_draw, H. auto.
  - intros A strat w w' H. rewrite forms_impl_draw, H. auto.
  - intros unwraps model kw st s st1 Hw.
    destruct (wrapped_strategy_Ok_inv _ _ Hw) as (st0 & H). simpl in H.
    destruct (from_model_shape _ _ _ H)
      as (c & m & target & kwargs & -> & Hm & Ht & ->).
    exists c, m, target, kwargs.
    split; [reflexivity|]. split; [exact Hm|]. split; [exact Ht|].
    split; [reflexivity|]. split.
    + intros w w' Hb. rewrite models_impl_draw, Hb. auto.
    + intros w' Hb.
      assert (Hd : do_draw (lazy_from_model from_field unwraps (ClassObj c) kw) st
                   = (Raise UnsatisfiedAssumption,
                      {| world := w'; trace := trace st1 |})).
      { eapply do_draw_Ok; [exact Hw|]. now rewrite models_impl_draw, Hb. }
      split; [exact Hd | now rewrite Hd].
  - intros unwraps form kw st s st1 Hw.
    destruct (wrapped_strategy_Ok_inv _ _ Hw) as (st0 & H). simpl in H.
    destruct (from_form_shape _ _ _ H) as (c & f & fs & -> & Hf & ->).
    exists c, f, fs. cbv zeta.
    split; [reflexivity|]. split; [exact Hf|]. split; [reflexivity|]. split.
    + intros w w' Hb. rewrite forms_impl_draw, Hb. auto.
    + intros w' Hb.
      assert (Hd : do_draw (lazy_from_form from_field unwraps (ClassObj c) kw) st
                   = (Raise UnsatisfiedAssumption,
                      {| world := w'; trace := trace st1 |})).
      { eapply do_draw_Ok; [exact Hw|]. now rewrite forms_impl_draw, Hb. }
      split; [exact Hd | now rewrite Hd].
  - intros unwraps c f kw st w1 Hf Hi.
    assert (Hw : wrapped_strategy
                   (lazy_from_form from_field unwraps (ClassObj c) kw) st
                 = (Raise ValidationError, {| world := w1; trace := trace st |})).
    { apply wrapped_strategy_Raise. simpl.
      now apply from_form_blank_form_raises with (f := f). }
    split; [exact Hw|].
    rewrite (do_draw_Raise _ _ Hw). auto.
Qed.


(** C5 (as amended).  A call of the decorated [from_model] or [from_form]
    raises nothing and touches nothing, whatever it is given: it returns a
    lazy strategy.  When that strategy is first used, a class that does
    not derive from [dm.Model] makes [from_model] raise [InvalidArgument]
    before any strategy is inferred or built and with nothing outside
    touched; a class that does not derive from [df.BaseForm] makes
    [from_form] raise [InvalidArgument] after printing the class's
    [__mro__] and nothing else; an argument that is not a class makes the
    [issubclass] check of either raise [TypeError].  The engine reads each
    of these as a failure, not as a request to resample. *)
Theorem class_of_wrong_kind_is_invalid_argument :
  (forall unwraps model kw st,
      defines_strategy (from_model from_field) unwraps model kw st
      = (Ok (lazy_from_model from_field unwraps model kw), st))
  /\
  (forall unwraps form kw st,
      defines_strategy (from_form from_field) unwraps form kw st
      = (Ok (lazy_from_form from_field unwraps form kw), st))
  /\
  (forall unwraps (c : pyclass W) kw st,
      cls_model c = None ->
      wrapped_strategy (lazy_from_model from_field unwraps (ClassObj c) kw) st
      = (Raise InvalidArgument, st) /\
      do_draw (lazy_from_model from_field unwraps (ClassObj c) kw) st
      = (Raise InvalidArgument, st) /\
      engine_verdict
        (fst (do_draw (lazy_from_model from_field unwraps (ClassObj c) kw) st))
      = Failure InvalidArgument)
  /\
  (forall unwraps (c : pyclass W) kw st,
      cls_form c = None ->
      wrapped_strategy (lazy_from_form from_field unwraps (ClassObj c) kw) st
      = (Raise InvalidArgument,
         {| world := world st; trace := trace st ++ [EvPrint (cls_mro c)] |}) /\
      do_draw (lazy_from_form from_field unwraps (ClassObj c) kw) st
      = (Raise InvalidArgument,
         {| world := world st; trace := trace st ++ [EvPrint (cls_mro c)] |}) /\
      engine_verdict
        (fst (do_draw (lazy_from_form from_field unwraps (ClassObj c) kw) st))
      = Failure InvalidArgument)
  /\
  (forall unwraps v kw st,
      wrapped_strategy (lazy_from_model from_field unwraps (NonClassObj v) kw) st
      = (Raise TypeError, st) /\
      do_draw (lazy_from_model from_field unwraps (NonClassObj v) kw) st
      = (Raise TypeError, st) /\
      engine_verdict
        (fst (do_draw (lazy_from_model from_field unwraps (NonClassObj v) kw) st))
      = Failure TypeError)
  /\
  (forall unwraps v kw st,
      wrapped_strategy (lazy_from_form from_field unwraps (NonClassObj v) kw) st
      = (Raise TypeError, st) /\
      do_draw (lazy_from_form from_field unwraps (NonClassObj v) kw) st
      = (Raise TypeError, st) /\
      engine_verdict
        (fst (do_draw (lazy_from_form from_field unwraps (NonClassObj v) kw) st))
      = Failure TypeError).
Proof.
  split; [reflexivity|]. split; [reflexivity|].
  split; [|split; [|split]].
  - intros unwraps c kw st Hc.
    assert (Hw : wrapped_strategy
                   (lazy_from_model from_field unwraps (ClassObj c) kw) st
                 = (Raise InvalidArgument, st)).
    { apply wrapped_strategy_Raise. simpl. unfold from_model. now rewrite Hc. }
    split; [exact Hw|]. rewrite (do_draw_Raise _ _ Hw). auto.
  - intros unwraps c kw st Hc.
    assert (Hw : wrapped_strategy
                   (lazy_from_form from_field unwraps (ClassObj c) kw) st
                 = (Raise InvalidArgument,
                    {| world := world st;
                       trace := trace st ++ [EvPrint (cls_mro c)] |})).
    { apply wrapped_strategy_Raise. simpl. unfold from_form. now rewrite Hc. }
    split; [exact Hw|]. rewrite (do_draw_Raise _ _ Hw). auto.
  - intros unwraps v kw st.
    assert (Hw : wrapped_strategy
                   (lazy_from_model from_field unwraps (NonClassObj v) kw) st
                 = (Raise TypeError, st)).
    { apply wrapped_strategy_Raise. reflexivity. }
    split; [exact Hw|]. rewrite (do_draw_Raise _ _ Hw). auto.
  - intros unwraps v kw st.
    assert (Hw : wrapped_strategy
                   (lazy_from_form from_field unwraps (NonClassObj v) kw) st
                 = (Raise TypeError, st)).
    { apply wrapped_strategy_Raise. reflexivity. }
    split; [exact Hw|]. rewrite (do_draw_Raise _ _ Hw). auto.
Qed.


(** C9.  A draw from a strategy that [from_model] returned gives a value
    exactly when the keyword values were drawn and the manager method
    ([get_or_create] or [update_or_create]) returned a pair (object,
    created) for them; the value drawn is the object, whatever the flag. *)
Theorem from_model_draws_the_instance model kw st s st' :
  from_model from_field model kw st = (Ok s, st') ->
  exists c m target kwargs,
    model = ClassObj c /\ cls_model c = Some m /\
    (target = get_or_create m \/ target = update_or_create m) /\
    s = composite (@_models_impl W pyval bool) (builds target kwargs) /\
    forall w obj w',
      s w = (Ok obj, w') <->
      exists vals w1 created,
        draw_kwargs kwargs w = (Ok vals, w1) /\
        target vals w1 = (Ok (obj, created), w').
Proof.
  intros H.
  destruct (from_model_shape _ _ _ H) as (c & m & target & kwargs & -> & Hm & Ht & ->).
  exists c, m, target, kwargs. repeat split; auto.
  - rewrite models_impl_draw.
    destruct (builds target kwargs w) as [[[o cr]|e] w1] eqn:Hb.
    + intros [= <- <-]. apply builds_Ok in Hb as (vals & w2 & Hd & Hc).
      now exists vals, w2, cr.
    + destruct e; discriminate.
  - intros (vals & w1 & created & Hd & Hc).
    rewrite models_impl_draw.
    assert (Hb : builds target kwargs w = (Ok (obj, created), w'))
      by (apply builds_Ok; eauto).
    now rewrite Hb.
Qed.


(** ** The keyword split of [from_form] *)

Lemma strategies_of_In (kw : Dict.t (pyarg W)) k a :
  In (k, a) (strategies_of kw) <->
  In (k, a) kw /\ isinstance_SearchStrategy a = true.
Proof. unfold strategies_of. now rewrite filter_In. Qed.

Lemma values_of_In (kw : Dict.t (pyarg W)) k v :
  In (k, v) (values_of kw) <-> In (k, Value v) kw.
Proof.
  unfold values_of. rewrite in_flat_map. split.
  - intros ([k' [s|v']] & Hin & H); simpl in H; [tauto|].
    destruct H as [[= -> ->]|[]]. exact Hin.
  - intros H. exists (k, Value v). simpl. auto.
Qed.

Lemma strategies_of_keys_incl (kw : Dict.t (pyarg W)) k :
  In k (Dict.keys (strategies_of kw)) -> In k (Dict.keys kw).
Proof.
  unfold Dict.keys. rewrite !in_map_iff.
  intros ([k' a] & <- & H). apply strategies_of_In in H as [H _].
  now exists (k', a).
Qed.

Lemma values_of_keys_incl (kw : Dict.t (pyarg W)) k :
  In k (Dict.keys (values_of kw)) -> In k (Dict.keys kw).
Proof.
  unfold Dict.keys. rewrite !in_map_iff.
  intros ([k' v] & <- & H). apply values_of_In in H.
  now exists (k', Value v).
Qed.

Lemma strategies_of_NoDup (kw : Dict.t (pyarg W)) :
  NoDup (Dict.keys kw) -> NoDup (Dict.keys (strategies_of kw)).
Proof.
  induction kw as [|[k a] kw IH]; simpl; [constructor|].
  intros Hnd. inversion Hnd as [|? ? Hni Hnd']; subst.
  destruct (isinstance_SearchStrategy a); simpl; auto.
  constructor; auto. intros Hin. apply Hni.
  now apply strategies_of_keys_incl.
Qed.

Lemma values_of_NoDup (kw : Dict.t (pyarg W)) :
  NoDup (Dict.keys kw) -> NoDup (Dict.keys (values_of kw)).
Proof.
  induction kw as [|[k a] kw IH]; simpl; [constructor|].
  intros Hnd. inversion Hnd as [|? ? Hni Hnd']; subst.
  destruct a as [s|v]; simpl; auto.
  constructor; auto. intros Hin. apply Hni.
  now apply (values_of_keys_incl kw).
Qed.

(** The loop of lines 193-197, started from any pair of dictionaries whose
    keys the keywords still to come do not use. *)
Lemma split_kwargs_from (kw : Dict.t (pyarg W)) :
  forall (fs : Dict.t (pyarg W)) (fk : Dict.t pyval),
    NoDup (Dict.keys kw) ->
    (forall k, In k (Dict.keys kw) ->
               ~ In k (Dict.keys fs) /\ ~ In k (Dict.keys fk)) ->
    fold_left
      (fun '(field_strategies, form_kwargs) '(k, v) =>
         match v with
         | Strategy _ => (Dict.set k v field_strategies, form_kwargs)
         | Value x => (field_strategies, Dict.set k x form_kwargs)
         end)
      kw (fs, fk)
    = (fs ++ strategies_of kw, fk ++ values_of kw).
Proof.
  induction kw as [|[k a] kw IH]; intros fs fk Hnd Hfresh; simpl.
  - now rewrite !app_nil_r.
  - inversion Hnd as [|? ? Hni Hnd']; subst.
    destruct (Hfresh k (or_introl eq_refl)) as [Hfs Hfk].
    destruct a as [s|v]; simpl.
    + rewrite dict_set_new by now apply dict_get_None.
      rewrite IH; auto.
      * now rewrite <- app_assoc.
      * intros k' Hk'. destruct (Hfresh k' (or_intror Hk')) as [H1 H2].
        split; auto. unfold Dict.keys. rewrite map_app, in_app_iff. simpl.
        intros [?|[->|[]]]; auto.
    + rewrite dict_set_new by now apply dict_get_None.
      rewrite IH; auto.
      * now rewrite <- app_assoc.
      * intros k' Hk'. destruct (Hfresh k' (or_intror Hk')) as [H1 H2].
        split; auto. unfold Dict.keys. rewrite map_app, in_app_iff. simpl.
        intros [?|[->|[]]]; auto.
Qed.

(** The loop computes the partition that the comment of line 190 names. *)
Lemma split_kwargs_spec (kw : Dict.t (pyarg W)) :
  NoDup (Dict.keys kw) ->
  split_kwargs kw = (strategies_of kw, values_of kw).
Proof.
  intros Hnd. unfold split_kwargs.
  rewrite (split_kwargs_from kw Dict.empty Dict.empty); auto.
Qed.

(** A loop whose body changes nothing changes nothing. *)
Lemma foreach_skip {S X A : Type} (xs : list X) (body : X -> A -> comp S A) :
  (forall x acc s, In x xs -> body x acc s = (Ok acc, s)) ->
  forall acc s, foreach xs body acc s = (Ok acc, s).
Proof.
  induction xs as [|x xs IH]; intros Hbody acc s; simpl; [reflexivity|].
  unfold bind. rewrite Hbody by now left.
  apply IH. intros. apply Hbody. now right.
Qed.

(** Lines 201-203 find no [infer] among strategies. *)
Lemma resolve_infer_of_strategies {F : Type} (wrap : F -> any_field)
    (fields_by_name : Dict.t F) (kw : Dict.t (pyarg W)) st :
  resolve_infer from_field wrap fields_by_name (strategies_of kw) st
  = (Ok (strategies_of kw), st).
Proof.
  unfold resolve_infer. apply foreach_skip.
  intros [name value] acc s Hin.
  apply dict_sorted_items_In, strategies_of_In in Hin as [_ Hs].
  destruct value; [reflexivity | discriminate].
Qed.


(** What [from_form] does with a form class, once the split and the loop
    of lines 201-203 are seen for what they are. *)
Lemma from_form_unfolded (c : pyclass W) f kw st :
  cls_form c = Some f ->
  NoDup (Dict.keys kw) ->
  from_form from_field (ClassObj c) kw st =
  (blank_form <- lift_world (form_init f (values_of kw)) ;;
   field_strategies <-
     infer_form_fields from_field (fields blank_form) (strategies_of kw) ;;
   ret (composite (@_forms_impl W form_instance)
          (builds (_FormWrap__new__
                     {| wraps := f; form_kwargs := values_of kw |})
             field_strategies))) st.
Proof.
  intros Hf Hnd. unfold from_form. rewrite Hf, split_kwargs_spec by assumption.
  destruct (lift_world (form_init f (values_of kw)) st)
    as [[blank|e] st1] eqn:E.
  - etransitivity; [|symmetry; eapply bind_Ok; exact E].
    erewrite bind_Ok by exact E.
    unfold bind at 1. now rewrite resolve_infer_of_strategies.
  - etransitivity; [|symmetry; eapply bind_Raise; exact E].
    eapply bind_Raise; exact E.
Qed.

(** C8.  A keyword argument of [from_form] is a field strategy exactly
    when it is an instance of [SearchStrategy]; every other one, [infer]
    included, is a keyword argument of the form's constructor; so the loop
    that resolves [infer] runs over strategies only, finds none to resolve
    and calls [from_field] for none. *)
Theorem from_form_splits_keywords (c : pyclass W) f kw :
  cls_form c = Some f ->
  NoDup (Dict.keys kw) ->
  split_kwargs kw = (strategies_of kw, values_of kw) /\
  (forall k a, Dict.get k (strategies_of kw) = Some a <->
               Dict.get k kw = Some a /\ isinstance_SearchStrategy a = true) /\
  (forall k v, Dict.get k (values_of kw) = Some v <->
               Dict.get k kw = Some (Value v)) /\
  (forall k, Dict.get k kw = Some (Value PyInfer) ->
             Dict.get k (values_of kw) = Some PyInfer /\
             Dict.get k (strategies_of kw) = None) /\
  (forall k a, Dict.get k (strategies_of kw) = Some a -> is_infer a = false) /\
  (forall (F : Type) (wrap : F -> any_field) (fields_by_name : Dict.t F) st,
      resolve_infer from_field wrap fields_by_name (strategies_of kw) st
      = (Ok (strategies_of kw), st)) /\
  (forall st,
      from_form from_field (ClassObj c) kw st =
      (blank_form <- lift_world (form_init f (values_of kw)) ;;
       field_strategies <-
         infer_form_fields from_field (fields blank_form) (strategies_of kw) ;;
       ret (composite (@_forms_impl W form_instance)
              (builds (_FormWrap__new__
                         {| wraps := f; form_kwargs := values_of kw |})
                 field_strategies))) st).
Proof.
  intros Hf Hnd.
  assert (Hs : forall k a, Dict.get k (strategies_of kw) = Some a <->
               Dict.get k kw = Some a /\ isinstance_SearchStrategy a = true).
  { intros k a. split.
    - intros H. apply dict_get_In, strategies_of_In in H as [Hin Hp].
      split; auto. now apply dict_In_get.
    - intros [H Hp]. apply dict_In_get; [now apply strategies_of_NoDup|].
      apply strategies_of_In. split; auto. now apply dict_get_In. }
  assert (Hv : forall k v, Dict.get k (values_of kw) = Some v <->
               Dict.get k kw = Some (Value v)).
  { intros k v. split.
    - intros H. apply dict_get_In, values_of_In in H. now apply dict_In_get.
    - intros H. apply dict_In_get; [now apply values_of_NoDup|].
      apply values_of_In. now apply dict_get_In. }
  split; [now apply split_kwargs_spec|].
  split; [exact Hs|].
  split; [exact Hv|].
  split.
  { intros k H. split; [now apply Hv|].
    destruct (Dict.get k (strategies_of kw)) as [a|] eqn:E; [|reflexivity].
    apply Hs in E as [E Hp]. rewrite E in H. now injection H as ->. }
  split.
  { intros k a H. apply Hs in H as [_ Hp]. now destruct a. }
  split.
  { intros. apply resolve_infer_of_strategies. }
  intros st. now apply from_form_unfolded.
Qed.

Lemma dict_mem_keys {U V : Type} (d1 : Dict.t U) (d2 : Dict.t V) k :
  Dict.keys d1 = Dict.keys d2 -> Dict.mem k d1 = Dict.mem k d2.
Proof.
  intros Hk. apply eq_true_iff_eq. now rewrite !dict_mem_true, Hk.
Qed.

Lemma validate_kwargs_keys (kwargs : Dict.t (pyarg W)) l :
  validate_kwargs kwargs = Ok l -> map fst l = Dict.keys kwargs.
Proof.
  revert l. induction kwargs as [|[k [s|v]] kwargs IH]; intros l; simpl.
  - now intros [= <-].
  - destruct (validate_kwargs kwargs) as [l'|e]; [|discriminate].
    intros [= <-]. simpl. f_equal. now apply IH.
  - discriminate.
Qed.

Lemma draw_all_keys (l : list (string * strategy W pyval)) :
  forall w vals w', draw_all l w = (Ok vals, w') -> Dict.keys vals = map fst l.
Proof.
  induction l as [|[k s] l IH]; intros w vals w'; simpl.
  - now intros [= <- _].
  - intros H. apply bind_Ok_inv in H as (v & w1 & _ & H).
    apply bind_Ok_inv in H as (vs & w2 & Hd & H).
    injection H as <- _. simpl. f_equal. eapply IH. exact Hd.
Qed.

(** The values drawn for [builds] come under the keys of the strategies,
    in their order. *)
Lemma draw_kwargs_keys (kwargs : Dict.t (pyarg W)) w vals w' :
  draw_kwargs kwargs w = (Ok vals, w') -> Dict.keys vals = Dict.keys kwargs.
Proof.
  unfold draw_kwargs.
  destruct (validate_kwargs kwargs) as [l|e] eqn:E; [|discriminate].
  intros H. rewrite (draw_all_keys _ _ H). now apply validate_kwargs_keys.
Qed.

(** What a call of the wrapped class does with the values drawn: the two
    collisions of keywords, then the constructor of the form. *)
Lemma FormWrap_new_call (f : form_class W) (fk vals : Dict.t pyval) w :
  _FormWrap__new__ {| wraps := f; form_kwargs := fk |} vals w =
  if Dict.mem "self" vals then (Raise TypeError, w)
  else if Dict.mem "data" fk then (Raise TypeError, w)
  else form_init f (("data", PyDict vals) :: fk) w.
Proof.
  unfold _FormWrap__new__. simpl.
  destruct (Dict.mem "self" vals); [reflexivity|].
  now destruct (Dict.mem "data" fk).
Qed.

(** A draw from [builds(_form, **field_strategies)], by the outcome of
    drawing the field values. *)
Lemma builds_FormWrap (f : form_class W) (fk : Dict.t pyval)
    (fs : Dict.t (pyarg W)) w :
  builds (_FormWrap__new__ {| wraps := f; form_kwargs := fk |}) fs w =
  match draw_kwargs fs w with
  | (Ok vals, w1) =>
      if Dict.mem "self" fs then (Raise TypeError, w1)
      else if Dict.mem "data" fk then (Raise TypeError, w1)
      else form_init f (("data", PyDict vals) :: fk) w1
  | (Raise e, w1) => (Raise e, w1)
  end.
Proof.
  unfold builds, bind.
  destruct (draw_kwargs fs w) as [[vals|e] w1] eqn:Hd; [|reflexivity].
  rewrite FormWrap_new_call.
  now rewrite (@dict_mem_keys _ _ vals fs "self" (draw_kwargs_keys _ _ Hd)).
Qed.

(** C10.  A draw from a strategy that [from_form] returned gives a form
    instance exactly when the field values were drawn and the constructor
    of the form, called with the dictionary of these values as the keyword
    [data] and with the keyword arguments of [from_form] that are not
    strategies as further keywords, returned that instance; the call
    reaches the constructor only when no field strategy is named [self]
    (the first parameter of [__new__]) and no other keyword is named
    [data]: with either, every draw that has its field values raises
    [TypeError]. *)
Theorem from_form_constructs_with_data form kw st s st' :
  NoDup (Dict.keys kw) ->
  from_form from_field form kw st = (Ok s, st') ->
  exists c f field_strategies,
    form = ClassObj c /\ cls_form c = Some f /\
    s = composite (@_forms_impl W form_instance)
          (builds (_FormWrap__new__
                     {| wraps := f; form_kwargs := values_of kw |})
             field_strategies) /\
    (forall w inst w',
      s w = (Ok inst, w') <->
      exists vals w1,
        draw_kwargs field_strategies w = (Ok vals, w1) /\
        Dict.mem "self" field_strategies = false /\
        Dict.mem "data" (values_of kw) = false /\
        form_init f (("data", PyDict vals) :: values_of kw) w1 = (Ok inst, w')) /\
    (forall w vals w1,
      draw_kwargs field_strategies w = (Ok vals, w1) ->
      Dict.mem "self" field_strategies = true \/
      Dict.mem "data" (values_of kw) = true ->
      s w = (Raise TypeError, w1)).
Proof.
  intros Hnd H.
  destruct (from_form_shape _ _ _ H) as (c & f & fs & -> & Hf & ->).
  rewrite split_kwargs_spec by assumption. simpl.
  exists c, f, fs.
  split; [reflexivity|]. split; [exact Hf|]. split; [reflexivity|].
  split.
  - intros w inst w'. rewrite forms_impl_draw, builds_FormWrap. split.
    + destruct (draw_kwargs fs w) as [[vals|e] w1] eqn:Hd.
      * destruct (Dict.mem "self" fs); [discriminate|].
        destruct (Dict.mem "data" (values_of kw)); [discriminate|].
        destruct (form_init f (("data", PyDict vals) :: values_of kw) w1)
          as [[i|e] w2] eqn:Hc.
        -- intros [= <- <-]. exists vals, w1. auto.
        -- destruct e; discriminate.
      * destruct e; discriminate.
    + intros (vals & w1 & Hd & Hself & Hdata & Hc).
      now rewrite Hd, Hself, Hdata, Hc.
  - intros w vals w1 Hd Hcoll.
    rewrite forms_impl_draw, builds_FormWrap, Hd.
    destruct (Dict.mem "self" fs); [reflexivity|].
    destruct Hcoll as [Hs|Hdata]; [discriminate|]. now rewrite Hdata.
Qed.


(** ** What building a strategy leaves behind *)

Lemma state_app_nil (st : state W) :
  {| world := world st; trace := trace st ++ [] |} = st.
Proof. destruct st. simpl. now rewrite app_nil_r. Qed.

Lemma traced_ret {A : Type} (a : A) : traced (W:=W) (ret a) (Ok a) [].
Proof. intros st. unfold ret. now rewrite state_app_nil. Qed.

Lemma traced_raise {A : Type} (e : exn) :
  traced (W:=W) (A:=A) (raise e) (Raise e) [].
Proof. intros st. unfold raise. now rewrite state_app_nil. Qed.

Lemma traced_log (e : event) : traced (W:=W) (log e) (Ok tt) [e].
Proof. intros st. reflexivity. Qed.

Lemma traced_bind_Ok {A B : Type} (c : comp (state W) A)
    (k : A -> comp (state W) B) a evs1 r evs2 :
  traced c (Ok a) evs1 -> traced (k a) r evs2 ->
  traced (bind c k) r (evs1 ++ evs2).
Proof.
  intros Hc Hk st. unfold bind. rewrite Hc, Hk. simpl.
  now rewrite app_assoc.
Qed.

Lemma traced_bind_Raise {A B : Type} (c : comp (state W) A)
    (k : A -> comp (state W) B) e evs :
  traced c (Raise e) evs -> traced (bind c k) (Raise e) evs.
Proof. intros Hc st. unfold bind. now rewrite Hc. Qed.

(** Sequencing keeps the form "a result and some events, from any state". *)
Lemma traced_bind_ex {A B : Type} (c : comp (state W) A)
    (k : A -> comp (state W) B) :
  (exists r evs, traced c r evs) ->
  (forall a, exists r evs, traced (k a) r evs) ->
  exists r evs, traced (bind c k) r evs.
Proof.
  intros ([a|e] & evs1 & Hc) Hk.
  - destruct (Hk a) as (r & evs2 & Hka).
    exists r, (evs1 ++ evs2). eapply traced_bind_Ok; eauto.
  - exists (Raise e), evs1. now apply traced_bind_Raise.
Qed.

Lemma traced_foreach_ex {X A : Type} (xs : list X)
    (body : X -> A -> comp (state W) A) :
  (forall x acc, exists r evs, traced (body x acc) r evs) ->
  forall acc, exists r evs, traced (foreach xs body acc) r evs.
Proof.
  intros Hbody. induction xs as [|x xs IH]; intros acc; simpl.
  - exists (Ok acc), []. apply traced_ret.
  - apply traced_bind_ex; auto.
Qed.

Lemma traced_call_from_field name f :
  exists r evs, traced (call_from_field from_field name f) r evs.
Proof.
  unfold call_from_field. apply traced_bind_ex.
  - exists (Ok tt), [EvFromField name f]. apply traced_log.
  - intros _. destruct (from_field f) as [s|e].
    + exists (Ok s), []. apply traced_ret.
    + exists (Raise e), []. apply traced_raise.
Qed.

Lemma traced_call_from_field_Ok name f s :
  from_field f = Ok s ->
  traced (call_from_field from_field name f) (Ok s) [EvFromField name f].
Proof.
  intros H. unfold call_from_field. rewrite H.
  change [EvFromField name f] with ([EvFromField name f] ++ []).
  eapply traced_bind_Ok; [apply traced_log | apply traced_ret].
Qed.

Lemma traced_getitem {V : Type} (d : Dict.t V) k :
  exists r evs, traced (W:=W) (getitem d k) r evs.
Proof.
  unfold getitem. destruct (Dict.get k d) as [v|].
  - exists (Ok v), []. apply traced_ret.
  - exists (Raise KeyError), []. apply traced_raise.
Qed.

Lemma traced_resolve_infer {F : Type} (wrap : F -> any_field)
    (fields_by_name : Dict.t F) kw :
  exists r evs, traced (resolve_infer from_field wrap fields_by_name kw) r evs.
Proof.
  unfold resolve_infer. apply traced_foreach_ex.
  intros [name value] acc. destruct (is_infer value).
  - apply traced_bind_ex; [apply traced_getitem|]. intros f.
    apply traced_bind_ex; [apply traced_call_from_field|]. intros s.
    eexists _, _. apply traced_ret.
  - eexists _, _. apply traced_ret.
Qed.

Lemma traced_infer_model_fields fields_by_name kw :
  exists r evs, traced (infer_model_fields from_field fields_by_name kw) r evs.
Proof.
  unfold infer_model_fields. apply traced_foreach_ex.
  intros [name field] acc.
  destruct (negb (Dict.mem name acc) && negb (auto_created field)
            && is_NOT_PROVIDED (default field)).
  - apply traced_bind_ex; [apply traced_call_from_field|]. intros s.
    eexists _, _. apply traced_ret.
  - eexists _, _. apply traced_ret.
Qed.

Lemma traced_infer_form_fields fields_by_name kw :
  exists r evs, traced (infer_form_fields from_field fields_by_name kw) r evs.
Proof.
  unfold infer_form_fields. apply traced_foreach_ex.
  intros [name field] acc.
  destruct (negb (Dict.mem name acc) && negb (disabled field)).
  - apply traced_bind_ex; [apply traced_call_from_field|]. intros s.
    eexists _, _. apply traced_ret.
  - eexists _, _. apply traced_ret.
Qed.

Lemma traced_find_primary_key (m : model_class W) names :
  exists r, traced (W:=W) (find_primary_key m names) r [].
Proof.
  induction names as [|n names IH]; simpl.
  - eexists. apply traced_ret.
  - destruct (get_field m n) as [f|].
    + destruct (primary_key f); [eexists; apply traced_ret | exact IH].
    + eexists. apply traced_raise.
Qed.

(** [from_model] has a result and a list of calls to [from_field] that
    depend on its arguments only, and it touches nothing of the world. *)
Lemma traced_from_model model kw :
  exists r evs, traced (from_model from_field model kw) r evs.
Proof.
  unfold from_model. destruct model as [c|v].
  2: { eexists _, _. apply traced_raise. }
  destruct (cls_model c) as [m|].
  2: { eexists _, _. apply traced_raise. }
  apply traced_bind_ex; [apply traced_resolve_infer|]. intros fs1.
  apply traced_bind_ex; [apply traced_infer_model_fields|]. intros fs2.
  apply traced_bind_ex.
  { destruct (traced_find_primary_key m (Dict.keys fs2)) as (r & Hr). eauto. }
  intros [field|].
  - destruct (Dict.pop field fs2) as [[v rest]|].
    + eexists _, _. apply traced_ret.
    + eexists _, _. apply traced_raise.
  - eexists _, _. apply traced_ret.
Qed.


(** What [from_form] does after the blank form is there has a result and
    a list of calls to [from_field] that depend on the blank form and the
    keywords only. *)
Lemma traced_from_form_rest (f : form_class W) fs0 fk (blank_form : form_instance) :
  exists r evs,
    traced
      (field_strategies <-
         resolve_infer from_field FormField (fields blank_form) fs0 ;;
       field_strategies <-
         infer_form_fields from_field (fields blank_form) field_strategies ;;
       ret (composite (@_forms_impl W form_instance)
              (builds (_FormWrap__new__ {| wraps := f; form_kwargs := fk |})
                 field_strategies)))
      r evs.
Proof.
  apply traced_bind_ex; [apply traced_resolve_infer|]. intros fs1.
  apply traced_bind_ex; [apply traced_infer_form_fields|]. intros fs2.
  eexists _, _. apply traced_ret.
Qed.

(** [from_form] looks at the state through the constructor of the form
    and through nothing else. *)
Lemma from_form_through_constructor (c : pyclass W) f kw st1 st2 blank w1 w2 :
  cls_form c = Some f ->
  form_init f (snd (split_kwargs kw)) (world st1) = (blank, w1) ->
  form_init f (snd (split_kwargs kw)) (world st2) = (blank, w2) ->
  exists r evs,
    from_form from_field (ClassObj c) kw st1
    = (r, {| world := w1; trace := trace st1 ++ evs |}) /\
    from_form from_field (ClassObj c) kw st2
    = (r, {| world := w2; trace := trace st2 ++ evs |}).
Proof.
  intros Hf H1 H2. unfold from_form. rewrite Hf.
  destruct (split_kwargs kw) as [fs0 fk]. simpl in H1, H2.
  unfold bind at 1 4. unfold lift_world. rewrite H1, H2.
  destruct blank as [b|e].
  - destruct (traced_from_form_rest f fs0 fk b) as (r & evs & Hr).
    exists r, evs. now rewrite !Hr.
  - exists (Raise e), []. now rewrite !app_nil_r.
Qed.

Lemma traced_from_form_not_a_form form kw :
  (forall c, form = ClassObj c -> cls_form c = None) ->
  exists r evs, traced (from_form from_field form kw) r evs.
Proof.
  intros Hform. unfold from_form. destruct form as [c|v].
  - rewrite (Hform c eq_refl).
    exists (Raise InvalidArgument), [EvPrint (cls_mro c)].
    rewrite <- (app_nil_r [EvPrint (cls_mro c)]).
    eapply traced_bind_Ok; [apply traced_log | apply traced_raise].
  - eexists _, _. apply traced_raise.
Qed.

(** The result of [from_form] and the world it leaves depend on the world
    it starts in only. *)
Lemma from_form_world_only form kw st1 st2 :
  world st1 = world st2 ->
  fst (from_form from_field form kw st1) = fst (from_form from_field form kw st2)
  /\ world (snd (from_form from_field form kw st1))
     = world (snd (from_form from_field form kw st2)).
Proof.
  intros Hw.
  destruct form as [c|v]; [destruct (cls_form c) as [f|] eqn:Hf|].
  - destruct (form_init f (snd (split_kwargs kw)) (world st1))
      as [blank w1] eqn:H1.
    assert (H2 := H1). rewrite Hw in H2.
    destruct (from_form_through_constructor c kw st1 st2 Hf H1 H2)
      as (r & evs & -> & ->). auto.
  - destruct (@traced_from_form_not_a_form (ClassObj c) kw) as (r & evs & Hr).
    { now intros c' [= <-]. }
    rewrite !Hr. auto.
  - destruct (@traced_from_form_not_a_form (NonClassObj v) kw) as (r & evs & Hr).
    { discriminate. }
    rewrite !Hr. auto.
Qed.

(** C7 (as amended).  A call of the decorated [from_model] or [from_form]
    reads nothing of the state and changes nothing of it: it returns the
    lazy strategy of its arguments, so that no call, of either function,
    changes what a later call returns, and two calls with the same
    arguments return the same lazy strategy.  When the strategy is first
    used, [from_model] returns a result and calls [from_field] in a way
    that depend on its arguments only, and leaves the world as it found
    it; [from_form] calls the constructor of the form (line 199) and goes
    on in a way that depends on the blank form only, so that it reads and
    changes the world through that constructor and through nothing else:
    its result depends on the world it starts in and on nothing that the
    module did before.  So the strategy that [from_model(...)] builds is
    the same whenever it is first used, and the one that [from_form(...)]
    builds is the same from the same world. *)
Theorem from_model_and_from_form_keep_no_state :
  (forall unwraps model kw st,
      defines_strategy (from_model from_field) unwraps model kw st
      = (Ok (lazy_from_model from_field unwraps model kw), st))
  /\
  (forall unwraps form kw st,
      defines_strategy (from_form from_field) unwraps form kw st
      = (Ok (lazy_from_form from_field unwraps form kw), st))
  /\
  (forall u1 x1 kw1 u2 x2 kw2 st,
      defines_strategy (from_model from_field) u2 x2 kw2
        (snd (defines_strategy (from_model from_field) u1 x1 kw1 st))
      = defines_strategy (from_model from_field) u2 x2 kw2 st)
  /\
  (forall u1 x1 kw1 u2 x2 kw2 st,
      defines_strategy (from_model from_field) u2 x2 kw2
        (snd (defines_strategy (from_form from_field) u1 x1 kw1 st))
      = defines_strategy (from_model from_field) u2 x2 kw2 st)
  /\
  (forall u1 x1 kw1 u2 x2 kw2 st,
      defines_strategy (from_form from_field) u2 x2 kw2
        (snd (defines_strategy (from_model from_field) u1 x1 kw1 st))
      = defines_strategy (from_form from_field) u2 x2 kw2 st)
  /\
  (forall u1 x1 kw1 u2 x2 kw2 st,
      defines_strategy (from_form from_field) u2 x2 kw2
        (snd (defines_strategy (from_form from_field) u1 x1 kw1 st))
      = defines_strategy (from_form from_field) u2 x2 kw2 st)
  /\
  (forall model kw, exists r evs, forall st,
      from_model from_field model kw st
      = (r, {| world := world st; trace := trace st ++ evs |}))
  /\
  (forall (c : pyclass W) f kw,
      cls_form c = Some f ->
      (forall st,
          from_form from_field (ClassObj c) kw st
          = (blank_form <-
               lift_world (form_init f (snd (split_kwargs kw))) ;;
             field_strategies <-
               resolve_infer from_field FormField (fields blank_form)
                 (fst (split_kwargs kw)) ;;
             field_strategies <-
               infer_form_fields from_field (fields blank_form)
                 field_strategies ;;
             ret (composite (@_forms_impl W form_instance)
                    (builds
                       (_FormWrap__new__
                          {| wraps := f;
                             form_kwargs := snd (split_kwargs kw) |})
                       field_strategies))) st) /\
      (forall blank_form : form_instance, exists r evs,
          traced
            (field_strategies <-
               resolve_infer from_field FormField (fields blank_form)
                 (fst (split_kwargs kw)) ;;
             field_strategies <-
               infer_form_fields from_field (fields blank_form)
                 field_strategies ;;
             ret (composite (@_forms_impl W form_instance)
                    (builds
                       (_FormWrap__new__
                          {| wraps := f;
                             form_kwargs := snd (split_kwargs kw) |})
                       field_strategies)))
            r evs))
  /\
  (forall form kw,
      (forall c, form = ClassObj c -> cls_form c = None) ->
      exists r evs, forall st,
        from_form from_field form kw st
        = (r, {| world := world st; trace := trace st ++ evs |}))
  /\
  (forall form kw st1 st2,
      world st1 = world st2 ->
      fst (from_form from_field form kw st1)
      = fst (from_form from_field form kw st2) /\
      world (snd (from_form from_field form kw st1))
      = world (snd (from_form from_field form kw st2)))
  /\
  (forall model kw st st',
      fst (from_model from_field model kw st)
      = fst (from_model from_field model kw st'))
  /\
  (forall model kw form kw' st,
      fst (from_model from_field model kw
             (snd (from_form from_field form kw' st)))
      = fst (from_model from_field model kw st))
  /\
  (forall model kw form kw' st,
      fst (from_form from_field form kw'
             (snd (from_model from_field model kw st)))
      = fst (from_form from_field form kw' st))
  /\
  (forall unwraps model kw st st',
      fst (wrapped_strategy (lazy_from_model from_field unwraps model kw) st)
      = fst (wrapped_strategy (lazy_from_model from_field unwraps model kw) st'))
  /\
  (forall unwraps form kw st1 st2,
      world st1 = world st2 ->
      fst (wrapped_strategy (lazy_from_form from_field unwraps form kw) st1)
      = fst (wrapped_strategy (lazy_from_form from_field unwraps form kw) st2)).
Proof.
  split; [reflexivity|]. split; [reflexivity|].
  split; [reflexivity|]. split; [reflexivity|].
  split; [reflexivity|]. split; [reflexivity|].
  split; [exact traced_from_model|].
  split.
  { intros c f kw Hf. split.
    - intros st. unfold from_form. rewrite Hf.
      now destruct (split_kwargs kw).
    - intros blank_form. apply traced_from_form_rest. }
  split; [exact traced_from_form_not_a_form|].
  split; [exact from_form_world_only|].
  assert (Hm : forall model kw st st',
             fst (from_model from_field model kw st)
             = fst (from_model from_field model kw st')).
  { intros model kw st st'.
    destruct (traced_from_model model kw) as (r & evs & Hr). now rewrite !Hr. }
  split; [exact Hm|].
  split; [intros; apply Hm|].
  split.
  { intros model kw form kw' st. apply from_form_world_only.
    destruct (traced_from_model model kw) as (r & evs & Hr). now rewrite Hr. }
  split.
  - intros unwraps model kw st st'.
    destruct (traced_from_model model kw) as (r & evs & Hr).
    rewrite !wrapped_strategy_run. unfold lazy_from_model. simpl.
    rewrite (Hr st), (Hr st').
    destruct r as [base|e]; [|reflexivity].
    destruct unwraps; [|reflexivity]. now rewrite !Hr.
  - intros unwraps form kw st1 st2 Hw.
    rewrite !wrapped_strategy_run. unfold lazy_from_form. simpl.
    destruct (from_form_world_only form kw st1 st2 Hw) as [Hr Hw'].
    destruct (from_form from_field form kw st1) as [[b1|e1] s1];
      destruct (from_form from_field form kw st2) as [[b2|e2] s2];
      simpl in Hr, Hw'; try discriminate.
    + destruct unwraps; [|now rewrite Hr].
      now apply from_form_world_only.
    + exact Hr.
Qed.


(** ** The loops of lines 96-106 and 201-209 *)

Lemma dict_keys_set_In {V : Type} (d : Dict.t V) k0 v k :
  In k (Dict.keys (Dict.set k0 v d)) <-> k = k0 \/ In k (Dict.keys d).
Proof.
  rewrite <- !dict_mem_true, dict_mem_set, orb_true_iff, String.eqb_eq.
  reflexivity.
Qed.

Lemma is_infer_true (a : pyarg W) : is_infer a = true <-> a = Value PyInfer.
Proof.
  split; [|now intros ->].
  destruct a as [s|[]]; simpl; intros H; try discriminate. reflexivity.
Qed.

(** Line 96 on fields of distinct names: every field under its name, in
    the order of [concrete_fields]. *)
Lemma fields_by_name_from (fs : list model_field) :
  forall acc : Dict.t model_field,
    NoDup (map mf_name fs) ->
    (forall f, In f fs -> ~ In (mf_name f) (Dict.keys acc)) ->
    fold_left (fun d f => Dict.set (mf_name f) f d) fs acc
    = acc ++ map (fun f => (mf_name f, f)) fs.
Proof.
  induction fs as [|f fs IH]; intros acc Hnd Hfresh; simpl.
  - now rewrite app_nil_r.
  - inversion Hnd as [|? ? Hni Hnd']; subst.
    rewrite dict_set_new by (apply dict_get_None, Hfresh; now left).
    rewrite IH; auto.
    + now rewrite <- app_assoc.
    + intros g Hg. unfold Dict.keys. rewrite map_app, in_app_iff. simpl.
      intros [H|[H|[]]].
      * revert H. apply Hfresh. now right.
      * apply Hni. rewrite H. now apply in_map.
Qed.

Lemma fields_by_name_of_spec (fs : list model_field) :
  NoDup (map mf_name fs) ->
  fields_by_name_of fs = map (fun f => (mf_name f, f)) fs.
Proof.
  intros Hnd. unfold fields_by_name_of.
  now rewrite fields_by_name_from.
Qed.

Lemma fields_by_name_of_keys (fs : list model_field) :
  NoDup (map mf_name fs) ->
  Dict.keys (fields_by_name_of fs) = map mf_name fs.
Proof.
  intros Hnd. rewrite fields_by_name_of_spec by assumption.
  unfold Dict.keys. rewrite map_map. reflexivity.
Qed.

Lemma fields_by_name_of_In (fs : list model_field) name f :
  NoDup (map mf_name fs) ->
  In (name, f) (fields_by_name_of fs) <-> In f fs /\ mf_name f = name.
Proof.
  intros Hnd. rewrite fields_by_name_of_spec by assumption.
  rewrite in_map_iff. split.
  - intros (g & [= <- <-] & Hg). auto.
  - intros [Hf <-]. eauto.
Qed.

Lemma fields_by_name_of_get (fs : list model_field) name f :
  NoDup (map mf_name fs) ->
  Dict.get name (fields_by_name_of fs) = Some f <-> In f fs /\ mf_name f = name.
Proof.
  intros Hnd. rewrite <- fields_by_name_of_In by assumption. split.
  - apply dict_get_In.
  - apply dict_In_get. now rewrite fields_by_name_of_keys.
Qed.

Lemma foreach_ext {S X A : Type} (xs : list X) (body1 body2 : X -> A -> comp S A) :
  (forall x acc s, body1 x acc s = body2 x acc s) ->
  forall acc s, foreach xs body1 acc s = foreach xs body2 acc s.
Proof.
  intros Hext. induction xs as [|x xs IH]; intros acc s; simpl; [reflexivity|].
  unfold bind. rewrite Hext.
  destruct (body2 x acc s) as [[a|e] s']; auto.
Qed.





Lemma model_test_true (f : model_field) :
  negb (auto_created f) && is_NOT_PROVIDED (default f) = true <->
  auto_created f = false /\ default f = None.
Proof.
  rewrite andb_true_iff, negb_true_iff.
  destruct (default f); simpl; intuition congruence.
Qed.

Lemma dict_sorted_items_inv {V : Type} (d : Dict.t V) x :
  In x (Dict.sorted_items d) -> In x d.
Proof. apply dict_sorted_items_In. Qed.

Lemma dict_sorted_items_intro {V : Type} (d : Dict.t V) x :
  In x d -> In x (Dict.sorted_items d).
Proof. apply dict_sorted_items_In. Qed.



(** ** The primary key *)

Lemma bind_assoc {S A B C : Type} (c : comp S A) (k : A -> comp S B)
    (h : B -> comp S C) s :
  bind (bind c k) h s = bind c (fun a => bind (k a) h) s.
Proof. unfold bind. destruct (c s) as [[a|e] s1]; reflexivity. Qed.

(** [from_model] on a model class: lines 96-106, then lines 108-120. *)
Lemma from_model_unfolded (c : pyclass W) m kw st :
  cls_model c = Some m ->
  from_model from_field (ClassObj c) kw st
  = (fs <- resolved_fields from_field m kw ;; dispatch_on_primary_key m fs) st.
Proof.
  intros Hm. unfold from_model, resolved_fields. rewrite Hm.
  now rewrite bind_assoc.
Qed.



Lemma find_primary_key_none {S : Type} (m : model_class W) names (s : S) :
  (forall n, In n names -> not_primary_key m n) ->
  find_primary_key m names s = (Ok None, s).
Proof.
  induction names as [|n names IH]; intros Hall; simpl; [reflexivity|].
  destruct (Hall n (or_introl eq_refl)) as (g & Hg & Hnpk).
  rewrite Hg, Hnpk. apply IH. intros. apply Hall. now right.
Qed.

Lemma dict_pop_key {V : Type} (d : Dict.t V) k :
  In k (Dict.keys d) ->
  exists v, Dict.get k d = Some v /\ Dict.pop k d = Some (v, Dict.remove k d).
Proof.
  intros Hin. unfold Dict.pop. destruct (Dict.get k d) as [v|] eqn:E.
  - now exists v.
  - apply dict_get_None in E. contradiction.
Qed.


Lemma dispatch_get_or_create (m : model_class W) fs :
  (forall s : state W, find_primary_key m (Dict.keys fs) s = (Ok None, s)) ->
  traced (dispatch_on_primary_key m fs)
    (Ok (composite (@_models_impl W pyval bool)
           (builds (get_or_create m) fs)))
    [].
Proof.
  intros Hfind st. unfold dispatch_on_primary_key, bind.
  rewrite Hfind. unfold ret. now rewrite state_app_nil.
Qed.

Lemma from_model_traced_via (c : pyclass W) m kw fs evs r :
  cls_model c = Some m ->
  traced (resolved_fields from_field m kw) (Ok fs) evs ->
  traced (dispatch_on_primary_key m fs) r [] ->
  traced (from_model from_field (ClassObj c) kw) r evs.
Proof.
  intros Hm Hres Hdis st. erewrite from_model_unfolded by exact Hm.
  rewrite <- (app_nil_r evs).
  exact (traced_bind_Ok (dispatch_on_primary_key m) Hres Hdis st).
Qed.




(** Lines 108-109 have one outcome whatever the state, and it is not an
    exception when [get_field] knows every name. *)
Lemma find_primary_key_result {S : Type} (m : model_class W) names :
  exists r,
    (forall s : S, find_primary_key m names s = (r, s)) /\
    ((forall n, In n names -> get_field m n <> None) ->
     exists pk, r = Ok pk /\ forall p, pk = Some p -> In p names).
Proof.
  induction names as [|n names IH]; simpl.
  - exists (Ok None). split; [reflexivity|]. intros _.
    exists None. split; [reflexivity | discriminate].
  - destruct (get_field m n) as [f|] eqn:Hf.
    + destruct (primary_key f).
      * exists (Ok (Some n)). split; [reflexivity|]. intros _.
        exists (Some n). split; [reflexivity|]. intros p [= <-]. now left.
      * destruct IH as (r & Hr & Hknown). exists r. split; [exact Hr|].
        intros H. destruct Hknown as (pk & -> & Hin).
        { intros. apply H. now right. }
        exists pk. split; [reflexivity|]. intros p Hp. right. now apply Hin.
    + exists (Raise FieldDoesNotExist). split; [reflexivity|].
      intros H. exfalso. apply (H n); [now left | exact Hf].
Qed.

(** Lines 108-120 log nothing, and return a strategy when [get_field]
    knows every name. *)
Lemma dispatch_result (m : model_class W) fs :
  exists r,
    traced (dispatch_on_primary_key m fs) r [] /\
    ((forall n, In n (Dict.keys fs) -> get_field m n <> None) ->
     exists s, r = Ok s).
Proof.
  destruct (@find_primary_key_result (state W) m (Dict.keys fs))
    as ([[pk|]|e] & Hfind & Hknown).
  - destruct (Dict.pop pk fs) as [[v rest]|] eqn:Hpop.
    + eexists. split; [|intros _; eexists; reflexivity].
      intros st. unfold dispatch_on_primary_key, bind.
      rewrite Hfind, Hpop. unfold ret. now rewrite state_app_nil.
    + exists (Raise KeyError). split.
      * intros st. unfold dispatch_on_primary_key, bind.
        rewrite Hfind, Hpop. unfold raise. now rewrite state_app_nil.
      * intros H. destruct (Hknown H) as (pk' & [= <-] & Hin).
        destruct (dict_pop_key fs pk (Hin pk eq_refl)) as (v & _ & Hv).
        congruence.
  - eexists. split; [|intros _; eexists; reflexivity].
    now apply dispatch_get_or_create.
  - exists (Raise e). split.
    + intros st. unfold dispatch_on_primary_key, bind.
      rewrite Hfind. now rewrite state_app_nil.
    + intros H. destruct (Hknown H) as (pk' & [=] & _).
Qed.

(** ** What the loops compute, exactly *)

Lemma traced_bind_ret {A B : Type} (a : A) (k : A -> comp (state W) B) r evs :
  traced (k a) r evs -> traced (bind (ret a) k) r evs.
Proof. intros H st. unfold bind, ret. apply H. Qed.

Lemma strategy_for_Ok (f : any_field) s :
  from_field f = Ok s -> strategy_for from_field f = s.
Proof. unfold strategy_for. now intros ->. Qed.

(** Lines 100-106 and 204-209 as a closed form: the fields that pass the
    test are appended in the order of the loop, each with the strategy
    that [from_field] returns for it, and [from_field] is called for them
    in that order. *)
Lemma infer_loop_exact {F : Type} (wrap : F -> any_field) (cond : F -> bool)
    (kw : Dict.t (pyarg W)) (items : list (string * F)) :
  forall field_strategies : Dict.t (pyarg W),
    NoDup (map fst items) ->
    (forall name, In name (map fst items) ->
                  Dict.mem name field_strategies = Dict.mem name kw) ->
    (forall name field, In (name, field) items ->
       Dict.mem name kw = false -> cond field = true ->
       exists s, from_field (wrap field) = Ok s) ->
    traced
      (foreach items
         (fun '(name, field) field_strategies =>
            if negb (Dict.mem name field_strategies) && cond field then
              s <- call_from_field from_field name (wrap field) ;;
              ret (Dict.set name (Strategy s) field_strategies)
            else ret field_strategies)
         field_strategies)
      (Ok (field_strategies
           ++ map (inferred_entry from_field wrap)
                (filter (fun item => negb (Dict.mem (fst item) kw)
                                     && cond (snd item)) items)))
      (map (inferred_event wrap)
         (filter (fun item => negb (Dict.mem (fst item) kw)
                              && cond (snd item)) items)).
Proof.
  induction items as [|[name field] items IH]; intros fs Hnd Hmem Hok; simpl.
  - rewrite app_nil_r. apply traced_ret.
  - inversion Hnd as [|? ? Hni Hnd']; subst.
    rewrite (Hmem name (or_introl eq_refl)).
    destruct (negb (Dict.mem name kw) && cond field) eqn:Hc; simpl.
    + apply andb_true_iff in Hc as [Hm Hcond]. apply negb_true_iff in Hm.
      destruct (Hok name field (or_introl eq_refl) Hm Hcond) as (s & Hs).
      assert (Hnew : Dict.get name fs = None).
      { specialize (Hmem name (or_introl eq_refl)). rewrite Hm in Hmem.
        unfold Dict.mem in Hmem. now destruct (Dict.get name fs). }
      change (inferred_event wrap (name, field)
              :: map (inferred_event wrap)
                   (filter (fun item => negb (Dict.mem (fst item) kw)
                                        && cond (snd item)) items))
        with ([EvFromField name (wrap field)]
              ++ map (inferred_event wrap)
                   (filter (fun item => negb (Dict.mem (fst item) kw)
                                        && cond (snd item)) items)).
      eapply traced_bind_Ok.
      * rewrite <- (app_nil_r [EvFromField name (wrap field)]).
        eapply traced_bind_Ok; [apply traced_call_from_field_Ok; exact Hs|].
        apply traced_ret.
      * rewrite dict_set_new by exact Hnew.
        unfold inferred_entry at 1. simpl.
        rewrite (strategy_for_Ok Hs).
        replace (fs ++ (name, Strategy s)
                       :: map (inferred_entry from_field wrap)
                            (filter (fun item => negb (Dict.mem (fst item) kw)
                                                 && cond (snd item)) items))
          with ((fs ++ [(name, Strategy s)])
                ++ map (inferred_entry from_field wrap)
                     (filter (fun item => negb (Dict.mem (fst item) kw)
                                          && cond (snd item)) items))
          by (now rewrite <- app_assoc).
        apply IH; [exact Hnd' | | ].
        -- intros n Hn. rewrite <- (@dict_set_new _ name (Strategy s) fs Hnew), dict_mem_set.
           destruct (String.eqb n name) eqn:E.
           ++ apply String.eqb_eq in E. subst n. contradiction.
           ++ simpl. apply Hmem. now right.
        -- intros n g Hin. apply Hok. now right.
    + apply traced_bind_ret.
      apply IH; [exact Hnd' | | ].
      * intros n Hn. apply Hmem. now right.
      * intros n g Hin. apply Hok. now right.
Qed.


(** Two dictionaries with the same keys in the same order and the same
    value under every key are the same. *)
Lemma dict_ext {V : Type} (d1 : Dict.t V) :
  forall d2 : Dict.t V,
    Dict.keys d1 = Dict.keys d2 ->
    NoDup (Dict.keys d1) ->
    (forall k, Dict.get k d1 = Dict.get k d2) ->
    d1 = d2.
Proof.
  induction d1 as [|[k1 v1] d1 IH]; intros [|[k2 v2] d2] Hk Hnd Hget;
    simpl in Hk; try discriminate; [reflexivity|].
  injection Hk as <- Hk. inversion Hnd as [|? ? Hni Hnd']; subst.
  assert (Hv : v1 = v2).
  { specialize (Hget k1). simpl in Hget. rewrite String.eqb_refl in Hget.
    now injection Hget. }
  subst v2. f_equal. apply IH; auto.
  intros k. specialize (Hget k). simpl in Hget.
  destruct (String.eqb k k1) eqn:E; [|exact Hget].
  apply String.eqb_eq in E. subst k.
  assert (H1 : Dict.get k1 d1 = None) by now apply dict_get_None.
  assert (H2 : Dict.get k1 d2 = None)
    by (apply dict_get_None; now rewrite <- Hk).
  now rewrite H1, H2.
Qed.

(** Sorting the items changes no lookup. *)
Lemma dict_get_sorted_items {V : Type} (d : Dict.t V) k :
  NoDup (Dict.keys d) -> Dict.get k (Dict.sorted_items d) = Dict.get k d.
Proof.
  intros Hnd. destruct (Dict.get k d) as [v|] eqn:E.
  - apply dict_In_get; [now apply dict_sorted_items_NoDup|].
    apply dict_sorted_items_intro. now apply dict_get_In.
  - apply dict_get_None. apply dict_get_None in E. intros H. apply E.
    unfold Dict.keys in *. apply in_map_iff in H as ([k' v] & <- & H).
    apply dict_sorted_items_inv in H. now apply (in_map fst) in H.
Qed.

Lemma resolve_keyword_fst {F : Type} (wrap : F -> any_field)
    (fields_by_name : Dict.t F) (item : string * pyarg W) :
  fst (resolve_keyword from_field wrap fields_by_name item) = fst item.
Proof.
  unfold resolve_keyword. destruct (is_infer (snd item)); [|reflexivity].
  now destruct (Dict.get (fst item) fields_by_name).
Qed.

Lemma resolve_keyword_keys {F : Type} (wrap : F -> any_field)
    (fields_by_name : Dict.t F) (kw : Dict.t (pyarg W)) :
  Dict.keys (map (resolve_keyword from_field wrap fields_by_name) kw)
  = Dict.keys kw.
Proof.
  unfold Dict.keys. rewrite map_map. apply map_ext.
  intros item. apply resolve_keyword_fst.
Qed.

Lemma resolve_keyword_get {F : Type} (wrap : F -> any_field)
    (fields_by_name : Dict.t F) (kw : Dict.t (pyarg W)) k :
  Dict.get k (map (resolve_keyword from_field wrap fields_by_name) kw)
  = match Dict.get k kw with
    | Some a => Some (snd (resolve_keyword from_field wrap fields_by_name (k, a)))
    | None => None
    end.
Proof.
  induction kw as [|[k' a] kw IH]; simpl; [reflexivity|].
  destruct (resolve_keyword from_field wrap fields_by_name (k', a))
    as [k'' a'] eqn:E.
  assert (Hk : k'' = k').
  { change k'' with (fst (k'', a')). rewrite <- E.
    apply resolve_keyword_fst. }
  subst k''. destruct (String.eqb k k') eqn:Ek; [|exact IH].
  apply String.eqb_eq in Ek. subst k'. now rewrite E.
Qed.

(** Lines 97-99 and 201-203 over any part [items] of the snapshot, by
    lookups: a key that [infer] was passed for holds the strategy of its
    field, every other key holds what it held. *)
Lemma resolve_loop_get {F : Type} (wrap : F -> any_field)
    (fields_by_name : Dict.t F) (items : list (string * pyarg W)) :
  forall field_strategies : Dict.t (pyarg W),
    NoDup (map fst items) ->
    (forall name value, In (name, value) items ->
                        In name (Dict.keys field_strategies)) ->
    (forall name value, In (name, value) items -> is_infer value = true ->
       exists f s, Dict.get name fields_by_name = Some f /\
                   from_field (wrap f) = Ok s) ->
    exists fs',
      traced
        (foreach items
           (fun '(name, value) field_strategies =>
              if is_infer value then
                f <- getitem fields_by_name name ;;
                s <- call_from_field from_field name (wrap f) ;;
                ret (Dict.set name (Strategy s) field_strategies)
              else ret field_strategies)
           field_strategies)
        (Ok fs') (flat_map (keyword_events wrap fields_by_name) items) /\
      Dict.keys fs' = Dict.keys field_strategies /\
      (forall k, Dict.get k fs' =
         match Dict.get k items with
         | Some a =>
             if is_infer a
             then Some (snd (resolve_keyword from_field wrap fields_by_name (k, a)))
             else Dict.get k field_strategies
         | None => Dict.get k field_strategies
         end).
Proof.
  induction items as [|[name value] items IH]; intros fs Hnd Hkeys Hok; simpl.
  - exists fs. split; [apply traced_ret|]. split; reflexivity.
  - inversion Hnd as [|? ? Hni Hnd']; subst.
    assert (Hnone : Dict.get name items = None) by now apply dict_get_None.
    destruct (is_infer value) eqn:Hv.
    + destruct (Hok name value (or_introl eq_refl) Hv) as (f & s & Hf & Hs).
      destruct (IH (Dict.set name (Strategy s) fs) Hnd') as (fs' & Ht & Hk & Hget).
      { intros n v Hin. apply dict_keys_set_In. right. eapply Hkeys. right. eauto. }
      { intros n v Hin. apply Hok. now right. }
      exists fs'. split; [|split].
      * unfold keyword_events at 1. simpl. rewrite Hv, Hf.
        eapply traced_bind_Ok; [|exact Ht].
        unfold getitem. rewrite Hf. apply traced_bind_ret.
        rewrite <- (app_nil_r [EvFromField name (wrap f)]).
        eapply traced_bind_Ok; [apply traced_call_from_field_Ok; exact Hs|].
        apply traced_ret.
      * rewrite Hk. apply dict_keys_set_old. apply dict_mem_true.
        eapply Hkeys. left. reflexivity.
      * intros k. rewrite Hget. destruct (String.eqb k name) eqn:E.
        -- apply String.eqb_eq in E. subst k. rewrite Hnone, Hv.
           rewrite dict_get_set_same. unfold resolve_keyword. simpl.
           rewrite Hv, Hf. simpl. now rewrite (strategy_for_Ok Hs).
        -- apply String.eqb_neq in E.
           rewrite (dict_get_set_other (Strategy s) fs (not_eq_sym E)).
           reflexivity.
    + destruct (IH fs Hnd') as (fs' & Ht & Hk & Hget).
      { intros n v Hin. eapply Hkeys. right. eauto. }
      { intros n v Hin. apply Hok. now right. }
      exists fs'. split; [|split; [exact Hk|]].
      * unfold keyword_events at 1. simpl. rewrite Hv. simpl.
        apply traced_bind_ret. exact Ht.
      * intros k. rewrite Hget. destruct (String.eqb k name) eqn:E; [|reflexivity].
        apply String.eqb_eq in E. subst k. now rewrite Hnone, Hv.
Qed.

(** Lines 97-99 and 201-203 as a closed form: the keywords in their order,
    [infer] replaced. *)
Lemma resolve_infer_exact {F : Type} (wrap : F -> any_field)
    (fields_by_name : Dict.t F) (kw : Dict.t (pyarg W)) :
  NoDup (Dict.keys kw) ->
  (forall name, Dict.get name kw = Some (Value PyInfer) ->
     exists f s, Dict.get name fields_by_name = Some f /\
                 from_field (wrap f) = Ok s) ->
  traced (resolve_infer from_field wrap fields_by_name kw)
    (Ok (map (resolve_keyword from_field wrap fields_by_name) kw))
    (flat_map (keyword_events wrap fields_by_name) (Dict.sorted_items kw)).
Proof.
  intros Hnd Hok.
  destruct (@resolve_loop_get _ wrap fields_by_name (Dict.sorted_items kw) kw)
    as (fs' & Ht & Hk & Hget).
  { now apply dict_sorted_items_NoDup. }
  { intros name value H. apply dict_sorted_items_inv in H.
    apply (in_map fst) in H. exact H. }
  { intros name value H Hi. apply dict_sorted_items_inv in H.
    apply is_infer_true in Hi. subst value. apply Hok.
    now apply dict_In_get. }
  assert (Heq : fs' = map (resolve_keyword from_field wrap fields_by_name) kw).
  { apply dict_ext.
    - now rewrite Hk, resolve_keyword_keys.
    - now rewrite Hk.
    - intros k. rewrite Hget, resolve_keyword_get, dict_get_sorted_items
        by assumption.
      destruct (Dict.get k kw) as [a|] eqn:E; [|reflexivity].
      destruct (is_infer a) eqn:Hi; [reflexivity|].
      unfold resolve_keyword. simpl. now rewrite Hi. }
  subst fs'. exact Ht.
Qed.


Lemma dict_get_app_l {V : Type} (d1 d2 : Dict.t V) k v :
  Dict.get k d1 = Some v -> Dict.get k (d1 ++ d2) = Some v.
Proof.
  induction d1 as [|[k' v'] d1 IH]; simpl; [discriminate|].
  destruct (String.eqb k k'); auto.
Qed.

Lemma dict_get_app_r {V : Type} (d1 d2 : Dict.t V) k :
  Dict.get k d1 = None -> Dict.get k (d1 ++ d2) = Dict.get k d2.
Proof.
  induction d1 as [|[k' v'] d1 IH]; simpl; [reflexivity|].
  destruct (String.eqb k k'); [discriminate | auto].
Qed.

Lemma missing_model_fields_In (m : model_class W) kw name f :
  NoDup (map mf_name (concrete_fields m)) ->
  In (name, f) (missing_model_fields kw m) <->
  In f (concrete_fields m) /\ mf_name f = name /\
  no_keyword_no_auto_no_default kw f.
Proof.
  intros Hnames. unfold missing_model_fields. rewrite filter_In. simpl.
  rewrite dict_sorted_items_In, fields_by_name_of_In by assumption.
  rewrite andb_true_iff, negb_true_iff, model_test_true.
  unfold no_keyword_no_auto_no_default.
  split.
  - intros [[Hf <-] [Hm Hc]]. tauto.
  - intros [Hf [<- [Hm Hc]]]. tauto.
Qed.

Lemma missing_model_fields_NoDup (m : model_class W) kw :
  NoDup (map mf_name (concrete_fields m)) ->
  NoDup (map fst (missing_model_fields kw m)).
Proof.
  intros Hnames. unfold missing_model_fields.
  assert (H : NoDup (map fst (Dict.sorted_items
                                (fields_by_name_of (concrete_fields m))))).
  { apply dict_sorted_items_NoDup. now rewrite fields_by_name_of_keys. }
  revert H. generalize (Dict.sorted_items (fields_by_name_of (concrete_fields m))).
  intros l. induction l as [|x l IH]; simpl; [constructor|].
  intros Hnd. inversion Hnd as [|? ? Hni Hnd']; subst.
  destruct (negb (Dict.mem (fst x) kw)
            && (negb (auto_created (snd x))
                && is_NOT_PROVIDED (default (snd x)))); simpl; auto.
  constructor; auto. intros Hin. apply Hni.
  apply in_map_iff in Hin as (y & Hy & Hin). apply filter_In in Hin as [Hin _].
  rewrite <- Hy. now apply in_map.
Qed.

Lemma expected_model_strategies_keys (m : model_class W) kw :
  Dict.keys (expected_model_strategies from_field m kw)
  = Dict.keys kw ++ map fst (missing_model_fields kw m).
Proof.
  unfold expected_model_strategies, Dict.keys.
  rewrite map_app. f_equal.
  - apply resolve_keyword_keys.
  - rewrite map_map. reflexivity.
Qed.


(** Lines 96-106 as a closed form. *)
Lemma resolved_fields_exact (m : model_class W) kw :
  NoDup (Dict.keys kw) ->
  NoDup (map mf_name (concrete_fields m)) ->
  (forall name, Dict.get name kw = Some (Value PyInfer) ->
     exists f, In f (concrete_fields m) /\ mf_name f = name) ->
  (forall f, In f (concrete_fields m) ->
     Dict.get (mf_name f) kw = Some (Value PyInfer) \/
     no_keyword_no_auto_no_default kw f ->
     exists s, from_field (ModelField f) = Ok s) ->
  traced (resolved_fields from_field m kw)
    (Ok (expected_model_strategies from_field m kw))
    (expected_model_events m kw).
Proof.
  intros Hkw Hnames Hinfer Hfound.
  unfold resolved_fields, expected_model_strategies, expected_model_events.
  set (fbn := fields_by_name_of (concrete_fields m)).
  eapply traced_bind_Ok.
  - apply resolve_infer_exact; [exact Hkw|].
    intros name H. destruct (Hinfer name H) as (f & Hf & <-).
    destruct (Hfound f Hf (or_introl H)) as (s & Hs).
    exists f, s. split; [|exact Hs]. now apply fields_by_name_of_get.
  - intros st.
    rewrite <- (@infer_loop_exact _ ModelField
                  (fun f => negb (auto_created f) && is_NOT_PROVIDED (default f))
                  kw (Dict.sorted_items fbn)
                  (map (resolve_keyword from_field ModelField fbn) kw)).
    + unfold infer_model_fields. apply foreach_ext.
      intros [name field] acc s. now rewrite andb_assoc.
    + apply dict_sorted_items_NoDup. unfold fbn.
      now rewrite fields_by_name_of_keys.
    + intros name _. apply dict_mem_keys. apply resolve_keyword_keys.
    + intros name f H Hm Hc. apply dict_sorted_items_inv in H.
      apply fields_by_name_of_In in H as [Hf <-]; [|assumption].
      apply model_test_true in Hc. apply (Hfound f Hf). right.
      unfold no_keyword_no_auto_no_default. tauto.
Qed.




Lemma expected_get_keyword (m : model_class W) kw name a :
  Dict.get name kw = Some a ->
  Dict.get name (expected_model_strategies from_field m kw)
  = Some (snd (resolve_keyword from_field ModelField
                 (fields_by_name_of (concrete_fields m)) (name, a))).
Proof.
  intros H. unfold expected_model_strategies. apply dict_get_app_l.
  now rewrite resolve_keyword_get, H.
Qed.

Lemma expected_get_missing (m : model_class W) kw name f :
  NoDup (map mf_name (concrete_fields m)) ->
  In (name, f) (missing_model_fields kw m) ->
  Dict.get name (expected_model_strategies from_field m kw)
  = Some (Strategy (strategy_for from_field (ModelField f))).
Proof.
  intros Hnames Hin. unfold expected_model_strategies.
  assert (Hm : Dict.mem name kw = false).
  { apply missing_model_fields_In in Hin as (_ & <- & Hm & _); assumption. }
  rewrite dict_get_app_r.
  - apply dict_In_get.
    + unfold Dict.keys. rewrite map_map. simpl.
      now apply missing_model_fields_NoDup.
    + apply (in_map (inferred_entry from_field ModelField)) in Hin. exact Hin.
  - rewrite resolve_keyword_get. unfold Dict.mem in Hm.
    now destruct (Dict.get name kw).
Qed.

(** The calls of [from_field] among the events of lines 96-106. *)
Lemma expected_model_events_In (m : model_class W) kw f :
  NoDup (Dict.keys kw) ->
  NoDup (map mf_name (concrete_fields m)) ->
  In f (concrete_fields m) ->
  In (EvFromField (mf_name f) (ModelField f)) (expected_model_events m kw) <->
  Dict.get (mf_name f) kw = Some (Value PyInfer) \/
  no_keyword_no_auto_no_default kw f.
Proof.
  intros Hkw Hnames Hf. unfold expected_model_events.
  rewrite in_app_iff, in_flat_map, in_map_iff. split.
  - intros [([name a] & Hin & Hev) | ([name g] & Heq & Hin)].
    + left. unfold keyword_events in Hev. simpl in Hev.
      destruct (is_infer a) eqn:Hi; [|contradiction].
      destruct (Dict.get name (fields_by_name_of (concrete_fields m)))
        as [g|] eqn:Hg; [|contradiction].
      destruct Hev as [Hev|[]]. injection Hev as Hn _. subst name.
      apply is_infer_true in Hi. subst a.
      apply dict_sorted_items_inv in Hin. now apply dict_In_get.
    + right. unfold inferred_event in Heq. simpl in Heq.
      injection Heq as Hn Hg. subst name g.
      apply missing_model_fields_In in Hin; tauto.
  - intros [H|H].
    + left. exists (mf_name f, Value PyInfer). split.
      * apply dict_sorted_items_intro. now apply dict_get_In.
      * unfold keyword_events. simpl.
        assert (Hg : Dict.get (mf_name f) (fields_by_name_of (concrete_fields m))
                     = Some f) by now apply fields_by_name_of_get.
        rewrite Hg. now left.
    + right. exists (mf_name f, f). split; [reflexivity|].
      apply missing_model_fields_In; auto.
Qed.

(** C3 (as amended).  With keywords and fields of distinct names, every
    [infer] naming a concrete field and [from_field] finding a strategy
    wherever it is asked: lines 96-106 end with field strategies [fs], on
    which lines 108-120 build what [from_model] returns.  For a concrete
    field of the model, [from_field] is called exactly when the field is
    passed as [infer], or is named by no keyword, is not auto-created and
    has no default; the field then holds in [fs] the strategy that
    [from_field] returned for it.  A field with a keyword that is not
    [infer] holds the keyword's value; a field without keyword that is
    auto-created or has a default has no entry.  When [get_field] knows
    every keyword and every concrete field, [from_model] returns a
    strategy. *)
Theorem from_model_infers_fields (c : pyclass W) m kw :
  cls_model c = Some m ->
  NoDup (Dict.keys kw) ->
  NoDup (map mf_name (concrete_fields m)) ->
  (forall name, Dict.get name kw = Some (Value PyInfer) ->
     exists f, In f (concrete_fields m) /\ mf_name f = name) ->
  (forall f, In f (concrete_fields m) ->
     Dict.get (mf_name f) kw = Some (Value PyInfer) \/
     no_keyword_no_auto_no_default kw f ->
     exists s, from_field (ModelField f) = Ok s) ->
  exists fs r evs,
    traced (resolved_fields from_field m kw) (Ok fs) evs /\
    traced (dispatch_on_primary_key m fs) r [] /\
    traced (from_model from_field (ClassObj c) kw) r evs /\
    (forall f, In f (concrete_fields m) ->
       (In (EvFromField (mf_name f) (ModelField f)) evs <->
        Dict.get (mf_name f) kw = Some (Value PyInfer) \/
        no_keyword_no_auto_no_default kw f)) /\
    (forall f, In f (concrete_fields m) ->
       Dict.get (mf_name f) kw = Some (Value PyInfer) \/
       no_keyword_no_auto_no_default kw f ->
       exists s,
         from_field (ModelField f) = Ok s /\
         Dict.get (mf_name f) fs = Some (Strategy s)) /\
    (forall f a, In f (concrete_fields m) ->
       Dict.get (mf_name f) kw = Some a -> is_infer a = false ->
       Dict.get (mf_name f) fs = Some a) /\
    (forall f, In f (concrete_fields m) ->
       Dict.mem (mf_name f) kw = false ->
       auto_created f = true \/ default f <> None ->
       Dict.get (mf_name f) fs = None) /\
    ((forall k, In k (Dict.keys kw) -> get_field m k <> None) ->
     (forall f, In f (concrete_fields m) -> get_field m (mf_name f) <> None) ->
     exists s, r = Ok s).
Proof.
  intros Hm Hkw Hnames Hinfer Hfound.
  destruct (dispatch_result m (expected_model_strategies from_field m kw))
    as (r & Hr & Hok).
  exists (expected_model_strategies from_field m kw), r,
         (expected_model_events m kw).
  split; [now apply resolved_fields_exact|].
  split; [exact Hr|].
  split.
  { eapply from_model_traced_via;
      [exact Hm | now apply resolved_fields_exact | exact Hr]. }
  split; [intros f Hf; now apply expected_model_events_In|].
  split.
  { intros f Hf Hwhy. destruct (Hfound f Hf Hwhy) as (s & Hs).
    exists s. split; [exact Hs|]. destruct Hwhy as [H|H].
    - rewrite (expected_get_keyword m _ _ H). unfold resolve_keyword. simpl.
      assert (Hg : Dict.get (mf_name f) (fields_by_name_of (concrete_fields m))
                   = Some f) by now apply fields_by_name_of_get.
      rewrite Hg. simpl. now rewrite (strategy_for_Ok Hs).
    - assert (Hin : In (mf_name f, f) (missing_model_fields kw m))
        by (apply missing_model_fields_In; auto).
      rewrite (@expected_get_missing m kw (mf_name f) f Hnames Hin).
      now rewrite (strategy_for_Ok Hs). }
  split.
  { intros f a Hf H Hi. rewrite (expected_get_keyword m _ _ H).
    unfold resolve_keyword. simpl. now rewrite Hi. }
  split.
  { intros f Hf Hmem Hno. unfold expected_model_strategies.
    rewrite dict_get_app_r.
    - apply dict_get_None. unfold Dict.keys. rewrite map_map. simpl.
      intros Hin. apply in_map_iff in Hin as ([name g] & Hn & Hin).
      simpl in Hn. subst name.
      apply missing_model_fields_In in Hin as (Hg & Hname & _ & Ha & Hd);
        [|assumption].
      assert (Hgf : Dict.get (mf_name f) (fields_by_name_of (concrete_fields m))
                    = Some g) by now apply fields_by_name_of_get.
      assert (Hff : Dict.get (mf_name f) (fields_by_name_of (concrete_fields m))
                    = Some f) by now apply fields_by_name_of_get.
      rewrite Hgf in Hff. injection Hff as ->. destruct Hno; congruence.
    - rewrite resolve_keyword_get. unfold Dict.mem in Hmem.
      now destruct (Dict.get (mf_name f) kw). }
  intros Hknown_kw Hknown_fields. apply Hok.
  intros n Hn. rewrite expected_model_strategies_keys in Hn.
  apply in_app_or in Hn as [Hn|Hn]; [now apply Hknown_kw|].
  apply in_map_iff in Hn as ([name g] & <- & Hin).
  apply missing_model_fields_In in Hin as (Hg & <- & _); [|assumption].
  now apply Hknown_fields.
Qed.

(** X1.  Lines 96-106 of [from_model] as a closed form.  With keywords and
    fields of distinct names, every [infer] naming a concrete field and
    [from_field] finding a strategy wherever it is asked: [from_model]
    goes on to lines 108-120 with the keywords in the order given, then
    the missing fields in the order of the sorted loop; a keyword that is
    not [infer] keeps its value; a keyword that is [infer], and a missing
    field, hold the strategy that [from_field] returns for the field; and
    [from_field] was called first for the [infer] keywords in sorted
    order, then for the missing fields. *)
Theorem from_model_field_strategies (c : pyclass W) m kw :
  cls_model c = Some m ->
  NoDup (Dict.keys kw) ->
  NoDup (map mf_name (concrete_fields m)) ->
  (forall name, Dict.get name kw = Some (Value PyInfer) ->
     exists f, In f (concrete_fields m) /\ mf_name f = name) ->
  (forall f, In f (concrete_fields m) ->
     Dict.get (mf_name f) kw = Some (Value PyInfer) \/
     no_keyword_no_auto_no_default kw f ->
     exists s, from_field (ModelField f) = Ok s) ->
  (forall st,
      from_model from_field (ClassObj c) kw st
      = dispatch_on_primary_key m (expected_model_strategies from_field m kw)
          {| world := world st;
             trace := trace st ++ expected_model_events m kw |}) /\
  Dict.keys (expected_model_strategies from_field m kw)
  = Dict.keys kw ++ map fst (missing_model_fields kw m) /\
  (forall name a,
      Dict.get name kw = Some a -> is_infer a = false ->
      Dict.get name (expected_model_strategies from_field m kw) = Some a) /\
  (forall name f,
      Dict.get name kw = Some (Value PyInfer) ->
      In f (concrete_fields m) -> mf_name f = name ->
      exists s,
        from_field (ModelField f) = Ok s /\
        Dict.get name (expected_model_strategies from_field m kw)
        = Some (Strategy s)) /\
  (forall f,
      In f (concrete_fields m) -> no_keyword_no_auto_no_default kw f ->
      exists s,
        from_field (ModelField f) = Ok s /\
        In (mf_name f, f) (missing_model_fields kw m) /\
        Dict.get (mf_name f) (expected_model_strategies from_field m kw)
        = Some (Strategy s)).
Proof.
  intros Hm Hkw Hnames Hinfer Hfound.
  split; [|split; [|split; [|split]]].
  - intros st. erewrite from_model_unfolded by exact Hm.
    unfold bind. now rewrite (resolved_fields_exact m Hkw Hnames Hinfer Hfound st).
  - apply expected_model_strategies_keys.
  - intros name a H Hi. rewrite (expected_get_keyword m _ _ H).
    unfold resolve_keyword. simpl. now rewrite Hi.
  - intros name f H Hf Hname.
    destruct (Hfound f Hf) as (s & Hs); [left; now rewrite Hname|].
    exists s. split; [exact Hs|].
    rewrite (expected_get_keyword m _ _ H). unfold resolve_keyword. simpl.
    assert (Hg : Dict.get name (fields_by_name_of (concrete_fields m)) = Some f)
      by now apply fields_by_name_of_get.
    rewrite Hg. simpl. now rewrite (strategy_for_Ok Hs).
  - intros f Hf Hno.
    destruct (Hfound f Hf (or_intror Hno)) as (s & Hs).
    assert (Hin : In (mf_name f, f) (missing_model_fields kw m))
      by (apply missing_model_fields_In; auto).
    exists s. split; [exact Hs|]. split; [exact Hin|].
    rewrite (@expected_get_missing m kw (mf_name f) f Hnames Hin).
    now rewrite (strategy_for_Ok Hs).
Qed.

(** X2.  A model whose primary keys are all auto-created or have a
    default, called with keywords that name no primary key: [from_model]
    returns [_models_impl] around a [builds] of [get_or_create] (never of
    [update_or_create]) with the field strategies of X1. *)
Theorem from_model_gets_or_creates_without_primary_key (c : pyclass W) m kw :
  cls_model c = Some m ->
  NoDup (Dict.keys kw) ->
  NoDup (map mf_name (concrete_fields m)) ->
  (forall name, Dict.get name kw = Some (Value PyInfer) ->
     exists f, In f (concrete_fields m) /\ mf_name f = name) ->
  (forall f, In f (concrete_fields m) ->
     Dict.get (mf_name f) kw = Some (Value PyInfer) \/
     no_keyword_no_auto_no_default kw f ->
     exists s, from_field (ModelField f) = Ok s) ->
  (forall f, In f (concrete_fields m) -> get_field m (mf_name f) = Some f) ->
  (forall k, In k (Dict.keys kw) -> not_primary_key m k) ->
  (forall f, In f (concrete_fields m) -> primary_key f = true ->
     auto_created f = true \/ default f <> None) ->
  traced (from_model from_field (ClassObj c) kw)
    (Ok (composite (@_models_impl W pyval bool)
           (builds (get_or_create m)
              (expected_model_strategies from_field m kw))))
    (expected_model_events m kw).
Proof.
  intros Hm Hkw Hnames Hinfer Hfound Hget Hkwpk Hpk.
  eapply from_model_traced_via;
    [exact Hm | now apply resolved_fields_exact |].
  apply dispatch_get_or_create. intros s. apply find_primary_key_none.
  intros n Hn. rewrite expected_model_strategies_keys in Hn.
  apply in_app_or in Hn as [Hn|Hn]; [now apply Hkwpk|].
  apply in_map_iff in Hn as ([name f] & <- & Hin).
  apply missing_model_fields_In in Hin as (Hf & <- & _ & Ha & Hd);
    [|assumption].
  exists f. split; [now apply Hget|].
  destruct (primary_key f) eqn:E; [|reflexivity].
  destruct (Hpk f Hf E) as [H|H]; congruence.
Qed.



(** ** When [from_model] raises *)

(** Lines 97-99 stop with [KeyError] at the first [infer] that names no
    field, when [from_field] finds a strategy for the ones before it. *)
Lemma resolve_loop_KeyError {F : Type} (wrap : F -> any_field)
    (fields_by_name : Dict.t F) (items : list (string * pyarg W)) :
  forall field_strategies : Dict.t (pyarg W),
    (forall name value f, In (name, value) items -> is_infer value = true ->
       Dict.get name fields_by_name = Some f ->
       exists s, from_field (wrap f) = Ok s) ->
    (exists name value, In (name, value) items /\ is_infer value = true /\
                        Dict.get name fields_by_name = None) ->
    exists evs,
      traced
        (foreach items
           (fun '(name, value) field_strategies =>
              if is_infer value then
                f <- getitem fields_by_name name ;;
                s <- call_from_field from_field name (wrap f) ;;
                ret (Dict.set name (Strategy s) field_strategies)
              else ret field_strategies)
           field_strategies)
        (Raise KeyError) evs.
Proof.
  induction items as [|[name value] items IH]; intros fs Hok Hbad; simpl.
  - destruct Hbad as (? & ? & [] & _).
  - assert (Hok' : forall n v f, In (n, v) items -> is_infer v = true ->
                     Dict.get n fields_by_name = Some f ->
                     exists s, from_field (wrap f) = Ok s).
    { intros n v f Hin. apply Hok. now right. }
    destruct (is_infer value) eqn:Hv.
    + destruct (Dict.get name fields_by_name) as [f|] eqn:Hf.
      * destruct (Hok name value f (or_introl eq_refl) Hv Hf) as (s & Hs).
        destruct (IH (Dict.set name (Strategy s) fs) Hok') as (evs & Ht).
        { destruct Hbad as (n & v & [[= <- <-]|Hin] & Hi & Hn).
          - congruence.
          - exists n, v. auto. }
        exists ([EvFromField name (wrap f)] ++ evs).
        eapply traced_bind_Ok; [|exact Ht].
        unfold getitem. rewrite Hf. apply traced_bind_ret.
        rewrite <- (app_nil_r [EvFromField name (wrap f)]).
        eapply traced_bind_Ok; [apply traced_call_from_field_Ok; exact Hs|].
        apply traced_ret.
      * exists []. apply traced_bind_Raise.
        unfold getitem. rewrite Hf. apply traced_bind_Raise.
        apply traced_raise.
    + destruct (IH fs Hok') as (evs & Ht).
      { destruct Hbad as (n & v & [[= <- <-]|Hin] & Hi & Hn).
        - congruence.
        - exists n, v. auto. }
      exists evs. apply traced_bind_ret. exact Ht.
Qed.

(** X4.  A keyword whose value is [infer] and whose name is that of no
    concrete field of the model makes [from_model] raise [KeyError]
    (line 99), provided [from_field] finds a strategy for the [infer]
    keywords that do name a concrete field; no strategy is returned. *)
Theorem from_model_infer_for_unknown_field_is_key_error
    (c : pyclass W) m kw bad :
  cls_model c = Some m ->
  NoDup (Dict.keys kw) ->
  NoDup (map mf_name (concrete_fields m)) ->
  Dict.get bad kw = Some (Value PyInfer) ->
  ~ In bad (map mf_name (concrete_fields m)) ->
  (forall name f, Dict.get name kw = Some (Value PyInfer) ->
     In f (concrete_fields m) -> mf_name f = name ->
     exists s, from_field (ModelField f) = Ok s) ->
  exists evs,
    traced (from_model from_field (ClassObj c) kw) (Raise KeyError) evs.
Proof.
  intros Hm Hkw Hnames Hbad Hunknown Hfound.
  set (fbn := fields_by_name_of (concrete_fields m)).
  destruct (@resolve_loop_KeyError _ ModelField fbn (Dict.sorted_items kw) kw)
    as (evs & Ht).
  { intros name value f H Hi Hf. apply dict_sorted_items_inv in H.
    apply is_infer_true in Hi. subst value.
    apply fields_by_name_of_get in Hf as [Hf Hname]; [|assumption].
    apply (Hfound name f); auto. now apply dict_In_get. }
  { exists bad, (Value PyInfer). split; [|split; [reflexivity|]].
    - apply dict_sorted_items_intro. now apply dict_get_In.
    - apply dict_get_None. unfold fbn.
      now rewrite fields_by_name_of_keys. }
  exists evs. unfold from_model. rewrite Hm. fold fbn.
  apply traced_bind_Raise. exact Ht.
Qed.

Lemma find_primary_key_unknown {S : Type} (m : model_class W) names bad (s : S) :
  In bad names ->
  get_field m bad = None ->
  (forall n, In n names -> ~ is_primary_key m n) ->
  find_primary_key m names s = (Raise FieldDoesNotExist, s).
Proof.
  intros Hin Hbad. induction names as [|n names IH]; simpl; [contradiction|].
  intros Hnone. destruct (get_field m n) as [f|] eqn:Hf; [|reflexivity].
  destruct (primary_key f) eqn:Hpk.
  - exfalso. apply (Hnone n); [now left|]. now exists f.
  - apply IH.
    + destruct Hin as [->|Hin]; [congruence | exact Hin].
    + intros n' Hn'. apply Hnone. now right.
Qed.

(** X5.  A keyword whose name [get_field] does not know makes [from_model]
    raise [FieldDoesNotExist] (line 109) after the fields are resolved,
    when no keyword and no missing field is a primary key. *)
Theorem from_model_unknown_keyword_is_field_does_not_exist
    (c : pyclass W) m kw bad :
  cls_model c = Some m ->
  NoDup (Dict.keys kw) ->
  NoDup (map mf_name (concrete_fields m)) ->
  (forall name, Dict.get name kw = Some (Value PyInfer) ->
     exists f, In f (concrete_fields m) /\ mf_name f = name) ->
  (forall f, In f (concrete_fields m) ->
     Dict.get (mf_name f) kw = Some (Value PyInfer) \/
     no_keyword_no_auto_no_default kw f ->
     exists s, from_field (ModelField f) = Ok s) ->
  In bad (Dict.keys kw) ->
  get_field m bad = None ->
  (forall k, In k (Dict.keys kw) -> ~ is_primary_key m k) ->
  (forall f, In f (concrete_fields m) -> no_keyword_no_auto_no_default kw f ->
     ~ is_primary_key m (mf_name f)) ->
  traced (from_model from_field (ClassObj c) kw)
    (Raise FieldDoesNotExist) (expected_model_events m kw).
Proof.
  intros Hm Hkw Hnames Hinfer Hfound Hbad Hunknown Hkwpk Hmissing.
  eapply from_model_traced_via;
    [exact Hm | now apply resolved_fields_exact |].
  intros st. unfold dispatch_on_primary_key, bind.
  rewrite (@find_primary_key_unknown (state W) m _ bad st).
  - now rewrite state_app_nil.
  - rewrite expected_model_strategies_keys. apply in_or_app. now left.
  - exact Hunknown.
  - intros n Hn. rewrite expected_model_strategies_keys in Hn.
    apply in_app_or in Hn as [Hn|Hn]; [now apply Hkwpk|].
    apply in_map_iff in Hn as ([name f] & <- & Hin).
    apply missing_model_fields_In in Hin as (Hf & <- & Hno);
      [|assumption].
    now apply Hmissing.
Qed.


(** ** What a returned strategy tells about the arguments *)

Lemma call_from_field_Ok_inv name f st s st' :
  call_from_field from_field name f st = (Ok s, st') -> from_field f = Ok s.
Proof.
  unfold call_from_field, bind, log, ret, raise.
  destruct (from_field f) as [s0|e]; [|discriminate].
  now intros [= -> _].
Qed.

(** Lines 97-99 end only when every [infer] named a field for which
    [from_field] found a strategy. *)
Lemma resolve_loop_inv {F : Type} (wrap : F -> any_field)
    (fields_by_name : Dict.t F) (items : list (string * pyarg W)) :
  forall (field_strategies : Dict.t (pyarg W)) st fs' st',
    foreach items
      (fun '(name, value) field_strategies =>
         if is_infer value then
           f <- getitem fields_by_name name ;;
           s <- call_from_field from_field name (wrap f) ;;
           ret (Dict.set name (Strategy s) field_strategies)
         else ret field_strategies)
      field_strategies st = (Ok fs', st') ->
    forall name value, In (name, value) items -> is_infer value = true ->
      exists f s, Dict.get name fields_by_name = Some f /\
                  from_field (wrap f) = Ok s.
Proof.
  induction items as [|[n v] items IH]; intros fs st fs' st' Hrun name value Hin Hi.
  - contradiction.
  - simpl in Hrun. apply bind_Ok_inv in Hrun as (acc & st1 & Hbody & Hrest).
    destruct Hin as [[= -> ->]|Hin].
    + rewrite Hi in Hbody.
      apply bind_Ok_inv in Hbody as (f & st2 & Hg & Hbody).
      apply bind_Ok_inv in Hbody as (s & st3 & Hc & _).
      exists f, s. split.
      * unfold getitem in Hg.
        destruct (Dict.get name fields_by_name); [|discriminate].
        now injection Hg as -> _.
      * eapply call_from_field_Ok_inv. exact Hc.
    + eapply IH; eauto.
Qed.

(** Lines 100-106 and 204-209 end only when [from_field] found a strategy
    for every field that passes the test. *)
Lemma infer_loop_inv {F : Type} (wrap : F -> any_field) (cond : F -> bool)
    (kw : Dict.t (pyarg W)) (items : list (string * F)) :
  forall (field_strategies : Dict.t (pyarg W)) st fs' st',
    NoDup (map fst items) ->
    (forall name, In name (map fst items) ->
                  Dict.mem name field_strategies = Dict.mem name kw) ->
    foreach items
      (fun '(name, field) field_strategies =>
         if negb (Dict.mem name field_strategies) && cond field then
           s <- call_from_field from_field name (wrap field) ;;
           ret (Dict.set name (Strategy s) field_strategies)
         else ret field_strategies)
      field_strategies st = (Ok fs', st') ->
    forall name field, In (name, field) items ->
      Dict.mem name kw = false -> cond field = true ->
      exists s, from_field (wrap field) = Ok s.
Proof.
  induction items as [|[n f] items IH];
    intros fs st fs' st' Hnd Hmem Hrun name field Hin Hm Hc.
  - contradiction.
  - inversion Hnd as [|? ? Hni Hnd']; subst.
    simpl in Hrun. apply bind_Ok_inv in Hrun as (acc & st1 & Hbody & Hrest).
    rewrite (Hmem n (or_introl eq_refl)) in Hbody.
    destruct (negb (Dict.mem n kw) && cond f) eqn:He.
    + apply bind_Ok_inv in Hbody as (s & st2 & Hcall & Hret).
      injection Hret as <- <-.
      destruct Hin as [[= -> ->]|Hin].
      * exists s. eapply call_from_field_Ok_inv. exact Hcall.
      * eapply (IH (Dict.set n (Strategy s) fs)); eauto.
        intros n' Hn'. rewrite dict_mem_set.
        destruct (String.eqb n' n) eqn:E.
        -- apply String.eqb_eq in E. subst n'. contradiction.
        -- simpl. apply Hmem. now right.
    + injection Hbody as <- <-.
      destruct Hin as [[= -> ->]|Hin].
      * rewrite Hm, Hc in He. discriminate.
      * eapply (IH fs); eauto. intros n' Hn'. apply Hmem. now right.
Qed.

(** X6.  When [from_model] returns a strategy, every keyword passed as
    [infer] names a concrete field of the model, and [from_field] found a
    strategy for every field passed as [infer] and for every field without
    keyword, not auto-created and without default. *)
Theorem from_model_returns_only_when_inference_succeeds
    (c : pyclass W) m kw st s st' :
  cls_model c = Some m ->
  NoDup (Dict.keys kw) ->
  NoDup (map mf_name (concrete_fields m)) ->
  from_model from_field (ClassObj c) kw st = (Ok s, st') ->
  (forall name, Dict.get name kw = Some (Value PyInfer) ->
     exists f, In f (concrete_fields m) /\ mf_name f = name) /\
  (forall f, In f (concrete_fields m) ->
     Dict.get (mf_name f) kw = Some (Value PyInfer) \/
     no_keyword_no_auto_no_default kw f ->
     exists s', from_field (ModelField f) = Ok s').
Proof.
  intros Hm Hkw Hnames Hrun.
  erewrite from_model_unfolded in Hrun by exact Hm.
  apply bind_Ok_inv in Hrun as (fs2 & st2 & Hres & _).
  unfold resolved_fields in Hres.
  set (fbn := fields_by_name_of (concrete_fields m)) in *.
  apply bind_Ok_inv in Hres as (fs1 & st1 & H1 & H2).
  assert (Hloop1 : forall name, Dict.get name kw = Some (Value PyInfer) ->
            exists f s0, Dict.get name fbn = Some f /\
                         from_field (ModelField f) = Ok s0).
  { intros name H. unfold resolve_infer in H1.
    eapply resolve_loop_inv;
      [exact H1
      | apply dict_sorted_items_intro; apply dict_get_In; exact H
      | reflexivity]. }
  assert (Hfs1 : fs1 = map (resolve_keyword from_field ModelField fbn) kw).
  { assert (Ht := @resolve_infer_exact _ ModelField fbn kw Hkw Hloop1 st).
    rewrite H1 in Ht. now injection Ht. }
  assert (Hloop2 : forall name f, In (name, f) (Dict.sorted_items fbn) ->
            Dict.mem name kw = false ->
            negb (auto_created f) && is_NOT_PROVIDED (default f) = true ->
            exists s0, from_field (ModelField f) = Ok s0).
  { unfold infer_model_fields in H2.
    erewrite foreach_ext in H2.
    - eapply (@infer_loop_inv _ ModelField
                (fun f => negb (auto_created f) && is_NOT_PROVIDED (default f))
                kw (Dict.sorted_items fbn) fs1 st1 fs2 st2); [| |exact H2].
      + apply dict_sorted_items_NoDup. unfold fbn.
        now rewrite fields_by_name_of_keys.
      + intros name _. subst fs1. apply dict_mem_keys.
        apply resolve_keyword_keys.
    - intros [name field] acc s0. simpl. now rewrite andb_assoc. }
  split.
  - intros name H. destruct (Hloop1 name H) as (f & _ & Hf & _).
    exists f. now apply fields_by_name_of_get.
  - intros f Hf [H|(Hmem & Ha & Hd)].
    + destruct (Hloop1 _ H) as (f' & s0 & Hf' & Hs).
      assert (Hg : Dict.get (mf_name f) fbn = Some f)
        by now apply fields_by_name_of_get.
      rewrite Hg in Hf'. injection Hf' as <-. now exists s0.
    + apply (Hloop2 (mf_name f) f); auto.
      * apply dict_sorted_items_intro. now apply fields_by_name_of_In.
      * now apply model_test_true.
Qed.


(** ** [from_form], exactly *)

Lemma missing_form_fields_In (kw : Dict.t (pyarg W))
    (blank_form : form_instance) name field :
  In (name, field) (missing_form_fields kw blank_form) <->
  In (name, field) (fields blank_form) /\
  Dict.mem name (strategies_of kw) = false /\ disabled field = false.
Proof.
  unfold missing_form_fields. rewrite filter_In. simpl.
  rewrite dict_sorted_items_In, andb_true_iff, !negb_true_iff. reflexivity.
Qed.

Lemma NoDup_keys_filter {V : Type} (p : string * V -> bool)
    (l : list (string * V)) :
  NoDup (map fst l) -> NoDup (map fst (filter p l)).
Proof.
  induction l as [|x l IH]; simpl; intros H; [constructor|].
  inversion H as [|? ? Hni Hnd]; subst.
  destruct (p x); simpl; auto.
  constructor; auto. intros Hin. apply Hni.
  apply in_map_iff in Hin as (y & Hy & Hin). apply filter_In in Hin as [Hin _].
  rewrite <- Hy. now apply in_map.
Qed.

Lemma missing_form_fields_NoDup (kw : Dict.t (pyarg W))
    (blank_form : form_instance) :
  NoDup (Dict.keys (fields blank_form)) ->
  NoDup (map fst (missing_form_fields kw blank_form)).
Proof.
  intros H. unfold missing_form_fields. apply NoDup_keys_filter.
  now apply dict_sorted_items_NoDup.
Qed.

(** C4.  When the form's constructor returns the blank form, its fields
    have distinct names and [from_field] finds a strategy wherever it is
    asked, [from_form] returns [_forms_impl] around a [builds] of the
    wrapped form with field strategies [fs].  For a field of the blank
    form, [from_field] is called exactly when the field is not disabled
    and no keyword that is a strategy names it; the field then holds in
    [fs] the strategy that [from_field] returned for it.  A keyword that
    is a strategy stays in [fs] as it was given; a disabled field that no
    such keyword names has no entry; and [fs] has no other keys. *)
Theorem from_form_infers_fields (c : pyclass W) f kw st blank_form w1 :
  cls_form c = Some f ->
  NoDup (Dict.keys kw) ->
  form_init f (values_of kw) (world st) = (Ok blank_form, w1) ->
  NoDup (Dict.keys (fields blank_form)) ->
  (forall name field, In (name, field) (fields blank_form) ->
     Dict.mem name (strategies_of kw) = false -> disabled field = false ->
     exists s, from_field (FormField field) = Ok s) ->
  exists fs evs,
    from_form from_field (ClassObj c) kw st
    = (Ok (composite (@_forms_impl W form_instance)
             (builds
                (_FormWrap__new__ {| wraps := f; form_kwargs := values_of kw |})
                fs)),
       {| world := w1; trace := trace st ++ evs |}) /\
    (forall name field, In (name, field) (fields blank_form) ->
       (In (EvFromField name (FormField field)) evs <->
        disabled field = false /\
        Dict.mem name (strategies_of kw) = false)) /\
    (forall name field, In (name, field) (fields blank_form) ->
       disabled field = false ->
       Dict.mem name (strategies_of kw) = false ->
       exists s,
         from_field (FormField field) = Ok s /\
         Dict.get name fs = Some (Strategy s)) /\
    (forall name a,
       Dict.get name (strategies_of kw) = Some a -> Dict.get name fs = Some a) /\
    (forall name field, In (name, field) (fields blank_form) ->
       disabled field = true ->
       Dict.mem name (strategies_of kw) = false ->
       Dict.get name fs = None) /\
    (forall name, In name (Dict.keys fs) ->
       In name (Dict.keys (strategies_of kw)) \/
       exists field, In (name, field) (fields blank_form) /\
                     disabled field = false).
Proof.
  intros Hf Hkw Hinit Hnd Hfound.
  assert (Hmnd := missing_form_fields_NoDup kw blank_form Hnd).
  assert (Hnone : forall name,
             Dict.mem name (strategies_of kw) = false ->
             Dict.get name (strategies_of kw) = None).
  { intros name H. unfold Dict.mem in H.
    now destruct (Dict.get name (strategies_of kw)). }
  assert (Hkeys : Dict.keys (map (inferred_entry from_field FormField)
                               (missing_form_fields kw blank_form))
                  = map fst (missing_form_fields kw blank_form)).
  { unfold Dict.keys. rewrite map_map. reflexivity. }
  exists (expected_form_strategies from_field kw blank_form),
         (map (inferred_event FormField) (missing_form_fields kw blank_form)).
  split; [|split; [|split; [|split; [|split]]]].
  - erewrite from_form_unfolded by eassumption.
    unfold bind at 1. unfold lift_world. rewrite Hinit.
    unfold bind, infer_form_fields.
    rewrite (@infer_loop_exact _ FormField (fun g => negb (disabled g))
               (strategies_of kw) (Dict.sorted_items (fields blank_form))
               (strategies_of kw)).
    + reflexivity.
    + now apply dict_sorted_items_NoDup.
    + reflexivity.
    + intros name g H Hm Hc. apply dict_sorted_items_inv in H.
      apply negb_true_iff in Hc. eauto.
  - intros name field Hin. rewrite in_map_iff. split.
    + intros ([n g] & Heq & Hg). unfold inferred_event in Heq. simpl in Heq.
      injection Heq as Hn Hg'. subst n g.
      apply missing_form_fields_In in Hg as (_ & Hm & Hd). auto.
    + intros [Hd Hm]. exists (name, field). split; [reflexivity|].
      apply missing_form_fields_In. auto.
  - intros name field Hin Hd Hm.
    destruct (Hfound name field Hin Hm Hd) as (s & Hs).
    exists s. split; [exact Hs|].
    unfold expected_form_strategies. rewrite dict_get_app_r by auto.
    apply dict_In_get; [now rewrite Hkeys|].
    assert (Hmiss : In (name, field) (missing_form_fields kw blank_form))
      by (apply missing_form_fields_In; auto).
    apply (in_map (inferred_entry from_field FormField)) in Hmiss.
    unfold inferred_entry in Hmiss at 1. simpl in Hmiss.
    now rewrite (strategy_for_Ok Hs) in Hmiss.
  - intros name a H. unfold expected_form_strategies. now apply dict_get_app_l.
  - intros name field Hin Hd Hm.
    unfold expected_form_strategies. rewrite dict_get_app_r by auto.
    apply dict_get_None. rewrite Hkeys. intros H.
    apply in_map_iff in H as ([n g] & Hn & Hg). simpl in Hn. subst n.
    apply missing_form_fields_In in Hg as (Hg & _ & Hdis).
    assert (Heq : Some g = Some field).
    { rewrite <- (dict_In_get _ _ _ Hnd Hg). now apply dict_In_get. }
    injection Heq as ->. congruence.
  - intros name H. unfold expected_form_strategies, Dict.keys in H.
    rewrite map_app, in_app_iff in H. destruct H as [H|H]; [now left|].
    right. fold (Dict.keys (map (inferred_entry from_field FormField)
                              (missing_form_fields kw blank_form))) in H.
    rewrite Hkeys in H. apply in_map_iff in H as ([n g] & Hn & Hg).
    simpl in Hn. subst n.
    apply missing_form_fields_In in Hg as (Hg & _ & Hdis). eauto.
Qed.

(** X7.  [from_form] as a closed form.  When the form's constructor
    returns the blank form, its fields have distinct names and
    [from_field] finds a strategy wherever it is asked: [from_form]
    returns [_forms_impl] around a [builds] of the wrapped form with the
    keywords that are strategies, in the order given, then the fields that
    are not disabled and that no such keyword names, in sorted order, each
    with the strategy of [from_field]; [from_field] is called for these
    fields in that order; the [data] of every form drawn has exactly these
    keys, so a disabled field without a strategy keyword has no entry. *)
Theorem from_form_field_strategies (c : pyclass W) f kw st blank_form w1 :
  cls_form c = Some f ->
  NoDup (Dict.keys kw) ->
  form_init f (values_of kw) (world st) = (Ok blank_form, w1) ->
  NoDup (Dict.keys (fields blank_form)) ->
  (forall name field, In (name, field) (fields blank_form) ->
     Dict.mem name (strategies_of kw) = false -> disabled field = false ->
     exists s, from_field (FormField field) = Ok s) ->
  from_form from_field (ClassObj c) kw st
  = (Ok (composite (@_forms_impl W form_instance)
           (builds
              (_FormWrap__new__ {| wraps := f; form_kwargs := values_of kw |})
              (expected_form_strategies from_field kw blank_form))),
     {| world := w1;
        trace := trace st
                 ++ map (inferred_event FormField)
                      (missing_form_fields kw blank_form) |}) /\
  (forall w vals w',
      draw_kwargs (expected_form_strategies from_field kw blank_form) w
      = (Ok vals, w') ->
      Dict.keys vals
      = Dict.keys (strategies_of kw)
        ++ map fst (missing_form_fields kw blank_form)) /\
  (forall name field,
      In (name, field) (fields blank_form) ->
      disabled field = true ->
      Dict.mem name (strategies_of kw) = false ->
      ~ In name (Dict.keys (expected_form_strategies from_field kw blank_form))).
Proof.
  intros Hf Hkw Hinit Hnd Hfound.
  assert (Hkeys : Dict.keys (expected_form_strategies from_field kw blank_form)
                  = Dict.keys (strategies_of kw)
                    ++ map fst (missing_form_fields kw blank_form)).
  { unfold expected_form_strategies, Dict.keys.
    rewrite map_app, map_map. reflexivity. }
  split; [|split].
  - erewrite from_form_unfolded by eassumption.
    unfold bind at 1. unfold lift_world. rewrite Hinit.
    unfold bind, infer_form_fields.
    rewrite (@infer_loop_exact _ FormField (fun g => negb (disabled g))
               (strategies_of kw) (Dict.sorted_items (fields blank_form))
               (strategies_of kw)).
    + reflexivity.
    + now apply dict_sorted_items_NoDup.
    + reflexivity.
    + intros name g H Hm Hc. apply dict_sorted_items_inv in H.
      apply negb_true_iff in Hc. eauto.
  - intros w vals w' H. apply draw_kwargs_keys in H. now rewrite H.
  - intros name field Hin Hd Hm. rewrite Hkeys, in_app_iff.
    intros [H|H].
    + apply dict_mem_true in H. congruence.
    + apply in_map_iff in H as ([n g] & <- & H).
      apply missing_form_fields_In in H as (Hg & _ & Hdis). simpl in *.
      assert (Heq : Dict.get n (fields blank_form) = Some g)
        by now apply dict_In_get.
      assert (Heq' : Dict.get n (fields blank_form) = Some field)
        by now apply dict_In_get.
      congruence.
Qed.

(** X8.  A keyword of [from_form] that is named [data] and is not a
    strategy reaches the form's constructor twice at every draw (line
    152).  The strategy returned is [_forms_impl] around the [builds] of
    the wrapped form with that keyword among [form_kwargs]: a draw from it
    that has its field values raises [TypeError], a draw that fails while
    the field values are drawn ends as [_forms_impl] ends it, and no draw
    gives a form. *)
Theorem from_form_data_keyword_is_type_error form kw st s st' :
  NoDup (Dict.keys kw) ->
  from_form from_field form kw st = (Ok s, st') ->
  Dict.mem "data" (values_of kw) = true ->
  exists c f field_strategies,
    form = ClassObj c /\ cls_form c = Some f /\
    s = composite (@_forms_impl W form_instance)
          (builds (_FormWrap__new__
                     {| wraps := f; form_kwargs := values_of kw |})
             field_strategies) /\
    (forall w,
        s w =
        match draw_kwargs field_strategies w with
        | (Ok _, w1) => (Raise TypeError, w1)
        | (Raise ValidationError, w1) => (Raise UnsatisfiedAssumption, w1)
        | (Raise e, w1) => (Raise e, w1)
        end) /\
    (forall w vals w1,
        draw_kwargs field_strategies w = (Ok vals, w1) ->
        s w = (Raise TypeError, w1)) /\
    (forall w inst w', s w <> (Ok inst, w')).
Proof.
  intros Hnd H Hdata.
  destruct (from_form_shape _ _ _ H) as (c & f & fs & -> & Hf & ->).
  rewrite split_kwargs_spec by assumption. simpl.
  assert (Hrun : forall w,
             composite (@_forms_impl W form_instance)
               (builds (_FormWrap__new__
                          {| wraps := f; form_kwargs := values_of kw |}) fs) w
             = match draw_kwargs fs w with
               | (Ok _, w1) => (Raise TypeError, w1)
               | (Raise ValidationError, w1) => (Raise UnsatisfiedAssumption, w1)
               | (Raise e, w1) => (Raise e, w1)
               end).
  { intros w. rewrite forms_impl_draw, builds_FormWrap, Hdata.
    destruct (draw_kwargs fs w) as [[vals|e] w1].
    - now destruct (Dict.mem "self" fs).
    - now destruct e. }
  exists c, f, fs.
  split; [reflexivity|]. split; [exact Hf|]. split; [reflexivity|].
  split; [exact Hrun|]. split.
  - intros w vals w1 Hd. now rewrite Hrun, Hd.
  - intros w inst w'. rewrite Hrun.
    destruct (draw_kwargs fs w) as [[vals|e] w1]; [discriminate|].
    destruct e; discriminate.
Qed.

(** X9.  The constructor of the form is called outside any [try] when
    [from_form] builds the blank form (line 199): what it raises then,
    [ValidationError] included, is raised by [from_form] unchanged (the
    engine reads it as a failure, not as a rejection), and [from_field]
    is called for nothing. *)
Theorem from_form_constructor_exception_propagates
    (c : pyclass W) f kw st e w1 :
  cls_form c = Some f ->
  NoDup (Dict.keys kw) ->
  form_init f (values_of kw) (world st) = (Raise e, w1) ->
  from_form from_field (ClassObj c) kw st
  = (Raise e, {| world := w1; trace := trace st |}) /\
  (e = ValidationError ->
   engine_verdict (fst (from_form from_field (ClassObj c) kw st))
   = Failure ValidationError).
Proof.
  intros Hf Hnd Hinit.
  assert (H : from_form from_field (ClassObj c) kw st
              = (Raise e, {| world := w1; trace := trace st |})).
  { erewrite from_form_unfolded by eassumption.
    unfold bind at 1. unfold lift_world. now rewrite Hinit. }
  split; [exact H|]. intros ->. now rewrite H.
Qed.

(** X10.  When [from_form] returns a strategy, the constructor returned a
    blank form from the keywords that are not strategies, and (its fields
    having distinct names) [from_field] found a strategy for every field
    of it that is not disabled and that no strategy keyword names. *)
Theorem from_form_returns_only_when_inference_succeeds
    (c : pyclass W) f kw st s st' :
  cls_form c = Some f ->
  NoDup (Dict.keys kw) ->
  from_form from_field (ClassObj c) kw st = (Ok s, st') ->
  exists blank_form w1,
    form_init f (values_of kw) (world st) = (Ok blank_form, w1) /\
    world st' = w1 /\
    (NoDup (Dict.keys (fields blank_form)) ->
     forall name field, In (name, field) (fields blank_form) ->
       Dict.mem name (strategies_of kw) = false -> disabled field = false ->
       exists s', from_field (FormField field) = Ok s').
Proof.
  intros Hf Hnd Hrun.
  erewrite from_form_unfolded in Hrun by eassumption.
  apply bind_Ok_inv in Hrun as (blank & st1 & Hinit & Hrest).
  apply bind_Ok_inv in Hrest as (fs & st2 & Hloop & Hret).
  injection Hret as _ <-.
  unfold lift_world in Hinit.
  destruct (form_init f (values_of kw) (world st)) as [r w1] eqn:E.
  injection Hinit as -> <-.
  exists blank, w1. split; [reflexivity|]. split.
  - destruct (traced_infer_form_fields (fields blank) (strategies_of kw))
      as (r & evs & Ht).
    rewrite Ht in Hloop. now injection Hloop as _ <-.
  - intros Hfields name field Hin Hm Hd.
    unfold infer_form_fields in Hloop.
    eapply (@infer_loop_inv _ FormField (fun g => negb (disabled g))
              (strategies_of kw) (Dict.sorted_items (fields blank))
              (strategies_of kw)); [| |exact Hloop| | |].
    + now apply dict_sorted_items_NoDup.
    + reflexivity.
    + apply dict_sorted_items_intro. exact Hin.
    + exact Hm.
    + now apply negb_true_iff.
Qed.


(** ** [sorted] and the order in which a model declares its fields *)

Lemma string_compare_trans (a : string) :
  forall b c : string,
    String.compare a b <> Gt -> String.compare b c <> Gt ->
    String.compare a c <> Gt.
Proof.
  induction a as [|x a IH]; intros [|y b] [|z c]; simpl;
    try congruence.
  unfold Ascii.compare.
  destruct (N.compare_spec (Ascii.N_of_ascii x) (Ascii.N_of_ascii y)) as [Exy|Exy|Exy];
    destruct (N.compare_spec (Ascii.N_of_ascii y) (Ascii.N_of_ascii z)) as [Eyz|Eyz|Eyz];
    destruct (N.compare_spec (Ascii.N_of_ascii x) (Ascii.N_of_ascii z)) as [Exz|Exz|Exz];
    try congruence; try lia.
  apply IH.
Qed.

Lemma string_leb_trans (a b c : string) :
  String.leb a b = true -> String.leb b c = true -> String.leb a c = true.
Proof.
  unfold String.leb. intros Hab Hbc.
  assert (H := @string_compare_trans a b c).
  destruct (String.compare a b); destruct (String.compare b c);
    destruct (String.compare a c); try discriminate; try reflexivity;
    exfalso; apply H; congruence.
Qed.

Section Sorting.

Context {V : Type}.

Let key_le (x y : string * V) : Prop := String.leb (fst x) (fst y) = true.

Lemma dict_insert_item_sorted (x : string * V) l :
  StronglySorted key_le l -> StronglySorted key_le (Dict.insert_item x l).
Proof.
  induction l as [|y l IH]; intros Hs; simpl.
  - constructor; constructor.
  - inversion Hs as [|? ? Hs' Hall]; subst.
    destruct (String.leb (fst x) (fst y)) eqn:E.
    + constructor; [exact Hs|]. constructor; [exact E|].
      eapply Forall_impl; [|exact Hall]. intros z Hz.
      unfold key_le in *. eapply string_leb_trans; eauto.
    + constructor; [now apply IH|].
      assert (Hyx : key_le y x).
      { unfold key_le. destruct (String.leb_total (fst x) (fst y)); congruence. }
      apply Forall_forall. intros z Hz.
      apply (Permutation_in _ (dict_insert_item_perm x l)) in Hz.
      destruct Hz as [<-|Hz]; [exact Hyx|].
      rewrite Forall_forall in Hall. now apply Hall.
Qed.

(** [sorted(d.items())] is in ascending order of the keys. *)
Lemma dict_sorted_items_sorted (d : Dict.t V) :
  StronglySorted key_le (Dict.sorted_items d).
Proof.
  induction d as [|x d IH]; simpl; [constructor|].
  now apply dict_insert_item_sorted.
Qed.

Lemma sorted_perm_unique (l1 : list (string * V)) :
  forall l2,
    StronglySorted key_le l1 -> StronglySorted key_le l2 ->
    Permutation l1 l2 -> NoDup (map fst l1) -> l1 = l2.
Proof.
  induction l1 as [|x l1 IH]; intros l2 H1 H2 Hp Hnd.
  - apply Permutation_nil in Hp. now subst.
  - destruct l2 as [|y l2].
    { apply Permutation_sym, Permutation_nil in Hp. discriminate. }
    inversion H1 as [|? ? H1' Hall1]; subst.
    inversion H2 as [|? ? H2' Hall2]; subst.
    inversion Hnd as [|? ? Hni Hnd']; subst.
    rewrite Forall_forall in Hall1, Hall2.
    assert (Hxy : x = y).
    { assert (Hx : In x (y :: l2)) by (eapply Permutation_in; [exact Hp | now left]).
      assert (Hy : In y (x :: l1))
        by (eapply Permutation_in; [symmetry; exact Hp | now left]).
      destruct Hx as [->|Hx]; [reflexivity|].
      destruct Hy as [->|Hy]; [reflexivity|].
      assert (Hk : fst x = fst y).
      { apply String.leb_antisym; [now apply Hall1 | now apply Hall2]. }
      exfalso. apply Hni. rewrite Hk. now apply in_map. }
    subst y. f_equal. apply IH; auto.
    eapply Permutation_cons_inv. exact Hp.
Qed.

(** [sorted(d.items())] does not depend on the order of the items. *)
Lemma dict_sorted_items_perm_eq (d1 d2 : Dict.t V) :
  Permutation d1 d2 -> NoDup (Dict.keys d1) ->
  Dict.sorted_items d1 = Dict.sorted_items d2.
Proof.
  intros Hp Hnd. apply sorted_perm_unique.
  - apply dict_sorted_items_sorted.
  - apply dict_sorted_items_sorted.
  - rewrite !dict_sorted_items_perm. exact Hp.
  - now apply dict_sorted_items_NoDup.
Qed.

Lemma dict_get_perm (d1 d2 : Dict.t V) k :
  Permutation d1 d2 -> NoDup (Dict.keys d1) ->
  Dict.get k d1 = Dict.get k d2.
Proof.
  intros Hp Hnd.
  rewrite <- (dict_get_sorted_items d1 k Hnd).
  rewrite <- (dict_get_sorted_items d2 k).
  - now rewrite (dict_sorted_items_perm_eq Hp Hnd).
  - eapply Permutation_NoDup; [|exact Hnd].
    unfold Dict.keys. now apply Permutation_map.
Qed.

End Sorting.


Lemma find_primary_key_same_lookup {S : Type} (m1 m2 : model_class W) names (s : S) :
  (forall n, get_field m1 n = get_field m2 n) ->
  find_primary_key m1 names s = find_primary_key m2 names s.
Proof.
  intros Hget. induction names as [|n names IH]; simpl; [reflexivity|].
  rewrite Hget. destruct (get_field m2 n) as [f|]; [|reflexivity].
  now destruct (primary_key f).
Qed.

Lemma fields_by_name_of_perm (fs1 fs2 : list model_field) :
  Permutation fs1 fs2 -> NoDup (map mf_name fs1) ->
  Permutation (fields_by_name_of fs1) (fields_by_name_of fs2).
Proof.
  intros Hp Hnd.
  rewrite !fields_by_name_of_spec.
  - now apply Permutation_map.
  - eapply Permutation_NoDup; [|exact Hnd]. now apply Permutation_map.
  - exact Hnd.
Qed.

(** X11.  What [from_model] returns does not depend on the order in which
    the model lists its concrete fields: lines 97 and 100 walk the
    keywords and the fields in sorted order.  Two model classes with the
    same concrete fields in any order, the same [get_field] and the same
    manager give the same result and the same calls to [from_field] in
    the same order. *)
Theorem from_model_ignores_declaration_order (c1 c2 : pyclass W) m1 m2 kw :
  cls_model c1 = Some m1 ->
  cls_model c2 = Some m2 ->
  Permutation (concrete_fields m1) (concrete_fields m2) ->
  (forall n, get_field m1 n = get_field m2 n) ->
  get_or_create m1 = get_or_create m2 ->
  update_or_create m1 = update_or_create m2 ->
  NoDup (Dict.keys kw) ->
  NoDup (map mf_name (concrete_fields m1)) ->
  (forall name, Dict.get name kw = Some (Value PyInfer) ->
     exists f, In f (concrete_fields m1) /\ mf_name f = name) ->
  (forall f, In f (concrete_fields m1) ->
     Dict.get (mf_name f) kw = Some (Value PyInfer) \/
     no_keyword_no_auto_no_default kw f ->
     exists s, from_field (ModelField f) = Ok s) ->
  forall st,
    from_model from_field (ClassObj c1) kw st
    = from_model from_field (ClassObj c2) kw st.
Proof.
  intros Hm1 Hm2 Hp Hget Hgoc Huoc Hkw Hnames Hinfer Hfound st.
  assert (Hnames2 : NoDup (map mf_name (concrete_fields m2))).
  { eapply Permutation_NoDup; [|exact Hnames]. now apply Permutation_map. }
  assert (Hfbn := fields_by_name_of_perm Hp Hnames).
  assert (Hkeys : NoDup (Dict.keys (fields_by_name_of (concrete_fields m1))))
    by now rewrite fields_by_name_of_keys.
  assert (Hsorted := @dict_sorted_items_perm_eq _ _ _ Hfbn Hkeys).
  assert (Hlookup : forall k,
             Dict.get k (fields_by_name_of (concrete_fields m1))
             = Dict.get k (fields_by_name_of (concrete_fields m2)))
    by (intros k; now apply dict_get_perm).
  assert (Hmissing : missing_model_fields kw m1 = missing_model_fields kw m2).
  { unfold missing_model_fields. now rewrite Hsorted. }
  assert (Hstrategies : expected_model_strategies from_field m1 kw
                        = expected_model_strategies from_field m2 kw).
  { unfold expected_model_strategies. rewrite Hmissing. f_equal.
    apply map_ext. intros item. unfold resolve_keyword. now rewrite Hlookup. }
  assert (Hevents : expected_model_events m1 kw = expected_model_events m2 kw).
  { unfold expected_model_events. rewrite Hmissing. f_equal.
    apply flat_map_ext. intros item. unfold keyword_events.
    now rewrite Hlookup. }
  erewrite (from_model_unfolded c1 kw st) by exact Hm1.
  erewrite (from_model_unfolded c2 kw st) by exact Hm2.
  unfold bind.
  rewrite (resolved_fields_exact m1 Hkw Hnames Hinfer Hfound st).
  rewrite (@resolved_fields_exact m2 kw Hkw Hnames2).
  - rewrite Hstrategies, Hevents.
    unfold dispatch_on_primary_key, bind.
    erewrite find_primary_key_same_lookup by exact Hget.
    rewrite Hgoc, Huoc.
    reflexivity.
  - intros name H. destruct (Hinfer name H) as (f & Hf & Hn).
    exists f. split; [|exact Hn]. eapply Permutation_in; eauto.
  - intros f Hf. apply Hfound. eapply Permutation_in; [symmetry|]; eauto.
Qed.

End Properties.

(** * The shop, checked *)

Ltac distinct_strings :=
  repeat (constructor; [simpl; intuition discriminate|]); constructor.

Lemma shop_fields_found (kw : Dict.t (pyarg Example.World)) (f : model_field) :
  In f (concrete_fields Example.Shop) ->
  Dict.get (mf_name f) kw = Some (Value PyInfer) \/
  no_keyword_no_auto_no_default kw f ->
  exists s, Example.from_field (ModelField f) = Ok s.
Proof.
  intros [<-|[<-|[<-|[]]]] _; eexists; reflexivity.
Defined.

(** C1, on the shop: the name is taken, the row construction raises
    [IntegrityError], the draw is a rejection; on the shop's form: the
    name drawn is not text, the constructor raises [ValidationError] for
    the data, the draw is a rejection; and on a form that cannot be built
    without a keyword of its own: the first use raises the
    [ValidationError] of the blank form, a failure. *)
Lemma integrity_and_validation_errors_are_rejected_witness :
  wrapped_strategy
    (lazy_from_model Example.from_field false (ClassObj Example.ShopClass)
       Example.kw_taken) Example.st0
  = (Ok (composite (@_models_impl Example.World pyval bool)
           (builds (get_or_create Example.Shop) Example.kw_taken)),
     Example.st0) /\
  builds (get_or_create Example.Shop) Example.kw_taken 0
  = (Raise IntegrityError, 0) /\
  (composite (@_models_impl Example.World pyval bool)
     (builds (get_or_create Example.Shop) Example.kw_taken) 0
   = (Raise UnsatisfiedAssumption, 0) /\
   engine_verdict
     (fst (composite (@_models_impl Example.World pyval bool)
             (builds (get_or_create Example.Shop) Example.kw_taken) 0))
   = Resample) /\
  (exists c m target kwargs,
      ClassObj Example.ShopClass = ClassObj c /\ cls_model c = Some m /\
      (target = get_or_create m \/ target = update_or_create m) /\
      composite (@_models_impl Example.World pyval bool)
        (builds (get_or_create Example.Shop) Example.kw_taken)
      = composite (@_models_impl Example.World pyval bool)
          (builds target kwargs) /\
      (forall w w',
          builds target kwargs w = (Raise IntegrityError, w') ->
          composite (@_models_impl Example.World pyval bool)
            (builds (get_or_create Example.Shop) Example.kw_taken) w
          = (Raise UnsatisfiedAssumption, w') /\
          engine_verdict
            (fst (composite (@_models_impl Example.World pyval bool)
                    (builds (get_or_create Example.Shop) Example.kw_taken) w))
          = Resample) /\
      (forall w',
          builds target kwargs (world Example.st0)
          = (Raise IntegrityError, w') ->
          do_draw
            (lazy_from_model Example.from_field false
               (ClassObj Example.ShopClass) Example.kw_taken) Example.st0
          = (Raise UnsatisfiedAssumption,
             {| world := w'; trace := trace Example.st0 |}) /\
          engine_verdict
            (fst (do_draw
                    (lazy_from_model Example.from_field false
                       (ClassObj Example.ShopClass) Example.kw_taken)
                    Example.st0))
          = Resample)) /\
  wrapped_strategy
    (lazy_from_form Example.from_field false (ClassObj Example.ShopFormClass)
       Example.kw_malformed) Example.st0
  = (Ok (composite (@_forms_impl Example.World form_instance)
           (builds
              (_FormWrap__new__
                 {| wraps := Example.ShopForm; form_kwargs := [] |})
              Example.kw_malformed)),
     {| world := 1; trace := [] |}) /\
  builds
    (_FormWrap__new__ {| wraps := Example.ShopForm; form_kwargs := [] |})
    Example.kw_malformed 1
  = (Raise ValidationError, 1) /\
  (composite (@_forms_impl Example.World form_instance)
     (builds
        (_FormWrap__new__ {| wraps := Example.ShopForm; form_kwargs := [] |})
        Example.kw_malformed) 1
   = (Raise UnsatisfiedAssumption, 1) /\
   engine_verdict
     (fst (composite (@_forms_impl Example.World form_instance)
             (builds
                (_FormWrap__new__
                   {| wraps := Example.ShopForm; form_kwargs := [] |})
                Example.kw_malformed) 1))
   = Resample) /\
  (exists c f fs,
      ClassObj Example.ShopFormClass = ClassObj c /\ cls_form c = Some f /\
      composite (@_forms_impl Example.World form_instance)
        (builds
           (_FormWrap__new__
              {| wraps := Example.ShopForm; form_kwargs := [] |})
           Example.kw_malformed)
      = composite (@_forms_impl Example.World form_instance)
          (builds
             (_FormWrap__new__
                {| wraps := f;
                   form_kwargs := snd (split_kwargs Example.kw_malformed) |})
             fs)) /\
  (wrapped_strategy
     (lazy_from_form Example.from_field false
        (ClassObj Example.StrictFormClass) []) Example.st0
   = (Raise ValidationError, {| world := 0; trace := [] |}) /\
   do_draw
     (lazy_from_form Example.from_field false
        (ClassObj Example.StrictFormClass) []) Example.st0
   = (Raise ValidationError, {| world := 0; trace := [] |}) /\
   engine_verdict
     (fst (do_draw
             (lazy_from_form Example.from_field false
                (ClassObj Example.StrictFormClass) []) Example.st0))
   = Failure ValidationError).
Proof.
  destruct (integrity_and_validation_errors_are_rejected Example.from_field)
    as (Hmodels & Hforms & Hmodel & Hform & Hblank).
  split; [reflexivity|]. split; [reflexivity|].
  split; [apply Hmodels; reflexivity|].
  split.
  { apply (Hmodel false (ClassObj Example.ShopClass) Example.kw_taken
             Example.st0 _ Example.st0).
    reflexivity. }
  split; [reflexivity|]. split; [reflexivity|].
  split; [apply Hforms; reflexivity|].
  split.
  { destruct (Hform false (ClassObj Example.ShopFormClass)
                Example.kw_malformed Example.st0 _
                {| world := 1; trace := [] |} eq_refl)
      as (c & f & fs & Hc & Hf & Hs & _).
    exists c, f, fs. auto. }
  apply (Hblank false Example.StrictFormClass Example.StrictForm []
           Example.st0 0);
    reflexivity.
Defined.

(** C1, the claim as it was stated: the form cannot be built without its
    keyword, the constructor raises [ValidationError] for the blank form
    when the strategy is first drawn from, and the draw is a failure, not
    a rejection. *)
Lemma blank_form_validation_error_is_not_rejected :
  do_draw
    (lazy_from_form Example.from_field false
       (ClassObj Example.StrictFormClass) []) Example.st0
  = (Raise ValidationError, Example.st0) /\
  engine_verdict
    (fst (do_draw
            (lazy_from_form Example.from_field false
               (ClassObj Example.StrictFormClass) []) Example.st0))
  = Failure ValidationError /\
  engine_verdict
    (fst (do_draw
            (lazy_from_form Example.from_field false
               (ClassObj Example.StrictFormClass) []) Example.st0))
  <> Resample.
Proof.
  split; [reflexivity|]. split; [reflexivity|]. discriminate.
Qed.


(** C3, on the shop: [active] has a default and is passed as [infer],
    [name] has neither keyword nor default, [id] is auto-created. *)
Lemma from_model_infers_fields_witness :
  exists fs r evs,
    traced (resolved_fields Example.from_field Example.Shop Example.kw_infer)
      (Ok fs) evs /\
    traced (dispatch_on_primary_key Example.Shop fs) r [] /\
    traced
      (from_model Example.from_field (ClassObj Example.ShopClass)
         Example.kw_infer)
      r evs /\
    In (EvFromField "active" (ModelField Example.active_field)) evs /\
    In (EvFromField "name" (ModelField Example.name_field)) evs /\
    (In (EvFromField "id" (ModelField Example.id_field)) evs -> False) /\
    Dict.get "active" fs = Some (Strategy Example.fresh_int) /\
    Dict.get "name" fs = Some (Strategy Example.fresh_int) /\
    Dict.get "id" fs = None /\
    exists s, r = Ok s.
Proof.
  destruct (@from_model_infers_fields Example.World Example.from_field
              Example.ShopClass Example.Shop Example.kw_infer)
    as (fs & r & evs & Hres & Hdis & Ht & Hev & Hrecv & _ & Hnone & Hok).
  - reflexivity.
  - distinct_strings.
  - distinct_strings.
  - intros name H. unfold Example.kw_infer in H. cbn [Dict.get] in H.
    destruct (String.eqb name "active") eqn:E; [|discriminate].
    apply String.eqb_eq in E. subst name.
    exists Example.active_field. simpl. auto.
  - apply shop_fields_found.
  - exists fs, r, evs.
    split; [exact Hres|]. split; [exact Hdis|]. split; [exact Ht|].
    split; [|split; [|split; [|split; [|split; [|split]]]]].
    + apply (Hev Example.active_field); [simpl; auto|]. left. reflexivity.
    + apply (Hev Example.name_field); [simpl; auto|]. right.
      repeat split.
    + intros H. apply (Hev Example.id_field) in H; [|simpl; auto].
      destruct H as [H|(_ & H & _)]; discriminate.
    + destruct (Hrecv Example.active_field) as (s & Hs & Hg);
        [simpl; auto | left; reflexivity |].
      injection Hs as <-. exact Hg.
    + destruct (Hrecv Example.name_field) as (s & Hs & Hg);
        [simpl; auto | right; repeat split |].
      injection Hs as <-. exact Hg.
    + apply (Hnone Example.id_field); [simpl; auto | reflexivity |].
      left. reflexivity.
    + apply Hok.
      * intros k [<-|[]]. discriminate.
      * intros f [<-|[<-|[<-|[]]]]; discriminate.
Defined.

(** C3, the claim as it was stated: [active] is named by a keyword and
    has a default, and [from_field] is called for it all the same. *)
Lemma inferred_despite_keyword_and_default :
  (exists s,
      fst (from_model Example.from_field (ClassObj Example.ShopClass)
             Example.kw_infer Example.st0) = Ok s) /\
  trace (snd (from_model Example.from_field (ClassObj Example.ShopClass)
                Example.kw_infer Example.st0))
  = [EvFromField "active" (ModelField Example.active_field);
     EvFromField "name" (ModelField Example.name_field)] /\
  Dict.mem "active" Example.kw_infer = true /\
  default Example.active_field = Some (PyInt 1).
Proof.
  split; [eexists; reflexivity|]. repeat split.
Qed.

(** C4, on the shop's form: [name] is inferred, [code] is disabled and
    passed besides. *)
Lemma from_form_infers_fields_witness :
  exists fs evs,
    from_form Example.from_field (ClassObj Example.ShopFormClass)
      Example.kw_form Example.st0
    = (Ok (composite (@_forms_impl Example.World form_instance)
             (builds
                (_FormWrap__new__
                   {| wraps := Example.ShopForm;
                      form_kwargs := values_of Example.kw_form |})
                fs)),
       {| world := 1; trace := trace Example.st0 ++ evs |}) /\
    In (EvFromField "name"
          (FormField {| ff_type := "CharField"; disabled := false |})) evs /\
    (In (EvFromField "code"
           (FormField {| ff_type := "CharField"; disabled := true |})) evs
     -> False) /\
    Dict.get "name" fs = Some (Strategy Example.fresh_int) /\
    Dict.get "code" fs = Some (Strategy (Example.just (PyInt 7))).
Proof.
  destruct (@from_form_infers_fields Example.World Example.from_field
              Example.ShopFormClass Example.ShopForm Example.kw_form
              Example.st0
              {| form_id := 0; fields := Example.shop_form_fields |} 1)
    as (fs & evs & Hs & Hev & Hrecv & Hkept & _).
  - reflexivity.
  - distinct_strings.
  - reflexivity.
  - distinct_strings.
  - intros name field _ _ _. eexists. reflexivity.
  - exists fs, evs. split; [exact Hs|]. split; [|split; [|split]].
    + apply Hev; [simpl; auto|]. split; reflexivity.
    + intros H. apply Hev in H; [|simpl; auto].
      destruct H as [H _]. discriminate.
    + destruct (Hrecv "name" {| ff_type := "CharField"; disabled := false |})
        as (s & Hfs & Hg); [simpl; auto | reflexivity | reflexivity |].
      injection Hfs as <-. exact Hg.
    + apply Hkept. reflexivity.
Defined.

(** C5, on a class that is neither a model nor a form, and on a number:
    the call returns a lazy strategy, the first use raises. *)
Lemma class_of_wrong_kind_is_invalid_argument_witness :
  defines_strategy (from_model Example.from_field) false
    (ClassObj Example.Plain) Example.kw_id Example.st0
  = (Ok (lazy_from_model Example.from_field false (ClassObj Example.Plain)
           Example.kw_id),
     Example.st0) /\
  defines_strategy (from_form Example.from_field) false
    (ClassObj Example.Plain) Example.kw_form Example.st0
  = (Ok (lazy_from_form Example.from_field false (ClassObj Example.Plain)
           Example.kw_form),
     Example.st0) /\
  (wrapped_strategy
     (lazy_from_model Example.from_field false (ClassObj Example.Plain)
        Example.kw_id) Example.st0
   = (Raise InvalidArgument, Example.st0) /\
   do_draw
     (lazy_from_model Example.from_field false (ClassObj Example.Plain)
        Example.kw_id) Example.st0
   = (Raise InvalidArgument, Example.st0) /\
   engine_verdict
     (fst (do_draw
             (lazy_from_model Example.from_field false
                (ClassObj Example.Plain) Example.kw_id) Example.st0))
   = Failure InvalidArgument) /\
  (wrapped_strategy
     (lazy_from_form Example.from_field false (ClassObj Example.Plain)
        Example.kw_form) Example.st0
   = (Raise InvalidArgument,
      {| world := 0; trace := [EvPrint ["Plain"; "object"]] |}) /\
   do_draw
     (lazy_from_form Example.from_field false (ClassObj Example.Plain)
        Example.kw_form) Example.st0
   = (Raise InvalidArgument,
      {| world := 0; trace := [EvPrint ["Plain"; "object"]] |}) /\
   engine_verdict
     (fst (do_draw
             (lazy_from_form Example.from_field false
                (ClassObj Example.Plain) Example.kw_form) Example.st0))
   = Failure InvalidArgument) /\
  (wrapped_strategy
     (lazy_from_model Example.from_field false (NonClassObj (PyInt 3)) [])
     Example.st0
   = (Raise TypeError, Example.st0) /\
   do_draw
     (lazy_from_model Example.from_field false (NonClassObj (PyInt 3)) [])
     Example.st0
   = (Raise TypeError, Example.st0) /\
   engine_verdict
     (fst (do_draw
             (lazy_from_model Example.from_field false
                (NonClassObj (PyInt 3)) []) Example.st0))
   = Failure TypeError) /\
  (wrapped_strategy
     (lazy_from_form Example.from_field false (NonClassObj (PyStr "form")) [])
     Example.st0
   = (Raise TypeError, Example.st0) /\
   do_draw
     (lazy_from_form Example.from_field false (NonClassObj (PyStr "form")) [])
     Example.st0
   = (Raise TypeError, Example.st0) /\
   engine_verdict
     (fst (do_draw
             (lazy_from_form Example.from_field false
                (NonClassObj (PyStr "form")) []) Example.st0))
   = Failure TypeError).
Proof.
  destruct (class_of_wrong_kind_is_invalid_argument Example.from_field)
    as (H1 & H2 & H3 & H4 & H5 & H6).
  split; [apply H1|]. split; [apply H2|].
  split; [apply H3; reflexivity|].
  split.
  - apply (H4 false Example.Plain Example.kw_form Example.st0). reflexivity.
  - split; [apply H5 | apply H6].
Defined.

(** C5, the claim as it was stated: the call with a class that is no
    model, or no form, raises nothing and prints nothing, it returns a
    lazy strategy; and an argument that is no class at all makes the first
    use raise [TypeError], not [InvalidArgument]. *)
Lemma invalid_argument_is_not_raised_at_the_call :
  defines_strategy (from_model Example.from_field) false
    (ClassObj Example.Plain) [] Example.st0
  = (Ok (lazy_from_model Example.from_field false (ClassObj Example.Plain) []),
     Example.st0) /\
  defines_strategy (from_form Example.from_field) false
    (ClassObj Example.Plain) [] Example.st0
  = (Ok (lazy_from_form Example.from_field false (ClassObj Example.Plain) []),
     Example.st0) /\
  fst (defines_strategy (from_model Example.from_field) false
         (ClassObj Example.Plain) [] Example.st0)
  <> Raise InvalidArgument /\
  fst (defines_strategy (from_form Example.from_field) false
         (ClassObj Example.Plain) [] Example.st0)
  <> Raise InvalidArgument /\
  do_draw
    (lazy_from_model Example.from_field false (NonClassObj (PyInt 3)) [])
    Example.st0
  = (Raise TypeError, Example.st0) /\
  do_draw
    (lazy_from_form Example.from_field false (NonClassObj (PyInt 3)) [])
    Example.st0
  = (Raise TypeError, Example.st0).
Proof.
  split; [reflexivity|]. split; [reflexivity|].
  split; [discriminate|]. split; [discriminate|].
  split; reflexivity.
Qed.




(** C7, on the shop and on a form whose constructor keeps state: a second
    call after a first, one result of [from_model] whatever the state,
    [from_form] as the constructor's call and what follows it, and a
    result of [from_form] that depends on the world only. *)
Lemma from_model_and_from_form_keep_no_state_witness :
  defines_strategy (from_form Example.from_field) false
    (ClassObj Example.DynFormClass) []
    (snd (defines_strategy (from_form Example.from_field) false
            (ClassObj Example.DynFormClass) [] Example.st0))
  = defines_strategy (from_form Example.from_field) false
      (ClassObj Example.DynFormClass) [] Example.st0 /\
  defines_strategy (from_model Example.from_field) false
    (ClassObj Example.ShopClass) Example.kw_id
    (snd (defines_strategy (from_form Example.from_field) false
            (ClassObj Example.DynFormClass) [] Example.st0))
  = defines_strategy (from_model Example.from_field) false
      (ClassObj Example.ShopClass) Example.kw_id Example.st0 /\
  (exists r evs, forall st,
      from_model Example.from_field (ClassObj Example.ShopClass)
        Example.kw_id st
      = (r, {| world := world st; trace := trace st ++ evs |})) /\
  ((forall st,
       from_form Example.from_field (ClassObj Example.DynFormClass)
         Example.kw_form st
       = (blank_form <-
            lift_world (form_init Example.DynForm (snd (split_kwargs Example.kw_form))) ;;
          field_strategies <-
            resolve_infer Example.from_field FormField (fields blank_form)
              (fst (split_kwargs Example.kw_form)) ;;
          field_strategies <-
            infer_form_fields Example.from_field (fields blank_form)
              field_strategies ;;
          ret (composite (@_forms_impl Example.World form_instance)
                 (builds
                    (_FormWrap__new__
                       {| wraps := Example.DynForm;
                          form_kwargs := snd (split_kwargs Example.kw_form) |})
                    field_strategies))) st) /\
   (forall blank_form : form_instance, exists r evs,
       traced
         (field_strategies <-
            resolve_infer Example.from_field FormField (fields blank_form)
              (fst (split_kwargs Example.kw_form)) ;;
          field_strategies <-
            infer_form_fields Example.from_field (fields blank_form)
              field_strategies ;;
          ret (composite (@_forms_impl Example.World form_instance)
                 (builds
                    (_FormWrap__new__
                       {| wraps := Example.DynForm;
                          form_kwargs := snd (split_kwargs Example.kw_form) |})
                    field_strategies)))
         r evs)) /\
  (fst (from_form Example.from_field (ClassObj Example.DynFormClass) []
          {| world := 1; trace := [] |})
   = fst (from_form Example.from_field (ClassObj Example.DynFormClass) []
            {| world := 1; trace := [EvPrint ["Plain"; "object"]] |}) /\
   world (snd (from_form Example.from_field (ClassObj Example.DynFormClass) []
                 {| world := 1; trace := [] |}))
   = world (snd (from_form Example.from_field
                   (ClassObj Example.DynFormClass) []
                   {| world := 1; trace := [EvPrint ["Plain"; "object"]] |}))).
Proof.
  destruct (from_model_and_from_form_keep_no_state Example.from_field)
    as (_ & _ & _ & Hmf & _ & Hff & Hmodel & Hform & _ & Hworld & _).
  split; [apply Hff|]. split; [apply Hmf|]. split; [apply Hmodel|].
  split.
  - apply (Hform Example.DynFormClass Example.DynForm Example.kw_form).
    reflexivity.
  - apply Hworld. reflexivity.
Defined.

(** C7, the claim as it was stated: two calls of [from_form] with the
    same arguments, on a form whose constructor keeps state.  The calls
    return the same lazy strategy; used one after the other, the first
    infers a strategy for the field [a] and the second infers nothing,
    and their draws differ. *)
Lemma stateful_form_constructor_changes_later_strategy :
  defines_strategy (from_form Example.from_field) false
    (ClassObj Example.DynFormClass) [] Example.st0
  = (Ok (lazy_from_form Example.from_field false
           (ClassObj Example.DynFormClass) []),
     Example.st0) /\
  defines_strategy (from_form Example.from_field) false
    (ClassObj Example.DynFormClass) []
    (snd (defines_strategy (from_form Example.from_field) false
            (ClassObj Example.DynFormClass) [] Example.st0))
  = (Ok (lazy_from_form Example.from_field false
           (ClassObj Example.DynFormClass) []),
     Example.st0) /\
  wrapped_strategy
    (lazy_from_form Example.from_field false (ClassObj Example.DynFormClass) [])
    Example.st0
  = (Ok Example.dyn_first_strategy,
     {| world := 1;
        trace := [EvFromField "a"
                    (FormField {| ff_type := "CharField";
                                  disabled := false |})] |}) /\
  wrapped_strategy
    (lazy_from_form Example.from_field false (ClassObj Example.DynFormClass) [])
    {| world := 1;
       trace := [EvFromField "a"
                   (FormField {| ff_type := "CharField";
                                 disabled := false |})] |}
  = (Ok Example.dyn_later_strategy,
     {| world := 2;
        trace := [EvFromField "a"
                    (FormField {| ff_type := "CharField";
                                  disabled := false |})] |}) /\
  Example.dyn_first_strategy 5 = (Ok {| form_id := 6; fields := [] |}, 7) /\
  Example.dyn_later_strategy 5 = (Ok {| form_id := 5; fields := [] |}, 6) /\
  Example.dyn_first_strategy 5 <> Example.dyn_later_strategy 5.
Proof.
  split; [reflexivity|]. split; [reflexivity|]. split; [reflexivity|].
  split; [reflexivity|]. split; [reflexivity|]. split; [reflexivity|].
  discriminate.
Qed.

(** C8, on the shop's form: [code] is a field strategy, [prefix] and
    [auto_id], which is [infer], go to the constructor. *)
Lemma from_form_splits_keywords_witness :
  split_kwargs Example.kw_form
  = ([("code", Strategy (Example.just (PyInt 7)))],
     [("prefix", PyStr "x"); ("auto_id", PyInfer)]) /\
  Dict.get "auto_id" (values_of Example.kw_form) = Some PyInfer /\
  Dict.get "auto_id" (strategies_of Example.kw_form) = None /\
  (forall st,
      from_form Example.from_field (ClassObj Example.ShopFormClass)
        Example.kw_form st
      = (blank_form <-
           lift_world (form_init Example.ShopForm (values_of Example.kw_form)) ;;
         field_strategies <-
           infer_form_fields Example.from_field (fields blank_form)
             (strategies_of Example.kw_form) ;;
         ret (composite (@_forms_impl Example.World form_instance)
                (builds
                   (_FormWrap__new__
                      {| wraps := Example.ShopForm;
                         form_kwargs := values_of Example.kw_form |})
                   field_strategies))) st).
Proof.
  destruct (@from_form_splits_keywords Example.World Example.from_field
              Example.ShopFormClass Example.ShopForm Example.kw_form)
    as (Hsplit & _ & _ & Hinfer & _ & _ & Hform).
  - reflexivity.
  - distinct_strings.
  - split; [exact Hsplit|].
    destruct (Hinfer "auto_id" eq_refl) as [Hv Hs].
    split; [exact Hv|]. split; [exact Hs | exact Hform].
Defined.

(** C9, on the shop: the value drawn is the row's object. *)
Lemma from_model_draws_the_instance_witness :
  from_model Example.from_field (ClassObj Example.ShopClass) [] Example.st0
  = (Ok Example.shop_strategy,
     {| world := 0;
        trace := [EvFromField "name" (ModelField Example.name_field)] |}) /\
  Example.shop_strategy 5 = (Ok (PyObj 6), 7) /\
  exists c m target kwargs,
    ClassObj Example.ShopClass = ClassObj c /\ cls_model c = Some m /\
    (target = get_or_create m \/ target = update_or_create m) /\
    Example.shop_strategy
    = composite (@_models_impl Example.World pyval bool)
        (builds target kwargs) /\
    forall w obj w',
      Example.shop_strategy w = (Ok obj, w') <->
      exists vals w1 created,
        draw_kwargs kwargs w = (Ok vals, w1) /\
        target vals w1 = (Ok (obj, created), w').
Proof.
  split; [reflexivity|]. split; [reflexivity|].
  apply (@from_model_draws_the_instance Example.World Example.from_field
           (ClassObj Example.ShopClass) [] Example.st0 Example.shop_strategy
           {| world := 0;
              trace := [EvFromField "name" (ModelField Example.name_field)] |}).
  reflexivity.
Defined.

(** C10, on the shop's form: the constructor gets the drawn values under
    [data] and the two other keywords. *)
Lemma from_form_constructs_with_data_witness :
  from_form Example.from_field (ClassObj Example.ShopFormClass)
    Example.kw_form Example.st0
  = (Ok Example.shop_form_strategy,
     {| world := 1;
        trace := [EvFromField "name"
                    (FormField {| ff_type := "CharField";
                                  disabled := false |})] |}) /\
  exists c f field_strategies,
    ClassObj Example.ShopFormClass = ClassObj c /\ cls_form c = Some f /\
    Example.shop_form_strategy
    = composite (@_forms_impl Example.World form_instance)
        (builds
           (_FormWrap__new__
              {| wraps := f; form_kwargs := values_of Example.kw_form |})
           field_strategies) /\
    (forall w inst w',
      Example.shop_form_strategy w = (Ok inst, w') <->
      exists vals w1,
        draw_kwargs field_strategies w = (Ok vals, w1) /\
        Dict.mem "self" field_strategies = false /\
        Dict.mem "data" (values_of Example.kw_form) = false /\
        form_init f (("data", PyDict vals) :: values_of Example.kw_form) w1
        = (Ok inst, w')) /\
    (forall w vals w1,
      draw_kwargs field_strategies w = (Ok vals, w1) ->
      Dict.mem "self" field_strategies = true \/
      Dict.mem "data" (values_of Example.kw_form) = true ->
      Example.shop_form_strategy w = (Raise TypeError, w1)).
Proof.
  split; [reflexivity|].
  apply (@from_form_constructs_with_data Example.World Example.from_field
           (ClassObj Example.ShopFormClass) Example.kw_form Example.st0
           Example.shop_form_strategy
           {| world := 1;
              trace := [EvFromField "name"
                          (FormField {| ff_type := "CharField";
                                        disabled := false |})] |}).
  - distinct_strings.
  - reflexivity.
Defined.

(** ** The further properties, on the shop *)

Lemma shop_infer_names_field (name : string) :
  Dict.get name Example.kw_infer = Some (Value PyInfer) ->
  exists f, In f (concrete_fields Example.Shop) /\ mf_name f = name.
Proof.
  intros H. unfold Example.kw_infer in H. cbn [Dict.get] in H.
  destruct (String.eqb name "active") eqn:E; [|discriminate].
  apply String.eqb_eq in E. subst name.
  exists Example.active_field. simpl. auto.
Defined.

Lemma shop_get_field_knows (f : model_field) :
  In f (concrete_fields Example.Shop) ->
  get_field Example.Shop (mf_name f) = Some f.
Proof. intros [<-|[<-|[<-|[]]]]; reflexivity. Defined.

Lemma shop_primary_key_is_auto (f : model_field) :
  In f (concrete_fields Example.Shop) -> primary_key f = true ->
  auto_created f = true \/ default f <> None.
Proof.
  intros [<-|[<-|[<-|[]]]] H; try discriminate H. left. reflexivity.
Defined.

(** X1, on the shop: [active] is passed as [infer], [name] is missing. *)
Lemma from_model_field_strategies_witness :
  expected_model_strategies Example.from_field Example.Shop Example.kw_infer
  = [("active", Strategy Example.fresh_int);
     ("name", Strategy Example.fresh_int)] /\
  expected_model_events Example.Shop Example.kw_infer
  = [EvFromField "active" (ModelField Example.active_field);
     EvFromField "name" (ModelField Example.name_field)] /\
  from_model Example.from_field (ClassObj Example.ShopClass) Example.kw_infer
    Example.st0
  = dispatch_on_primary_key Example.Shop
      (expected_model_strategies Example.from_field Example.Shop
         Example.kw_infer)
      {| world := world Example.st0;
         trace := trace Example.st0
                  ++ expected_model_events Example.Shop Example.kw_infer |}.
Proof.
  split; [reflexivity|]. split; [reflexivity|].
  destruct (@from_model_field_strategies Example.World Example.from_field
              Example.ShopClass Example.Shop Example.kw_infer)
    as (H & _).
  - reflexivity.
  - distinct_strings.
  - distinct_strings.
  - apply shop_infer_names_field.
  - apply shop_fields_found.
  - apply H.
Defined.

(** X2, on the shop: the primary key [id] is auto-created, the keyword
    names [name]. *)
Lemma from_model_gets_or_creates_without_primary_key_witness :
  expected_model_strategies Example.from_field Example.Shop Example.kw_taken
  = Example.kw_taken /\
  traced
    (from_model Example.from_field (ClassObj Example.ShopClass)
       Example.kw_taken)
    (Ok (composite (@_models_impl Example.World pyval bool)
           (builds (get_or_create Example.Shop)
              (expected_model_strategies Example.from_field Example.Shop
                 Example.kw_taken))))
    (expected_model_events Example.Shop Example.kw_taken).
Proof.
  split; [reflexivity|].
  apply from_model_gets_or_creates_without_primary_key.
  - reflexivity.
  - distinct_strings.
  - distinct_strings.
  - intros name H. unfold Example.kw_taken in H. cbn [Dict.get] in H.
    destruct (String.eqb name "name"); discriminate.
  - apply shop_fields_found.
  - apply shop_get_field_knows.
  - intros k [<-|[]]. exists Example.name_field. split; reflexivity.
  - apply shop_primary_key_is_auto.
Defined.


(** X4, on the shop: [owner=infer], and the shop has no field [owner]. *)
Lemma from_model_infer_for_unknown_field_is_key_error_witness :
  from_model Example.from_field (ClassObj Example.ShopClass)
    Example.kw_infer_unknown Example.st0
  = (Raise KeyError, Example.st0) /\
  exists evs,
    traced
      (from_model Example.from_field (ClassObj Example.ShopClass)
         Example.kw_infer_unknown)
      (Raise KeyError) evs.
Proof.
  split; [reflexivity|].
  apply (@from_model_infer_for_unknown_field_is_key_error Example.World
           Example.from_field Example.ShopClass Example.Shop
           Example.kw_infer_unknown "owner").
  - reflexivity.
  - distinct_strings.
  - distinct_strings.
  - reflexivity.
  - simpl. intuition discriminate.
  - intros name f _ [<-|[<-|[<-|[]]]] _; eexists; reflexivity.
Defined.

(** X5, on the shop: [colour] names no field of the shop. *)
Lemma from_model_unknown_keyword_is_field_does_not_exist_witness :
  from_model Example.from_field (ClassObj Example.ShopClass)
    Example.kw_colour Example.st0
  = (Raise FieldDoesNotExist,
     {| world := 0;
        trace := [EvFromField "name" (ModelField Example.name_field)] |}) /\
  traced
    (from_model Example.from_field (ClassObj Example.ShopClass)
       Example.kw_colour)
    (Raise FieldDoesNotExist)
    (expected_model_events Example.Shop Example.kw_colour).
Proof.
  split; [reflexivity|].
  apply (@from_model_unknown_keyword_is_field_does_not_exist Example.World
           Example.from_field Example.ShopClass Example.Shop
           Example.kw_colour "colour").
  - reflexivity.
  - distinct_strings.
  - distinct_strings.
  - intros name H. unfold Example.kw_colour in H. cbn [Dict.get] in H.
    destruct (String.eqb name "colour"); discriminate.
  - apply shop_fields_found.
  - simpl. auto.
  - reflexivity.
  - intros k [<-|[]] (f & Hf & _). discriminate Hf.
  - intros f [<-|[<-|[<-|[]]]] (_ & Ha & Hd) (g & Hg & Hpk);
      try discriminate.
    injection Hg as <-. discriminate.
Defined.

(** X6, on the shop: [from_model(Shop)] returns a strategy. *)
Lemma from_model_returns_only_when_inference_succeeds_witness :
  from_model Example.from_field (ClassObj Example.ShopClass) [] Example.st0
  = (Ok Example.shop_strategy,
     {| world := 0;
        trace := [EvFromField "name" (ModelField Example.name_field)] |}) /\
  exists s', Example.from_field (ModelField Example.name_field) = Ok s'.
Proof.
  split; [reflexivity|].
  destruct (@from_model_returns_only_when_inference_succeeds Example.World
              Example.from_field Example.ShopClass Example.Shop []
              Example.st0 Example.shop_strategy
              {| world := 0;
                 trace := [EvFromField "name"
                             (ModelField Example.name_field)] |})
    as (_ & H).
  - reflexivity.
  - constructor.
  - distinct_strings.
  - reflexivity.
  - apply (H Example.name_field); [simpl; auto|]. right. repeat split.
Defined.

(** X7, on the shop's form. *)
Lemma from_form_field_strategies_witness :
  from_form Example.from_field (ClassObj Example.ShopFormClass)
    Example.kw_form Example.st0
  = (Ok (composite (@_forms_impl Example.World form_instance)
           (builds
              (_FormWrap__new__
                 {| wraps := Example.ShopForm;
                    form_kwargs := values_of Example.kw_form |})
              (expected_form_strategies Example.from_field Example.kw_form
                 {| form_id := 0; fields := Example.shop_form_fields |}))),
     {| world := 1;
        trace := trace Example.st0
                 ++ map (inferred_event FormField)
                      (missing_form_fields Example.kw_form
                         {| form_id := 0;
                            fields := Example.shop_form_fields |}) |}) /\
  Dict.keys
    (expected_form_strategies Example.from_field Example.kw_form
       {| form_id := 0; fields := Example.shop_form_fields |})
  = ["code"; "name"].
Proof.
  destruct (@from_form_field_strategies Example.World Example.from_field
              Example.ShopFormClass Example.ShopForm Example.kw_form
              Example.st0
              {| form_id := 0; fields := Example.shop_form_fields |} 1)
    as (H & _).
  - reflexivity.
  - distinct_strings.
  - reflexivity.
  - distinct_strings.
  - intros name field _ _ _. eexists. reflexivity.
  - split; [exact H | reflexivity].
Defined.

(** X8, on the shop's form: [data={}] is passed to [from_form]. *)
Lemma from_form_data_keyword_is_type_error_witness :
  from_form Example.from_field (ClassObj Example.ShopFormClass)
    Example.kw_data Example.st0
  = (Ok Example.data_form_strategy,
     {| world := 1;
        trace := [EvFromField "name"
                    (FormField {| ff_type := "CharField";
                                  disabled := false |})] |}) /\
  Example.data_form_strategy 5 = (Raise TypeError, 6) /\
  exists c f field_strategies,
    ClassObj Example.ShopFormClass = ClassObj c /\ cls_form c = Some f /\
    Example.data_form_strategy
    = composite (@_forms_impl Example.World form_instance)
        (builds
           (_FormWrap__new__
              {| wraps := f; form_kwargs := values_of Example.kw_data |})
           field_strategies) /\
    (forall w,
        Example.data_form_strategy w =
        match draw_kwargs field_strategies w with
        | (Ok _, w1) => (Raise TypeError, w1)
        | (Raise ValidationError, w1) => (Raise UnsatisfiedAssumption, w1)
        | (Raise e, w1) => (Raise e, w1)
        end) /\
    (forall w vals w1,
        draw_kwargs field_strategies w = (Ok vals, w1) ->
        Example.data_form_strategy w = (Raise TypeError, w1)) /\
    (forall w inst w', Example.data_form_strategy w <> (Ok inst, w')).
Proof.
  split; [reflexivity|]. split; [reflexivity|].
  apply (@from_form_data_keyword_is_type_error Example.World
           Example.from_field (ClassObj Example.ShopFormClass)
           Example.kw_data Example.st0 Example.data_form_strategy
           {| world := 1;
              trace := [EvFromField "name"
                          (FormField {| ff_type := "CharField";
                                        disabled := false |})] |}).
  - distinct_strings.
  - reflexivity.
  - reflexivity.
Defined.

(** X9, on the shop's form: the data passed is malformed and the
    constructor of the blank form raises [ValidationError]. *)
Lemma from_form_constructor_exception_propagates_witness :
  from_form Example.from_field (ClassObj Example.ShopFormClass)
    Example.kw_data_malformed Example.st0
  = (Raise ValidationError, {| world := 0; trace := trace Example.st0 |}) /\
  engine_verdict
    (fst (from_form Example.from_field (ClassObj Example.ShopFormClass)
            Example.kw_data_malformed Example.st0))
  = Failure ValidationError.
Proof.
  destruct (@from_form_constructor_exception_propagates Example.World
              Example.from_field Example.ShopFormClass Example.ShopForm
              Example.kw_data_malformed Example.st0 ValidationError 0)
    as (H1 & H2).
  - reflexivity.
  - distinct_strings.
  - reflexivity.
  - split; [exact H1 | exact (H2 eq_refl)].
Defined.

(** X10, on the shop's form. *)
Lemma from_form_returns_only_when_inference_succeeds_witness :
  exists blank_form w1,
    form_init Example.ShopForm (values_of Example.kw_form)
      (world Example.st0) = (Ok blank_form, w1) /\
    w1 = 1.
Proof.
  destruct (@from_form_returns_only_when_inference_succeeds Example.World
              Example.from_field Example.ShopFormClass Example.ShopForm
              Example.kw_form Example.st0 Example.shop_form_strategy
              {| world := 1;
                 trace := [EvFromField "name"
                             (FormField {| ff_type := "CharField";
                                           disabled := false |})] |})
    as (blank & w1 & Hinit & Hw & _).
  - reflexivity.
  - distinct_strings.
  - reflexivity.
  - exists blank, w1. split; [exact Hinit | now rewrite <- Hw].
Defined.

(** X11, on the shop and the shop with its fields in reverse order. *)
Lemma from_model_ignores_declaration_order_witness :
  concrete_fields Example.ShopReordered
  = [Example.active_field; Example.name_field; Example.id_field] /\
  from_model Example.from_field (ClassObj Example.ShopClass)
    Example.kw_infer Example.st0
  = from_model Example.from_field (ClassObj Example.ShopReorderedClass)
      Example.kw_infer Example.st0.
Proof.
  split; [reflexivity|].
  apply (@from_model_ignores_declaration_order Example.World
           Example.from_field Example.ShopClass Example.ShopReorderedClass
           Example.Shop Example.ShopReordered Example.kw_infer).
  - reflexivity.
  - reflexivity.
  - apply Permutation_rev.
  - reflexivity.
  - reflexivity.
  - reflexivity.
  - distinct_strings.
  - distinct_strings.
  - apply shop_infer_names_field.
  - apply shop_fields_found.
Defined.
